(** * Request lifecycle and instance execution core of the inference server

    A shallow embedding of
      - src/core/infer_request.cc   (InferenceRequest: Normalize,
        PrepareForInference, Release, RespondIfError, CopyAsNull),
      - src/core/backend.cc         (InferenceBackend: GetInput, GetOutput,
        SetModelConfig),
      - triton_model_instance.cc    (TritonModelInstance: GenerateWarmupData,
        Execute, ScheduleFunc, TritonBackendThread::Payload::Execute),
    followed by the properties of the specification that are settled on it.

    Conventions.  A [std::unordered_map] that the code iterates over is an
    association list in iteration order (the order is unspecified in C++ and
    some results depend on it); maps that are only looked up are [gmap]s and
    [std::set<std::string>] is a [gset string].  Fixed-width integers are [Z]
    with the conversions written out.  Callbacks are recorded as events of a
    trace. *)

From Stdlib Require Import ZArith Lia.
From stdpp Require Import gmap strings list fin_maps pretty.

Local Open Scope string_scope.
Local Open Scope list_scope.
Local Open Scope Z_scope.

#[local] Set Warnings "-clear-no-such-hyp".

(** ** Status *)

(** Modelled from the spec: the status codes of status.h (absent from the
    sources), i.e. the error kinds of the error-handling section together
    with success. *)
Inductive Code : Type :=
  | SUCCESS
  | INVALID_ARG
  | INTERNAL
  | UNAVAILABLE
  | UNSUPPORTED.

Global Instance Code_eq_dec : EqDecision Code.
Proof. solve_decision. Defined.

Record Status : Type := mkStatus {
  StatusCode : Code;
  Message : string
}.

Global Instance Status_eq_dec : EqDecision Status.
Proof. solve_decision. Defined.

Definition Success : Status := mkStatus SUCCESS "".

Definition IsOk (s : Status) : bool :=
  bool_decide (StatusCode s = SUCCESS).

(** ** Fixed-width conversions *)

(** Conversion of an [int64_t] to [uint32_t]. *)
Definition to_uint32 (z : Z) : Z := z mod 2 ^ 32.

(** The cast [(int)] applied to a [uint32_t]. *)
Definition uint32_to_int (z : Z) : Z :=
  if bool_decide (z < 2 ^ 31) then z else z - 2 ^ 32.

(** ** Model configuration (the fields of model_config.proto that are read) *)

Inductive DataType : Type :=
  | TYPE_INVALID
  | TYPE_BOOL
  | TYPE_UINT8 | TYPE_UINT16 | TYPE_UINT32 | TYPE_UINT64
  | TYPE_INT8 | TYPE_INT16 | TYPE_INT32 | TYPE_INT64
  | TYPE_FP16 | TYPE_FP32 | TYPE_FP64
  | TYPE_STRING.

Global Instance DataType_eq_dec : EqDecision DataType.
Proof. solve_decision. Defined.

Definition WILDCARD_DIM : Z := -1.

Record ModelInput : Type := mkModelInput {
  mi_name : string;
  mi_data_type : DataType;
  mi_dims : list Z;
  (* [has_reshape()] and [reshape().shape()] *)
  mi_reshape : option (list Z);
  mi_is_shape_tensor : bool
}.

Record ModelOutput : Type := mkModelOutput {
  mo_name : string;
  mo_data_type : DataType;
  mo_dims : list Z
}.

Record ModelConfig : Type := mkModelConfig {
  mc_name : string;
  mc_max_batch_size : Z;
  mc_input : list ModelInput;
  mc_output : list ModelOutput
}.

(** ** InferenceBackend (backend.cc) *)

Record InferenceBackend : Type := mkBackend {
  config_ : ModelConfig;
  version_ : Z;
  input_map_ : gmap string ModelInput;
  output_map_ : gmap string ModelOutput
}.

Definition Name (b : InferenceBackend) : string := mc_name (config_ b).

Definition GetInput (b : InferenceBackend) (name : string)
  : Status + ModelInput :=
  match input_map_ b !! name with
  | None =>
      inl (mkStatus INVALID_ARG
             ("unexpected inference input '" +:+ name +:+ "' for model '"
                +:+ Name b +:+ "'"))
  | Some input => inr input
  end.

Definition GetOutput (b : InferenceBackend) (name : string)
  : Status + ModelOutput :=
  match output_map_ b !! name with
  | None =>
      inl (mkStatus INVALID_ARG
             ("unexpected inference output '" +:+ name +:+ "' for model '"
                +:+ Name b +:+ "'"))
  | Some output => inr output
  end.

(** [std::unordered_map::insert]: the entry is added only when the key is
    absent. *)
Definition map_insert_new {V} (k : string) (v : V) (m : gmap string V)
  : gmap string V :=
  match m !! k with
  | Some _ => m
  | None => <[k := v]> m
  end.

(** The part of [SetModelConfig] that fills the input and output maps. *)
Definition SetModelConfig (version : Z) (config : ModelConfig)
  : InferenceBackend :=
  {| config_ := config;
     version_ := version;
     input_map_ :=
       fold_left (fun m io => map_insert_new (mi_name io) io m)
                 (mc_input config) ∅;
     output_map_ :=
       fold_left (fun m io => map_insert_new (mo_name io) io m)
                 (mc_output config) ∅ |}.

(** ** Memory *)

Inductive TRITONSERVER_MemoryType : Type :=
  | TRITONSERVER_MEMORY_CPU
  | TRITONSERVER_MEMORY_CPU_PINNED
  | TRITONSERVER_MEMORY_GPU.

Global Instance MemoryType_eq_dec : EqDecision TRITONSERVER_MemoryType.
Proof. solve_decision. Defined.

(** An address: a block of the store and a byte offset into it. *)
Record Ptr : Type := mkPtr {
  ptr_block : N;
  ptr_offset : nat
}.

Global Instance Ptr_eq_dec : EqDecision Ptr.
Proof. solve_decision. Defined.

(** One slice [(ptr, len, memtype, memid)] of foreign memory. *)
Record Buffer : Type := mkBuffer {
  buf_base : Ptr;
  buf_byte_size : nat;
  buf_memory_type : TRITONSERVER_MemoryType;
  buf_memory_type_id : Z
}.

Global Instance Buffer_eq_dec : EqDecision Buffer.
Proof. solve_decision. Defined.

(** Modelled from the spec: the class [Memory] of memory.h (absent from the
    sources), a tagged variant of [Reference] (a list of non-owned slices)
    and [Allocated] (one owned slab with a memory-type tag), with
    [total_byte_size()] and [buffer_at(idx)]. *)
Inductive Memory : Type :=
  | MemoryReference (buffers : list Buffer)
  | AllocatedMemory (block : N) (byte_size : nat)
                    (memory_type : TRITONSERVER_MemoryType)
                    (memory_type_id : Z).

Global Instance Memory_eq_dec : EqDecision Memory.
Proof. solve_decision. Defined.

Definition TotalByteSize (m : Memory) : nat :=
  match m with
  | MemoryReference buffers => sum_list (buf_byte_size <$> buffers)
  | AllocatedMemory _ byte_size _ _ => byte_size
  end.

(** [BufferAt(idx, &byte_size, &memory_type, &memory_type_id)]; the result is
    [None] (a null pointer, with byte size 0) when there is no such buffer. *)
Definition BufferAt (m : Memory) (idx : nat) : option Buffer :=
  match m with
  | MemoryReference buffers => buffers !! idx
  | AllocatedMemory block byte_size mt id =>
      match idx with
      | O => Some (mkBuffer (mkPtr block 0) byte_size mt id)
      | S _ => None
      end
  end.

(** [MemoryReference::AddBuffer]. *)
Definition AddBuffer (m : Memory) (b : Buffer) : Memory :=
  match m with
  | MemoryReference buffers => MemoryReference (buffers ++ [b])
  | AllocatedMemory _ _ _ _ => m
  end.

(** The store: the content of every block; [None] is a byte that was never
    written. *)
Abbreviation Heap := (gmap N (list (option Byte.byte))).

(** [new AllocatedMemory(byte_size, memory_type, memory_type_id)]: a block
    that is not in the store yet, of [byte_size] uninitialised bytes. *)
Definition new_AllocatedMemory (h : Heap) (byte_size : nat)
    (mt : TRITONSERVER_MemoryType) (id : Z) : Memory * Heap :=
  let block := fresh (dom h) in
  (AllocatedMemory block byte_size mt id,
   <[block := replicate byte_size None]> h).

(** The [n] bytes at [p]; a byte outside of every block reads as
    uninitialised. *)
Definition read_bytes (h : Heap) (p : Ptr) (n : nat)
  : list (option Byte.byte) :=
  (fun i : nat =>
     match h !! ptr_block p with
     | Some cells => default None (cells !! (ptr_offset p + i)%nat)
     | None => None
     end) <$> seq 0 n.

(** [std::memcpy(dst, src, n)] where [dst] is the start of [block]. *)
Definition memcpy (h : Heap) (block : N) (src : option Ptr) (n : nat) : Heap :=
  match src, h !! block with
  | Some p, Some cells =>
      <[block := take (length cells) (read_bytes h p n ++ drop n cells)]> h
  | _, _ => h
  end.

(** [memset(dst, 0, n)] where [dst] is the start of [block]. *)
Definition memset0 (h : Heap) (block : N) (n : nat) : Heap :=
  match h !! block with
  | Some cells =>
      <[block := take (length cells)
                   (replicate n (Some Byte.x00) ++ drop n cells)]> h
  | None => h
  end.

(** ** InferenceRequest::Input *)

Record Input : Type := mkInput {
  name_ : string;
  datatype_ : DataType;
  original_shape_ : list Z;
  shape_ : list Z;
  shape_with_batch_dim_ : list Z;
  is_shape_tensor_ : bool;
  data_ : Memory
}.

Global Instance Input_eq_dec : EqDecision Input.
Proof. solve_decision. Defined.

(** [Input(name, datatype, shape)]. *)
Definition new_Input (name : string) (datatype : DataType) (shape : list Z)
  : Input :=
  {| name_ := name; datatype_ := datatype; original_shape_ := shape;
     shape_ := []; shape_with_batch_dim_ := []; is_shape_tensor_ := false;
     data_ := MemoryReference [] |}.

Definition set_Shape (i : Input) (s : list Z) : Input :=
  {| name_ := name_ i; datatype_ := datatype_ i;
     original_shape_ := original_shape_ i; shape_ := s;
     shape_with_batch_dim_ := shape_with_batch_dim_ i;
     is_shape_tensor_ := is_shape_tensor_ i; data_ := data_ i |}.

Definition set_ShapeWithBatchDim (i : Input) (s : list Z) : Input :=
  {| name_ := name_ i; datatype_ := datatype_ i;
     original_shape_ := original_shape_ i; shape_ := shape_ i;
     shape_with_batch_dim_ := s;
     is_shape_tensor_ := is_shape_tensor_ i; data_ := data_ i |}.

Definition SetIsShapeTensor (i : Input) (b : bool) : Input :=
  {| name_ := name_ i; datatype_ := datatype_ i;
     original_shape_ := original_shape_ i; shape_ := shape_ i;
     shape_with_batch_dim_ := shape_with_batch_dim_ i;
     is_shape_tensor_ := b; data_ := data_ i |}.

Definition set_data (i : Input) (m : Memory) : Input :=
  {| name_ := name_ i; datatype_ := datatype_ i;
     original_shape_ := original_shape_ i; shape_ := shape_ i;
     shape_with_batch_dim_ := shape_with_batch_dim_ i;
     is_shape_tensor_ := is_shape_tensor_ i; data_ := m |}.

(** [Input::AppendData]. *)
Definition AppendData (i : Input) (base : Ptr) (byte_size : nat)
    (mt : TRITONSERVER_MemoryType) (id : Z) : Input :=
  if bool_decide (0 < byte_size)%nat
  then set_data i (AddBuffer (data_ i) (mkBuffer base byte_size mt id))
  else i.

(** [Input::SetData]. *)
Definition SetData (i : Input) (data : Memory) : Status * Input :=
  if bool_decide (TotalByteSize (data_ i) ≠ 0%nat)
  then (mkStatus INVALID_ARG
          ("input '" +:+ name_ i +:+ "' already has data, can't overwrite"),
        i)
  else (Success, set_data i data).

(** ** Callbacks *)

(** The response allocators the code installs, and the ones of callers. *)
Inductive ResponseAllocator : Type :=
  | null_allocator
  | warmup_allocator
  | user_allocator (id : N).

Inductive ResponseCompleteFn : Type :=
  | NullResponseComplete
  | WarmupResponseComplete
  | user_response_complete (id : N).

Inductive ReleaseFn : Type :=
  | NullRequestComplete
  | WarmupRequestComplete
  | user_release (id : N).

Global Instance ResponseAllocator_eq_dec : EqDecision ResponseAllocator.
Proof. solve_decision. Defined.
Global Instance ResponseCompleteFn_eq_dec : EqDecision ResponseCompleteFn.
Proof. solve_decision. Defined.
Global Instance ReleaseFn_eq_dec : EqDecision ReleaseFn.
Proof. solve_decision. Defined.

(** [NullResponseAlloc]: whatever is asked for, the allocation fails. *)
Definition NullResponseAlloc (tensor_name : string) (byte_size : nat)
    (preferred_memory_type : TRITONSERVER_MemoryType)
    (preferred_memory_type_id : Z) : Status + Buffer :=
  inl (mkStatus INTERNAL
         "unexpected allocation for null request, no output should be requestd.").

Record ResponseFactory : Type := mkResponseFactory {
  allocator_ : option ResponseAllocator;
  alloc_userp_ : option N;
  response_fn_ : option ResponseCompleteFn;
  response_userp_ : option N
}.

Global Instance ResponseFactory_eq_dec : EqDecision ResponseFactory.
Proof. solve_decision. Defined.

Definition TRITONSERVER_REQUEST_RELEASE_ALL : Z := 1.
Definition TRITONSERVER_RESPONSE_COMPLETE_FINAL : Z := 1.

(** ** InferenceRequest *)

(** What an entry of [inputs_] points to: the node of [original_inputs_]
    with that key, or the override input registered under that key. *)
Inductive InputPtr : Type :=
  | PtrOriginal (name : string)
  | PtrOverride (name : string).

Global Instance InputPtr_eq_dec : EqDecision InputPtr.
Proof. solve_decision. Defined.

Record InferenceRequest : Type := mkRequest {
  backend_raw_ : InferenceBackend;
  requested_model_version_ : Z;
  needs_normalization_ : bool;
  batch_size_ : Z;
  collect_stats_ : bool;
  original_inputs_ : list (string * Input);
  override_inputs_ : gmap string Input;
  inputs_ : gmap string InputPtr;
  original_requested_outputs_ : gset string;
  requested_outputs_ : gset string;
  queue_start_ns_ : Z;
  request_start_ns_ : Z;
  response_factory_ : ResponseFactory;
  release_fn_ : option ReleaseFn;
  release_userp_ : option N;
  (* internal release callbacks, identified by a number, in registration
     order *)
  release_callbacks_ : list N
}.

(** [InferenceRequest(backend, requested_model_version)]. *)
Definition new_InferenceRequest (backend : InferenceBackend) (version : Z)
  : InferenceRequest :=
  {| backend_raw_ := backend; requested_model_version_ := version;
     needs_normalization_ := true; batch_size_ := 0; collect_stats_ := true;
     original_inputs_ := []; override_inputs_ := ∅; inputs_ := ∅;
     original_requested_outputs_ := ∅; requested_outputs_ := ∅;
     queue_start_ns_ := 0; request_start_ns_ := 0;
     response_factory_ := mkResponseFactory None None None None;
     release_fn_ := None; release_userp_ := None;
     release_callbacks_ := [] |}.

Definition ModelName (r : InferenceRequest) : string := Name (backend_raw_ r).

Definition OriginalInputs (r : InferenceRequest) := original_inputs_ r.
Definition OverrideInputs (r : InferenceRequest) := override_inputs_ r.
Definition ImmutableInputs (r : InferenceRequest) := inputs_ r.
Definition OriginalRequestedOutputs (r : InferenceRequest) :=
  original_requested_outputs_ r.

(** Modelled from the spec: the accessor [ImmutableRequestedOutputs] of
    infer_request.h (absent from the sources), "the effective set (=
    originals if non-empty, else all model outputs)"; the second case is the
    member [requested_outputs_] that [Normalize] fills. *)
Definition ImmutableRequestedOutputs (r : InferenceRequest) : gset string :=
  if bool_decide (original_requested_outputs_ r = ∅)
  then requested_outputs_ r
  else original_requested_outputs_ r.

Section setters.
Variable r : InferenceRequest.

Definition set_needs_normalization (b : bool) : InferenceRequest :=
  {| backend_raw_ := backend_raw_ r;
     requested_model_version_ := requested_model_version_ r;
     needs_normalization_ := b; batch_size_ := batch_size_ r;
     collect_stats_ := collect_stats_ r;
     original_inputs_ := original_inputs_ r;
     override_inputs_ := override_inputs_ r; inputs_ := inputs_ r;
     original_requested_outputs_ := original_requested_outputs_ r;
     requested_outputs_ := requested_outputs_ r;
     queue_start_ns_ := queue_start_ns_ r;
     request_start_ns_ := request_start_ns_ r;
     response_factory_ := response_factory_ r;
     release_fn_ := release_fn_ r; release_userp_ := release_userp_ r;
     release_callbacks_ := release_callbacks_ r |}.

Definition set_batch_size (b : Z) : InferenceRequest :=
  {| backend_raw_ := backend_raw_ r;
     requested_model_version_ := requested_model_version_ r;
     needs_normalization_ := needs_normalization_ r; batch_size_ := b;
     collect_stats_ := collect_stats_ r;
     original_inputs_ := original_inputs_ r;
     override_inputs_ := override_inputs_ r; inputs_ := inputs_ r;
     original_requested_outputs_ := original_requested_outputs_ r;
     requested_outputs_ := requested_outputs_ r;
     queue_start_ns_ := queue_start_ns_ r;
     request_start_ns_ := request_start_ns_ r;
     response_factory_ := response_factory_ r;
     release_fn_ := release_fn_ r; release_userp_ := release_userp_ r;
     release_callbacks_ := release_callbacks_ r |}.

Definition set_collect_stats (b : bool) : InferenceRequest :=
  {| backend_raw_ := backend_raw_ r;
     requested_model_version_ := requested_model_version_ r;
     needs_normalization_ := needs_normalization_ r;
     batch_size_ := batch_size_ r; collect_stats_ := b;
     original_inputs_ := original_inputs_ r;
     override_inputs_ := override_inputs_ r; inputs_ := inputs_ r;
     original_requested_outputs_ := original_requested_outputs_ r;
     requested_outputs_ := requested_outputs_ r;
     queue_start_ns_ := queue_start_ns_ r;
     request_start_ns_ := request_start_ns_ r;
     response_factory_ := response_factory_ r;
     release_fn_ := release_fn_ r; release_userp_ := release_userp_ r;
     release_callbacks_ := release_callbacks_ r |}.

Definition set_original_inputs (l : list (string * Input))
  : InferenceRequest :=
  {| backend_raw_ := backend_raw_ r;
     requested_model_version_ := requested_model_version_ r;
     needs_normalization_ := needs_normalization_ r;
     batch_size_ := batch_size_ r; collect_stats_ := collect_stats_ r;
     original_inputs_ := l;
     override_inputs_ := override_inputs_ r; inputs_ := inputs_ r;
     original_requested_outputs_ := original_requested_outputs_ r;
     requested_outputs_ := requested_outputs_ r;
     queue_start_ns_ := queue_start_ns_ r;
     request_start_ns_ := request_start_ns_ r;
     response_factory_ := response_factory_ r;
     release_fn_ := release_fn_ r; release_userp_ := release_userp_ r;
     release_callbacks_ := release_callbacks_ r |}.

Definition set_override_inputs (m : gmap string Input) : InferenceRequest :=
  {| backend_raw_ := backend_raw_ r;
     requested_model_version_ := requested_model_version_ r;
     needs_normalization_ := needs_normalization_ r;
     batch_size_ := batch_size_ r; collect_stats_ := collect_stats_ r;
     original_inputs_ := original_inputs_ r;
     override_inputs_ := m; inputs_ := inputs_ r;
     original_requested_outputs_ := original_requested_outputs_ r;
     requested_outputs_ := requested_outputs_ r;
     queue_start_ns_ := queue_start_ns_ r;
     request_start_ns_ := request_start_ns_ r;
     response_factory_ := response_factory_ r;
     release_fn_ := release_fn_ r; release_userp_ := release_userp_ r;
     release_callbacks_ := release_callbacks_ r |}.

Definition set_inputs (m : gmap string InputPtr) : InferenceRequest :=
  {| backend_raw_ := backend_raw_ r;
     requested_model_version_ := requested_model_version_ r;
     needs_normalization_ := needs_normalization_ r;
     batch_size_ := batch_size_ r; collect_stats_ := collect_stats_ r;
     original_inputs_ := original_inputs_ r;
     override_inputs_ := override_inputs_ r; inputs_ := m;
     original_requested_outputs_ := original_requested_outputs_ r;
     requested_outputs_ := requested_outputs_ r;
     queue_start_ns_ := queue_start_ns_ r;
     request_start_ns_ := request_start_ns_ r;
     response_factory_ := response_factory_ r;
     release_fn_ := release_fn_ r; release_userp_ := release_userp_ r;
     release_callbacks_ := release_callbacks_ r |}.

Definition set_original_requested_outputs (s : gset string)
  : InferenceRequest :=
  {| backend_raw_ := backend_raw_ r;
     requested_model_version_ := requested_model_version_ r;
     needs_normalization_ := needs_normalization_ r;
     batch_size_ := batch_size_ r; collect_stats_ := collect_stats_ r;
     original_inputs_ := original_inputs_ r;
     override_inputs_ := override_inputs_ r; inputs_ := inputs_ r;
     original_requested_outputs_ := s;
     requested_outputs_ := requested_outputs_ r;
     queue_start_ns_ := queue_start_ns_ r;
     request_start_ns_ := request_start_ns_ r;
     response_factory_ := response_factory_ r;
     release_fn_ := release_fn_ r; release_userp_ := release_userp_ r;
     release_callbacks_ := release_callbacks_ r |}.

Definition set_requested_outputs (s : gset string) : InferenceRequest :=
  {| backend_raw_ := backend_raw_ r;
     requested_model_version_ := requested_model_version_ r;
     needs_normalization_ := needs_normalization_ r;
     batch_size_ := batch_size_ r; collect_stats_ := collect_stats_ r;
     original_inputs_ := original_inputs_ r;
     override_inputs_ := override_inputs_ r; inputs_ := inputs_ r;
     original_requested_outputs_ := original_requested_outputs_ r;
     requested_outputs_ := s;
     queue_start_ns_ := queue_start_ns_ r;
     request_start_ns_ := request_start_ns_ r;
     response_factory_ := response_factory_ r;
     release_fn_ := release_fn_ r; release_userp_ := release_userp_ r;
     release_callbacks_ := release_callbacks_ r |}.

Definition set_queue_start_ns (t : Z) : InferenceRequest :=
  {| backend_raw_ := backend_raw_ r;
     requested_model_version_ := requested_model_version_ r;
     needs_normalization_ := needs_normalization_ r;
     batch_size_ := batch_size_ r; collect_stats_ := collect_stats_ r;
     original_inputs_ := original_inputs_ r;
     override_inputs_ := override_inputs_ r; inputs_ := inputs_ r;
     original_requested_outputs_ := original_requested_outputs_ r;
     requested_outputs_ := requested_outputs_ r;
     queue_start_ns_ := t;
     request_start_ns_ := request_start_ns_ r;
     response_factory_ := response_factory_ r;
     release_fn_ := release_fn_ r; release_userp_ := release_userp_ r;
     release_callbacks_ := release_callbacks_ r |}.

Definition set_request_start_ns (t : Z) : InferenceRequest :=
  {| backend_raw_ := backend_raw_ r;
     requested_model_version_ := requested_model_version_ r;
     needs_normalization_ := needs_normalization_ r;
     batch_size_ := batch_size_ r; collect_stats_ := collect_stats_ r;
     original_inputs_ := original_inputs_ r;
     override_inputs_ := override_inputs_ r; inputs_ := inputs_ r;
     original_requested_outputs_ := original_requested_outputs_ r;
     requested_outputs_ := requested_outputs_ r;
     queue_start_ns_ := queue_start_ns_ r;
     request_start_ns_ := t;
     response_factory_ := response_factory_ r;
     release_fn_ := release_fn_ r; release_userp_ := release_userp_ r;
     release_callbacks_ := release_callbacks_ r |}.

(** [SetResponseCallback]. *)
Definition SetResponseCallback (allocator : ResponseAllocator)
    (alloc_userp : option N) (response_fn : ResponseCompleteFn)
    (response_userp : option N) : InferenceRequest :=
  {| backend_raw_ := backend_raw_ r;
     requested_model_version_ := requested_model_version_ r;
     needs_normalization_ := needs_normalization_ r;
     batch_size_ := batch_size_ r; collect_stats_ := collect_stats_ r;
     original_inputs_ := original_inputs_ r;
     override_inputs_ := override_inputs_ r; inputs_ := inputs_ r;
     original_requested_outputs_ := original_requested_outputs_ r;
     requested_outputs_ := requested_outputs_ r;
     queue_start_ns_ := queue_start_ns_ r;
     request_start_ns_ := request_start_ns_ r;
     response_factory_ :=
       mkResponseFactory (Some allocator) alloc_userp (Some response_fn)
                         response_userp;
     release_fn_ := release_fn_ r; release_userp_ := release_userp_ r;
     release_callbacks_ := release_callbacks_ r |}.

(** [SetReleaseCallback]. *)
Definition SetReleaseCallback (release_fn : ReleaseFn)
    (release_userp : option N) : InferenceRequest :=
  {| backend_raw_ := backend_raw_ r;
     requested_model_version_ := requested_model_version_ r;
     needs_normalization_ := needs_normalization_ r;
     batch_size_ := batch_size_ r; collect_stats_ := collect_stats_ r;
     original_inputs_ := original_inputs_ r;
     override_inputs_ := override_inputs_ r; inputs_ := inputs_ r;
     original_requested_outputs_ := original_requested_outputs_ r;
     requested_outputs_ := requested_outputs_ r;
     queue_start_ns_ := queue_start_ns_ r;
     request_start_ns_ := request_start_ns_ r;
     response_factory_ := response_factory_ r;
     release_fn_ := Some release_fn; release_userp_ := release_userp;
     release_callbacks_ := release_callbacks_ r |}.

Definition set_release_callbacks (l : list N) : InferenceRequest :=
  {| backend_raw_ := backend_raw_ r;
     requested_model_version_ := requested_model_version_ r;
     needs_normalization_ := needs_normalization_ r;
     batch_size_ := batch_size_ r; collect_stats_ := collect_stats_ r;
     original_inputs_ := original_inputs_ r;
     override_inputs_ := override_inputs_ r; inputs_ := inputs_ r;
     original_requested_outputs_ := original_requested_outputs_ r;
     requested_outputs_ := requested_outputs_ r;
     queue_start_ns_ := queue_start_ns_ r;
     request_start_ns_ := request_start_ns_ r;
     response_factory_ := response_factory_ r;
     release_fn_ := release_fn_ r; release_userp_ := release_userp_ r;
     release_callbacks_ := l |}.
End setters.

(** ** Helpers declared outside of the sources *)

(** The string helpers of model_config_utils.h that only build error
    messages, taken as parameters. *)
Class Formatting : Type := {
  DataTypeToProtocolString : DataType → string;
  DimsListToString : list Z → string
}.

(** The compile-time options. *)
Class BuildOptions : Type := {
  TRITON_ENABLE_STATS : bool
}.

(** [std::to_string]. *)
Definition to_string (z : Z) : string := pretty z.

(** Modelled from the spec: [CompareDimsWithWildcard] on a model shape and a
    request shape (model_config_utils.cc is absent from the sources; the
    overload of plan_utils.cc has the same body): "dimensions are compatible
    iff both sides equal or either side is the wildcard sentinel". *)
Definition CompareDimsWithWildcard (model_dims dims : list Z) : bool :=
  if bool_decide (length model_dims ≠ length dims) then false
  else
    forallb
      (fun i : nat =>
         negb (bool_decide (model_dims !!! i ≠ WILDCARD_DIM)
               && bool_decide (dims !!! i ≠ WILDCARD_DIM)
               && bool_decide (model_dims !!! i ≠ dims !!! i)))
      (seq 0 (length model_dims)).

(** ** Building a request *)

Definition has_input (name : string) (l : list (string * Input)) : bool :=
  bool_decide (name ∈ l.*1).

(** [AddOriginalInput]; a new entry goes to the end of the iteration
    order. *)
Definition AddOriginalInput (r : InferenceRequest) (name : string)
    (datatype : DataType) (shape : list Z) : Status * InferenceRequest :=
  if has_input name (original_inputs_ r)
  then (mkStatus INVALID_ARG
          ("input '" +:+ name +:+ "' already exists in request"), r)
  else
    (Success,
     set_needs_normalization
       (set_original_inputs r
          (original_inputs_ r ++ [(name, new_Input name datatype shape)]))
       true).

(** [RemoveOriginalInput]. *)
Definition RemoveOriginalInput (r : InferenceRequest) (name : string)
  : Status * InferenceRequest :=
  if has_input name (original_inputs_ r)
  then (Success,
        set_needs_normalization
          (set_original_inputs r
             (filter (fun pr => pr.1 ≠ name) (original_inputs_ r)))
          true)
  else (mkStatus INVALID_ARG
          ("input '" +:+ name +:+ "' does not exist in request"), r).

(** [AddOverrideInput(input)]: adds or replaces the override, in
    [override_inputs_] and in [inputs_]. *)
Definition AddOverrideInput (r : InferenceRequest) (input : Input)
  : Status * InferenceRequest :=
  (Success,
   set_inputs
     (set_override_inputs r (<[name_ input := input]> (override_inputs_ r)))
     (<[name_ input := PtrOverride (name_ input)]> (inputs_ r))).

(** [AddOriginalRequestedOutput]. *)
Definition AddOriginalRequestedOutput (r : InferenceRequest) (name : string)
  : Status * InferenceRequest :=
  (Success,
   set_needs_normalization
     (set_original_requested_outputs r
        (original_requested_outputs_ r ∪ {[name]}))
     true).

(** ** Normalize *)

(** [for (auto& pr : original_inputs_) { ... }] where the body may return an
    error: the entries before the failing one are updated, the failing one
    and the ones after it are left as they were. *)
Fixpoint for_each_input {S : Type}
    (body : S → string → Input → Status + S * Input)
    (s : S) (l : list (string * Input))
  : Status * S * list (string * Input) :=
  match l with
  | [] => (Success, s, [])
  | (k, input) :: rest =>
      match body s k input with
      | inl err => (err, s, l)
      | inr (s', input') =>
          let '(st, s'', rest') := for_each_input body s' rest in
          (st, s'', (k, input') :: rest')
      end
  end.

(** The loop over [original_requested_outputs_] that checks each name with
    [GetOutput]. *)
Fixpoint validate_requested_outputs (b : InferenceBackend)
    (names : list string) : Status :=
  match names with
  | [] => Success
  | output_name :: rest =>
      match GetOutput b output_name with
      | inl err => err
      | inr _ => validate_requested_outputs b rest
      end
  end.

(** The values of [shape] at the positions where [dims] is -1: the deque
    [variable_size_values], filled by [push_back]. *)
Definition variable_size_values (dims shape : list Z) : list Z :=
  fold_left
    (fun deque (idx : nat) =>
       if bool_decide (dims !!! idx = -1)
       then deque ++ [shape !!! idx]
       else deque)
    (seq 0 (length dims)) [].

(** The loop over [reshape().shape()] that rebuilds [shape]: a -1 takes the
    front of the deque and pops it.  [front()] of an empty deque is
    undefined in the source and reads 0 here; model configurations are
    validated when they are loaded to have as many -1 in the reshape as in
    the dims. *)
Definition reshape_shape (reshape deque : list Z) : list Z :=
  (fold_left
     (fun (st : list Z * list Z) (dim : Z) =>
        if bool_decide (dim = -1)
        then (tail st.1, st.2 ++ [hd 0 st.1])
        else (st.1, st.2 ++ [dim]))
     reshape (deque, [])).2.

Section normalize.
Context {Fmt : Formatting}.

(** The body of the loop that determines the batch size, for a model that
    supports batching; the state is [batch_size_].  [backend] is
    [backend_raw_], whose name is [ModelName()]. *)
Definition batch_body (backend : InferenceBackend) (batch_size : Z)
    (k : string) (input : Input) : Status + Z * Input :=
  match GetInput backend k with
  | inl err => inl err
  | inr input_config =>
      if mi_is_shape_tensor input_config
      then inr (batch_size,
                SetIsShapeTensor
                  (set_Shape input (original_shape_ input)) true)
      else if bool_decide (length (original_shape_ input) = 0%nat)
      then inl (mkStatus INVALID_ARG
                  ("input '" +:+ name_ input
                     +:+ "' has no shape but model requires batch dimension for '"
                     +:+ Name backend +:+ "'"))
      else if bool_decide (batch_size = 0)
      then inr (to_uint32 (original_shape_ input !!! 0%nat),
                set_Shape input (drop 1 (original_shape_ input)))
      else if bool_decide (original_shape_ input !!! 0%nat ≠ batch_size)
      then inl (mkStatus INVALID_ARG
                  ("input '" +:+ name_ input
                     +:+ "' batch size does not match other inputs for '"
                     +:+ Name backend +:+ "'"))
      else inr (batch_size,
                set_Shape input (drop 1 (original_shape_ input)))
  end.

(** The body of the loop that checks every input against the model and
    applies the reshape; [batch_size_] is only read. *)
Definition check_body (backend : InferenceBackend) (batch_size : Z)
    (k : string) (input : Input) : Status + Z * Input :=
  match GetInput backend k with
  | inl err => inl err
  | inr input_config =>
      if bool_decide (datatype_ input ≠ mi_data_type input_config)
      then inl (mkStatus INVALID_ARG
                  ("inference input data-type is '"
                     +:+ DataTypeToProtocolString (datatype_ input)
                     +:+ "', model expects '"
                     +:+ DataTypeToProtocolString (mi_data_type input_config)
                     +:+ "' for '" +:+ Name backend +:+ "'"))
      else if negb (CompareDimsWithWildcard (mi_dims input_config)
                                             (shape_ input))
      then
        let full_dims :=
          (if bool_decide (mc_max_batch_size (config_ backend) > 0)
           then [WILDCARD_DIM] else [])
          ++ mi_dims input_config in
        inl (mkStatus INVALID_ARG
               ("unexpected shape for input '" +:+ k +:+ "' for model '"
                  +:+ Name backend +:+ "'. Expected "
                  +:+ DimsListToString full_dims +:+ ", got "
                  +:+ DimsListToString (original_shape_ input)))
      else
        let input :=
          match mi_reshape input_config with
          | Some reshape =>
              set_Shape input
                (reshape_shape reshape
                   (variable_size_values (mi_dims input_config)
                                         (shape_ input)))
          | None => input
          end in
        inr (batch_size,
             if bool_decide (batch_size = 0)
             then set_ShapeWithBatchDim input (shape_ input)
             else set_ShapeWithBatchDim input (batch_size :: shape_ input))
  end.

(** The first part of [Normalize]: the requested outputs. *)
Definition normalize_outputs (r : InferenceRequest)
  : Status * InferenceRequest :=
  let r := set_requested_outputs r ∅ in
  if bool_decide (size (original_requested_outputs_ r) = 0%nat)
  then
    (Success,
     set_requested_outputs r
       (fold_left (fun s output => s ∪ {[mo_name output]})
                  (mc_output (config_ (backend_raw_ r))) ∅))
  else
    (validate_requested_outputs (backend_raw_ r)
       (elements (original_requested_outputs_ r)), r).

(** The part of [Normalize] that determines the batch size and the shape
    of each input: the status, [batch_size_] and the inputs. *)
Definition batch_phase (backend : InferenceBackend)
    (l : list (string * Input)) : Status * Z * list (string * Input) :=
  if bool_decide (mc_max_batch_size (config_ backend) = 0)
  then
    (Success, 0,
     prod_map id (fun input => set_Shape input (original_shape_ input))
       <$> l)
  else for_each_input (batch_body backend) 0 l.

Definition normalize_batch (r : InferenceRequest)
  : Status * InferenceRequest :=
  let '(st, batch_size, l) :=
    batch_phase (backend_raw_ r) (original_inputs_ r) in
  (st, set_original_inputs (set_batch_size r batch_size) l).

(** The last part of [Normalize]: the check of every input. *)
Definition normalize_inputs (r : InferenceRequest)
  : Status * InferenceRequest :=
  let '(st, _, l) :=
    for_each_input (check_body (backend_raw_ r)) (batch_size_ r)
                   (original_inputs_ r) in
  (st, set_original_inputs r l).

Definition Normalize (r : InferenceRequest) : Status * InferenceRequest :=
  let model_config := config_ (backend_raw_ r) in
  let '(st, r) := normalize_outputs r in
  if negb (IsOk st) then (st, r)
  else if bool_decide (length (original_inputs_ r)
                         ≠ length (mc_input model_config))
  then (mkStatus INVALID_ARG
          ("expected "
             +:+ to_string (Z.of_nat (length (mc_input model_config)))
             +:+ " inputs but got "
             +:+ to_string (Z.of_nat (length (original_inputs_ r)))
             +:+ " inputs for model '" +:+ ModelName r +:+ "'"), r)
  else
    let '(st, r) := normalize_batch r in
    if negb (IsOk st) then (st, r)
    else if bool_decide (uint32_to_int (batch_size_ r)
                           > mc_max_batch_size model_config)
    then (mkStatus INVALID_ARG
            ("inference request batch-size must be <= "
               +:+ to_string (mc_max_batch_size model_config)
               +:+ " for '" +:+ ModelName r +:+ "'"), r)
    else normalize_inputs r.

(** The members that [Normalize] computes, as a function of the members
    that it reads. *)
Definition normalize_parts (bk : InferenceBackend) (oro : gset string)
    (b : Z) (l : list (string * Input))
  : Status * gset string * Z * list (string * Input) :=
  let outputs :=
    if bool_decide (size oro = 0%nat)
    then fold_left (fun s output => s ∪ {[mo_name output]})
                   (mc_output (config_ bk)) ∅
    else ∅ in
  let st :=
    if bool_decide (size oro = 0%nat) then Success
    else validate_requested_outputs bk (elements oro) in
  if negb (IsOk st) then (st, outputs, b, l)
  else if bool_decide (length l ≠ length (mc_input (config_ bk)))
  then (mkStatus INVALID_ARG
          ("expected "
             +:+ to_string (Z.of_nat (length (mc_input (config_ bk))))
             +:+ " inputs but got "
             +:+ to_string (Z.of_nat (length l))
             +:+ " inputs for model '" +:+ Name bk +:+ "'"),
        outputs, b, l)
  else
    let '(st, b, l) := batch_phase bk l in
    if negb (IsOk st) then (st, outputs, b, l)
    else if bool_decide (uint32_to_int b > mc_max_batch_size (config_ bk))
    then (mkStatus INVALID_ARG
            ("inference request batch-size must be <= "
               +:+ to_string (mc_max_batch_size (config_ bk))
               +:+ " for '" +:+ Name bk +:+ "'"),
          outputs, b, l)
    else
      let '(st, _, l) := for_each_input (check_body bk) b l in
      (st, outputs, b, l).

(** ** PrepareForInference *)

Context {Options : BuildOptions}.

(** [inputs_.emplace(pr.first, &pr.second)] for every original input. *)
Definition emplace_original_inputs (l : list (string * Input))
    (m : gmap string InputPtr) : gmap string InputPtr :=
  fold_left (fun m pr => map_insert_new pr.1 (PtrOriginal pr.1) m) l m.

(** [inputs_.clear(); override_inputs_.clear();] *)
Definition clear_inputs (r : InferenceRequest) : InferenceRequest :=
  set_override_inputs (set_inputs r ∅) ∅.

Definition PrepareForInference (r : InferenceRequest)
  : Status * InferenceRequest :=
  let r := clear_inputs r in
  let '(st, r) :=
    if needs_normalization_ r
    then
      let '(st, r) := Normalize r in
      if negb (IsOk st) then (st, r)
      else (Success, set_needs_normalization r false)
    else (Success, r) in
  if negb (IsOk st) then (st, r)
  else
    let r :=
      set_inputs r (emplace_original_inputs (original_inputs_ r)
                                            (inputs_ r)) in
    let r := set_queue_start_ns r 0 in
    let r := if TRITON_ENABLE_STATS then set_request_start_ns r 0 else r in
    (Success, r).
End normalize.

(** ** Responses and release *)

(** Modelled from the spec: [InferenceResponse] and
    [InferenceResponseFactory::CreateResponse] of infer_response.cc (absent
    from the sources): a response is constructed from the request's
    response factory, it has a list of outputs and a status. *)
Record InferenceResponse : Type := mkResponse {
  resp_factory : ResponseFactory;
  resp_outputs : list string;
  resp_status : Status
}.

Definition CreateResponse (f : ResponseFactory) : InferenceResponse :=
  {| resp_factory := f; resp_outputs := []; resp_status := Success |}.

(** What the callbacks of a request observe, in the order of the calls. *)
Inductive Event : Type :=
  (* an internal release callback of [release_callbacks_] ran *)
  | EvReleaseCallback (id : N)
  (* the response-complete callback of the factory received a response *)
  | EvResponseComplete (response : InferenceResponse) (flags : Z)
  (* [release_fn_(request, flags, userp)] *)
  | EvRelease (release_fn : option ReleaseFn) (request : InferenceRequest)
              (flags : Z) (userp : option N)
  (* the completion function of a scheduled payload *)
  | EvOnCompletion.

(** Modelled from the spec: [InferenceResponse::SendWithStatus] of
    infer_response.cc (absent from the sources): attach [status] and
    "invoke the response-complete callback with a FINAL flag". *)
Definition SendWithStatus (response : InferenceResponse) (status : Status)
  : list Event :=
  [EvResponseComplete
     {| resp_factory := resp_factory response;
        resp_outputs := resp_outputs response;
        resp_status := status |}
     TRITONSERVER_RESPONSE_COMPLETE_FINAL].

(** [InferenceRequest::Release], built without TRITON_ENABLE_TRACING: the
    internal callbacks from the last registered to the first, then the list
    is cleared, then the release function of the user receives the
    request. *)
Definition Release (request : InferenceRequest) (release_flags : Z)
  : list Event :=
  let calls := EvReleaseCallback <$> reverse (release_callbacks_ request) in
  let request := set_release_callbacks request [] in
  let userp := release_userp_ request in
  calls ++ [EvRelease (release_fn_ request) request release_flags userp].

(** [InferenceRequest::RespondIfError] for one request. *)
Definition RespondIfError (request : InferenceRequest) (status : Status)
    (release_request : bool) : list Event :=
  if IsOk status then []
  else
    let response := CreateResponse (response_factory_ request) in
    SendWithStatus response status
    ++ (if release_request
        then Release request TRITONSERVER_REQUEST_RELEASE_ALL
        else []).


(** ** TritonModelInstance *)

(** Modelled from the spec: the error codes of a [TRITONSERVER_Error] and
    [TritonCodeToStatusCode] (tritonserver.h and status.cc are absent from
    the sources): the error kinds of the error-handling section, which a
    status carries verbatim. *)
Inductive TRITONSERVER_Error_Code : Type :=
  | TRITONSERVER_ERROR_INVALID_ARG
  | TRITONSERVER_ERROR_INTERNAL
  | TRITONSERVER_ERROR_UNAVAILABLE
  | TRITONSERVER_ERROR_UNSUPPORTED.

Record TRITONSERVER_Error : Type := mkError {
  TRITONSERVER_ErrorCode : TRITONSERVER_Error_Code;
  TRITONSERVER_ErrorMessage : string
}.

Definition TritonCodeToStatusCode (c : TRITONSERVER_Error_Code) : Code :=
  match c with
  | TRITONSERVER_ERROR_INVALID_ARG => INVALID_ARG
  | TRITONSERVER_ERROR_INTERNAL => INTERNAL
  | TRITONSERVER_ERROR_UNAVAILABLE => UNAVAILABLE
  | TRITONSERVER_ERROR_UNSUPPORTED => UNSUPPORTED
  end.

(** One warmup sample: its name, its requests and the buffers behind
    them. *)
Record WarmupData : Type := mkWarmupData {
  sample_name_ : string;
  requests_ : list InferenceRequest;
  zero_data_ : option Memory;
  random_data_ : option Memory;
  provided_data_ : list string
}.

(** The instance as the execution path reads it: the exec hook of the
    backend (a null result is success), the status of [InitializeFunc]
    (defined outside of the sources), and the warmup samples. *)
Record TritonModelInstance : Type := mkInstance {
  inst_exec_fn : list InferenceRequest → option TRITONSERVER_Error;
  InitializeFunc : Status;
  warmup_samples_ : list WarmupData
}.

(** [TritonModelInstance::Execute]: the events that the instance itself
    causes. *)
Definition Execute (inst : TritonModelInstance)
    (triton_requests : list InferenceRequest) : list Event :=
  match inst_exec_fn inst triton_requests with
  | Some err =>
      let status :=
        mkStatus (TritonCodeToStatusCode (TRITONSERVER_ErrorCode err))
                 (TRITONSERVER_ErrorMessage err) in
      concat ((fun tr => RespondIfError tr status true) <$> triton_requests)
  | None => []
  end.

(** [TritonModelInstance::ScheduleFunc]. *)
Definition ScheduleFunc (inst : TritonModelInstance)
    (requests : list InferenceRequest) : list Event :=
  Execute inst requests ++ [EvOnCompletion].

Section warmup_run.
Context {Options : BuildOptions}.

(** The loop of [WarmUpFunc] that hands the requests of a sample over: the
    first one carries the promise, every one gets its timestamps. *)
Fixpoint warmup_requests (now : Z) (promise : N) (first_sample : bool)
    (requests : list InferenceRequest) : list InferenceRequest :=
  match requests with
  | [] => []
  | request :: rest =>
      let request :=
        SetReleaseCallback request WarmupRequestComplete
          (if first_sample then Some promise else None) in
      let request :=
        if TRITON_ENABLE_STATS then set_request_start_ns request now
        else request in
      let request := set_queue_start_ns request now in
      request :: warmup_requests now promise false rest
  end.

(** [TritonModelInstance::WarmUpFunc], at time [now]; the wait for the
    promise of each sample is not represented. *)
Definition WarmUpFunc (inst : TritonModelInstance) (now : Z)
  : Status * list Event :=
  (Success,
   concat ((fun sample =>
              Execute inst
                (warmup_requests now 0%N true (requests_ sample)))
             <$> warmup_samples_ inst)).
End warmup_run.

(** *** TritonBackendThread::Payload *)

Inductive Operation : Type :=
  | INFER_RUN
  | INIT
  | WARM_UP
  | EXIT.

Record Payload : Type := mkPayload {
  op_type_ : Operation;
  instance_ : TritonModelInstance;
  payload_requests_ : list InferenceRequest
}.

(** What [Payload::Execute] leaves behind: [*should_exit], the value given
    to the promise [status_] (the result of [Wait()]), and the events. *)
Record PayloadResult : Type := mkPayloadResult {
  should_exit : bool;
  status_ : Status;
  events : list Event
}.

(** [TritonBackendThread::Payload::Execute]; a default-constructed
    [Status] is success. *)
Definition Payload_Execute {Options : BuildOptions} (p : Payload) (now : Z)
  : PayloadResult :=
  let status := Success in
  match op_type_ p with
  | INFER_RUN =>
      mkPayloadResult false status
        (ScheduleFunc (instance_ p) (payload_requests_ p))
  | INIT => mkPayloadResult false (InitializeFunc (instance_ p)) []
  | WARM_UP =>
      let '(status, evs) := WarmUpFunc (instance_ p) now in
      mkPayloadResult false status evs
  | EXIT => mkPayloadResult true status []
  end.

(** ** CopyAsNull *)

(** A write through the pointer that [AddOriginalInput] returned: the entry
    of [original_inputs_] with key [k]. *)
Definition update_original_input (r : InferenceRequest) (k : string)
    (f : Input → Input) : InferenceRequest :=
  set_original_inputs r
    ((fun pr : string * Input =>
        if bool_decide (pr.1 = k) then (pr.1, f pr.2) else pr)
       <$> original_inputs_ r).

(** [AddOriginalInput] followed by the two assignments under "Must
    normalize shape here". *)
Definition add_null_input (lrequest : InferenceRequest) (k : string)
    (input : Input) : InferenceRequest :=
  let lrequest :=
    (AddOriginalInput lrequest k (datatype_ input) (shape_ input)).2 in
  update_original_input lrequest k
    (fun new_input =>
       set_ShapeWithBatchDim
         (set_Shape new_input (original_shape_ new_input))
         (original_shape_ new_input)).

(** First pass: the body of the loop, for the shape tensors. *)
Definition copy_shape_tensor (st : InferenceRequest * Heap)
    (pr : string * Input) : InferenceRequest * Heap :=
  let '(lrequest, h) := st in
  let '(k, input) := pr in
  if negb (is_shape_tensor_ input) then st
  else
    let byte_size := TotalByteSize (data_ input) in
    let '(data, h) :=
      new_AllocatedMemory h byte_size TRITONSERVER_MEMORY_CPU 0 in
    let from_data := BufferAt (data_ input) 0 in
    let from_data_byte_size := from_option buf_byte_size 0%nat from_data in
    let h :=
      match data with
      | AllocatedMemory block _ _ _ =>
          memcpy h block (buf_base <$> from_data) from_data_byte_size
      | MemoryReference _ => h
      end in
    let lrequest := add_null_input lrequest k input in
    (update_original_input lrequest k
       (fun new_input => (SetData new_input data).2),
     h).

(** Second pass: the body of the loop; the state is [max_byte_size] and
    [max_input_name], which is not initialised at first. *)
Definition max_input (st : nat * option string) (pr : string * Input)
  : nat * option string :=
  let '(k, input) := pr in
  if is_shape_tensor_ input then st
  else if bool_decide (st.1 ≤ TotalByteSize (data_ input))%nat
  then (TotalByteSize (data_ input), Some k)
  else st.

(** Third pass: the body of the loop, for the other inputs. *)
Definition add_padding_input (data : Memory) (data_base : Ptr)
    (mem_type : TRITONSERVER_MemoryType) (mem_id : Z)
    (max_input_name : option string)
    (lrequest : InferenceRequest) (pr : string * Input) : InferenceRequest :=
  let '(k, input) := pr in
  if is_shape_tensor_ input then lrequest
  else
    let lrequest := add_null_input lrequest k input in
    if bool_decide (Some k = max_input_name)
    then update_original_input lrequest k
           (fun new_input => (SetData new_input data).2)
    else update_original_input lrequest k
           (fun new_input =>
              AppendData new_input data_base
                (TotalByteSize (data_ input)) mem_type mem_id).

Definition CopyAsNull (from : InferenceRequest) (h : Heap)
  : InferenceRequest * Heap :=
  let lrequest :=
    new_InferenceRequest (backend_raw_ from) (requested_model_version_ from) in
  let lrequest := set_needs_normalization lrequest false in
  let lrequest := set_batch_size lrequest (batch_size_ from) in
  let lrequest := set_collect_stats lrequest false in
  (* first pass *)
  let '(lrequest, h) :=
    fold_left copy_shape_tensor (OriginalInputs from) (lrequest, h) in
  (* second pass *)
  let '(max_byte_size, max_input_name) :=
    fold_left max_input (OriginalInputs from) (0%nat, None) in
  (* third pass *)
  let '(data, h) :=
    new_AllocatedMemory h max_byte_size TRITONSERVER_MEMORY_CPU 0 in
  let data_base :=
    from_option buf_base (mkPtr 0 0) (BufferAt data 0) in
  let mem_type :=
    from_option buf_memory_type TRITONSERVER_MEMORY_CPU (BufferAt data 0) in
  let mem_id := from_option buf_memory_type_id 0 (BufferAt data 0) in
  let lrequest :=
    fold_left (add_padding_input data data_base mem_type mem_id
                 max_input_name)
              (OriginalInputs from) lrequest in
  let lrequest :=
    SetResponseCallback lrequest null_allocator None NullResponseComplete
                        None in
  let lrequest := SetReleaseCallback lrequest NullRequestComplete None in
  let lrequest :=
    set_inputs lrequest
      (emplace_original_inputs (original_inputs_ lrequest)
                               (inputs_ lrequest)) in
  (lrequest, h).

(** ** GenerateWarmupData *)

(** The helpers of model_config_utils.h and filesystem.h that the warmup
    code calls, taken as parameters: the element count of a shape (-1 when
    a dimension is variable), the byte size of a data type (a [size_t], 0
    for strings) and the content of a warmup data file; and what the
    overload of [AddOverrideInput] with a batch size makes of the shape
    with batch dimension. *)
Class WarmupHelpers : Type := {
  GetElementCount : list Z → Z;
  GetDataTypeByteSize : DataType → Z;
  ReadTextFile : string → Status + string;
  OverrideShapeWithBatchDim : Z → list Z → list Z
}.

Inductive InputDataTypeCase : Type :=
  | kZeroData
  | kRandomData
  | kInputDataFile (input_data_file : string)
  | INPUT_DATA_TYPE_NOT_SET.

Record ModelWarmup_Input : Type := mkWarmupInput {
  wi_data_type : DataType;
  wi_dims : list Z;
  wi_input_data_type_case : InputDataTypeCase
}.

Record ModelWarmup : Type := mkModelWarmup {
  mw_name : string;
  mw_batch_size : Z;
  (* a protobuf map, in iteration order *)
  mw_inputs : list (string * ModelWarmup_Input)
}.

(** The value of an [int64_t] that receives a product computed in
    [size_t]. *)
Definition to_int64 (z : Z) : Z := (z + 2 ^ 63) mod 2 ^ 64 - 2 ^ 63.

(** Conversion to [size_t]. *)
Definition to_size_t (z : Z) : Z := z mod 2 ^ 64.

Definition sizeof_int32_t : Z := 4.

Section warmup.
Context {Helpers : WarmupHelpers}.

(** [batch_byte_size] of one input, as both passes compute it. *)
Definition warmup_batch_byte_size (input_meta : ModelWarmup_Input) : Z :=
  let element_count := GetElementCount (wi_dims input_meta) in
  let batch_byte_size :=
    to_int64 (element_count
              * GetDataTypeByteSize (wi_data_type input_meta)) in
  if bool_decide (batch_byte_size = 0)
  then to_int64 (element_count * sizeof_int32_t)
  else batch_byte_size.

(** First pass over the inputs of a warmup setting; the state is
    [max_zero_byte_size] and [max_random_byte_size]. *)
Fixpoint warmup_max_byte_sizes (inputs : list (string * ModelWarmup_Input))
    (max_zero_byte_size max_random_byte_size : Z) : Status + Z * Z :=
  match inputs with
  | [] => inr (max_zero_byte_size, max_random_byte_size)
  | (name, input_meta) :: rest =>
      if bool_decide (GetElementCount (wi_dims input_meta) = -1)
      then inl (mkStatus INVALID_ARG
                  ("warmup setting expects all variable-size dimensions are specified for input '"
                     +:+ name +:+ "'"))
      else
        let batch_byte_size := warmup_batch_byte_size input_meta in
        match wi_input_data_type_case input_meta with
        | kZeroData =>
            warmup_max_byte_sizes rest
              (Z.max batch_byte_size max_zero_byte_size)
              max_random_byte_size
        | kRandomData =>
            if bool_decide (wi_data_type input_meta = TYPE_STRING)
            then warmup_max_byte_sizes rest
                   (Z.max batch_byte_size max_zero_byte_size)
                   max_random_byte_size
            else warmup_max_byte_sizes rest max_zero_byte_size
                   (Z.max batch_byte_size max_random_byte_size)
        | _ =>
            warmup_max_byte_sizes rest max_zero_byte_size
                                  max_random_byte_size
        end
  end.

(** The buffers for synthetic data: [zero_data_], filled by [memset], and
    [random_data_], filled with the values of [rand()]. *)
Definition warmup_buffers (h : Heap) (rand : nat → Byte.byte)
    (max_zero_byte_size max_random_byte_size : Z)
  : Memory * Memory * Heap :=
  let '(zero_data, h) :=
    new_AllocatedMemory h (Z.to_nat max_zero_byte_size)
                        TRITONSERVER_MEMORY_CPU_PINNED 0 in
  let h :=
    match zero_data with
    | AllocatedMemory zero_buffer _ _ _ =>
        memset0 h zero_buffer (Z.to_nat max_zero_byte_size)
    | MemoryReference _ => h
    end in
  let '(random_data, h) :=
    new_AllocatedMemory h (Z.to_nat max_random_byte_size)
                        TRITONSERVER_MEMORY_CPU_PINNED 0 in
  let h :=
    match random_data with
    | AllocatedMemory random_buffer _ _ _ =>
        <[random_buffer :=
            (fun offset => Some (rand offset))
              <$> seq 0 (Z.to_nat max_random_byte_size)]> h
    | MemoryReference _ => h
    end in
  (zero_data, random_data, h).

(** [MutableBuffer()] of an allocation. *)
Definition MutableBuffer (m : Memory) : Ptr :=
  match m with
  | AllocatedMemory block _ _ _ => mkPtr block 0
  | MemoryReference _ => mkPtr 0 0
  end.

(** [batch_byte_size] of one input in the second pass, where it is
    declared [auto] and takes the type of a product with a [size_t]: an
    unsigned 64-bit value. *)
Definition warmup_request_byte_size (input_meta : ModelWarmup_Input) : Z :=
  let batch1_element_count := GetElementCount (wi_dims input_meta) in
  let batch_byte_size :=
    to_size_t (batch1_element_count
               * GetDataTypeByteSize (wi_data_type input_meta)) in
  if bool_decide (batch_byte_size = 0)
  then to_size_t (batch1_element_count * sizeof_int32_t)
  else batch_byte_size.

(** Second pass, for one input: [allocated_ptr], [batch_byte_size] and
    [provided_data_].  The content of a data file is kept in
    [provided_data_], in a block of its own. *)
Definition warmup_input_source (h : Heap) (provided_data : list string)
    (zero_buffer random_buffer : Ptr)
    (name : string) (input_meta : ModelWarmup_Input)
  : Status + Ptr * Z * list string * Heap :=
  let batch_byte_size := warmup_request_byte_size input_meta in
  match wi_input_data_type_case input_meta with
  | kZeroData => inr (zero_buffer, batch_byte_size, provided_data, h)
  | kRandomData =>
      if bool_decide (wi_data_type input_meta = TYPE_STRING)
      then inr (zero_buffer, batch_byte_size, provided_data, h)
      else inr (random_buffer, batch_byte_size, provided_data, h)
  | kInputDataFile input_data_file =>
      match ReadTextFile input_data_file with
      | inl err => inl err
      | inr input_data =>
          let block := fresh (dom h) in
          let h' :=
            <[block := (fun b => Some b)
                         <$> String.list_byte_of_string input_data]> h in
          let provided_data := provided_data ++ [input_data] in
          let size := Z.of_nat (String.length input_data) in
          if bool_decide (wi_data_type input_meta = TYPE_STRING)
          then inr (mkPtr block 0, size, provided_data, h')
          else if bool_decide (batch_byte_size > size)
          then inl (mkStatus INVALID_ARG
                      ("warmup setting expects " +:+ to_string batch_byte_size
                         +:+ " bytes, but the data provided from "
                         +:+ input_data_file +:+ "only has "
                         +:+ to_string size +:+ " bytes"))
          else inr (mkPtr block 0, batch_byte_size, provided_data, h')
      end
  | INPUT_DATA_TYPE_NOT_SET =>
      inl (mkStatus INVALID_ARG
             ("warmup setting expects input '" +:+ name
                +:+ "' to have input_data_type set"))
  end.
End warmup.

(** A loop whose body may return an error, which ends the function:
    [GenerateWarmupData] is called by [CreateInstance], which discards the
    instance when it fails, so that only the status of a failure is
    kept. *)
Fixpoint for_each_or_error {A S : Type} (body : S → A → Status + S)
    (l : list A) (s : S) : Status + S :=
  match l with
  | [] => inr s
  | x :: rest =>
      match body s x with
      | inl err => inl err
      | inr s => for_each_or_error body rest s
      end
  end.

(** A write through the pointer of a shared override input: the entry of
    [override_inputs_] with key [k]. *)
Definition update_override_input (r : InferenceRequest) (k : string)
    (f : Input → Input) : InferenceRequest :=
  set_override_inputs r (alter f k (override_inputs_ r)).

Section generate_warmup_data.
Context {Fmt : Formatting} {Options : BuildOptions} {Helpers : WarmupHelpers}.

(** Modelled from the spec: the overload [AddOverrideInput(name, datatype,
    batch_size, shape, &input)] that the warmup code calls.  It is absent
    from the sources, where infer_request.cc has the overload without
    [batch_size]; the spec has "add_override_input(name, dtype, batch_dim,
    shape) → shared Input — replaces any existing override with the same
    name; immediately inserts into ImmutableInputs".  The input is built
    and registered as the overload of the sources does it; its shape with
    batch dimension, which the spec does not describe, is the parameter
    [OverrideShapeWithBatchDim]. *)
Definition AddOverrideInput_batch (r : InferenceRequest) (name : string)
    (datatype : DataType) (batch_size : Z) (shape : list Z)
  : Status * InferenceRequest * Input :=
  let i := new_Input name datatype shape in
  let i := set_Shape i (original_shape_ i) in
  let i :=
    set_ShapeWithBatchDim i (OverrideShapeWithBatchDim batch_size shape) in
  let '(st, r) := AddOverrideInput r i in
  (st, r, i).

(** The body of the loop of the second pass, for one input of the warmup
    setting; the state is the request, [input_sps], [provided_data_] and
    the store. *)
Definition generate_request_input (backend : InferenceBackend)
    (zero_buffer random_buffer : Ptr)
    (s : InferenceRequest * list Input * list string * Heap)
    (input_meta : string * ModelWarmup_Input)
  : Status + InferenceRequest * list Input * list string * Heap :=
  let '(lrequest, input_sps, provided_data, h) := s in
  match warmup_input_source h provided_data zero_buffer random_buffer
          input_meta.1 input_meta.2 with
  | inl err => inl err
  | inr (allocated_ptr, batch_byte_size, provided_data, h) =>
      let is_original_input :=
        match GetInput backend input_meta.1 with
        | inr _ => true
        | inl _ => false
        end in
      let input_meta_shape :=
        (if bool_decide (mc_max_batch_size (config_ backend) ≠ 0)
            && is_original_input
         then [1] else [])
        ++ wi_dims input_meta.2 in
      if is_original_input
      then
        let '(st, lrequest) :=
          AddOriginalInput lrequest input_meta.1 (wi_data_type input_meta.2)
                           input_meta_shape in
        if negb (IsOk st) then inl st
        else
          inr (update_original_input lrequest input_meta.1
                 (fun input =>
                    AppendData input allocated_ptr
                      (Z.to_nat batch_byte_size) TRITONSERVER_MEMORY_CPU 0),
               input_sps, provided_data, h)
      else
        let '(st, lrequest, sp) :=
          AddOverrideInput_batch lrequest input_meta.1
            (wi_data_type input_meta.2)
            (if bool_decide (mc_max_batch_size (config_ backend) ≠ 0)
             then 1 else 0)
            input_meta_shape in
        if negb (IsOk st) then inl st
        else
          let sp :=
            AppendData sp allocated_ptr (Z.to_nat batch_byte_size)
                       TRITONSERVER_MEMORY_CPU 0 in
          inr (update_override_input lrequest input_meta.1 (fun _ => sp),
               input_sps ++ [sp], provided_data, h)
  end.

(** The body of the loop over [cnt]: one request of the sample. *)
Definition generate_request (backend : InferenceBackend)
    (zero_buffer random_buffer : Ptr)
    (inputs : list (string * ModelWarmup_Input))
    (s : list InferenceRequest * list string * Heap) (cnt : nat)
  : Status + list InferenceRequest * list string * Heap :=
  let '(requests, provided_data, h) := s in
  let lrequest := new_InferenceRequest backend (version_ backend) in
  match for_each_or_error
          (generate_request_input backend zero_buffer random_buffer)
          inputs (lrequest, [], provided_data, h) with
  | inl err => inl err
  | inr (lrequest, input_sps, provided_data, h) =>
      let '(st, lrequest) := PrepareForInference lrequest in
      if negb (IsOk st) then inl st
      else
        let lrequest :=
          fold_left (fun r sp => (AddOverrideInput r sp).2) input_sps
                    lrequest in
        let lrequest :=
          SetResponseCallback lrequest warmup_allocator None
                              WarmupResponseComplete None in
        inr (requests ++ [lrequest], provided_data, h)
  end.

(** The body of the loop over the warmup settings; the state is
    [warmup_samples_], the store and the number of calls of [rand()] so
    far. *)
Definition generate_sample (backend : InferenceBackend)
    (rand : nat → Byte.byte)
    (s : list WarmupData * Heap * nat) (warmup_setting : ModelWarmup)
  : Status + list WarmupData * Heap * nat :=
  let '(samples, h, calls) := s in
  if bool_decide (mw_batch_size warmup_setting = 0) then inr s
  else
    match warmup_max_byte_sizes (mw_inputs warmup_setting) 0 0 with
    | inl err => inl err
    | inr (max_zero_byte_size, max_random_byte_size) =>
        let '(zero_data, random_data, h) :=
          warmup_buffers h (fun offset => rand (calls + offset)%nat)
                         max_zero_byte_size max_random_byte_size in
        let zero_buffer := MutableBuffer zero_data in
        let random_buffer := MutableBuffer random_data in
        match for_each_or_error
                (generate_request backend zero_buffer random_buffer
                   (mw_inputs warmup_setting))
                (seq 0 (Z.to_nat (mw_batch_size warmup_setting)))
                ([], [], h) with
        | inl err => inl err
        | inr (requests, provided_data, h) =>
            inr (samples
                   ++ [{| sample_name_ := mw_name warmup_setting;
                          requests_ := requests;
                          zero_data_ := Some zero_data;
                          random_data_ := Some random_data;
                          provided_data_ := provided_data |}],
                 h, (calls + Z.to_nat max_random_byte_size)%nat)
        end
    end.

(** [TritonModelInstance::GenerateWarmupData] for the model [backend]
    with the warmup settings [model_warmup] of its configuration: the
    status, and on success [warmup_samples_] and the store. *)
Definition GenerateWarmupData (backend : InferenceBackend)
    (model_warmup : list ModelWarmup) (rand : nat → Byte.byte) (h : Heap)
  : Status + list WarmupData * Heap :=
  match for_each_or_error (generate_sample backend rand) model_warmup
          ([], h, 0%nat) with
  | inl err => inl err
  | inr (samples, h, _) => inr (samples, h)
  end.
End generate_warmup_data.

(** ** The reshape, as the specification words it *)

(** "Record the values at positions where [dims[i] = -1] (in order)". *)
Definition spec_recorded_values (dims shape : list Z) : list Z :=
  (filter (fun p : Z * Z => p.1 = -1) (zip dims shape)).*2.

(** "Emit the reshape target substituting -1 slots in that same order";
    there is no result when the recorded values run out. *)
Fixpoint spec_substitute (target recorded : list Z) : option (list Z) :=
  match target with
  | [] => Some []
  | dim :: target' =>
      if bool_decide (dim = -1)
      then
        match recorded with
        | v :: recorded' => (v ::.) <$> spec_substitute target' recorded'
        | [] => None
        end
      else (dim ::.) <$> spec_substitute target' recorded
  end.

Definition spec_reshape (dims target shape : list Z) : option (list Z) :=
  spec_substitute target (spec_recorded_values dims shape).

(** The number of variable-size dimensions of a shape. *)
Definition count_wildcards (dims : list Z) : nat :=
  length (filter (fun d : Z => d = -1) dims).

(** The shape of an input once the batch dimension is taken off, which is
    done for the inputs of a model with batching that are not shape
    tensors. *)
Definition batch_stripped_shape (backend : InferenceBackend)
    (input_config : ModelInput) (input : Input) : list Z :=
  if bool_decide (mc_max_batch_size (config_ backend) = 0)
  then original_shape_ input
  else if mi_is_shape_tensor input_config then original_shape_ input
  else drop 1 (original_shape_ input).

(** ** The sizing of the warmup buffers, as the specification words it *)

(** The inputs served from the zero buffer: the ones with ZeroData and the
    ones of string type with RandomData. *)
Definition uses_zero_data (input_meta : ModelWarmup_Input) : bool :=
  match wi_input_data_type_case input_meta with
  | kZeroData => true
  | kRandomData => bool_decide (wi_data_type input_meta = TYPE_STRING)
  | _ => false
  end.

(** The inputs served from the random buffer: the other ones with
    RandomData. *)
Definition uses_random_data (input_meta : ModelWarmup_Input) : bool :=
  match wi_input_data_type_case input_meta with
  | kRandomData => bool_decide (wi_data_type input_meta ≠ TYPE_STRING)
  | _ => false
  end.

(** The maximum of a list of byte sizes, 0 when there is none. *)
Definition max_byte_size (sizes : list Z) : Z := foldr Z.max 0 sizes.

(** ** The null request, as the specification words it *)

(** An input of the null request: the name, the data type and the working
    shape of the source, with data of its own. *)
Definition null_input (k : string) (input : Input) (data : Memory) : Input :=
  {| name_ := k; datatype_ := datatype_ input;
     original_shape_ := shape_ input; shape_ := shape_ input;
     shape_with_batch_dim_ := shape_ input; is_shape_tensor_ := false;
     data_ := data |}.

(** The content of the buffer that receives a shape tensor: the bytes of
    the first slice of the source, then bytes that were never written. *)
Definition shape_tensor_copy (h : Heap) (data : Memory)
  : list (option Byte.byte) :=
  match BufferAt data 0 with
  | Some slice =>
      take (TotalByteSize data)
        (read_bytes h (buf_base slice) (buf_byte_size slice)
           ++ replicate (TotalByteSize data - buf_byte_size slice) None)
  | None => replicate (TotalByteSize data) None
  end.

(** The slices of an input that refers to the first [byte_size] bytes of
    the block [block]. *)
Definition prefix_reference (block : N) (byte_size : nat) : Memory :=
  MemoryReference
    (if bool_decide (0 < byte_size)%nat
     then [mkBuffer (mkPtr block 0) byte_size TRITONSERVER_MEMORY_CPU 0]
     else []).

(** The largest byte size among the inputs that are not shape tensors. *)
Definition max_input_byte_size (l : list (string * Input)) : nat :=
  max_list ((fun pr : string * Input => TotalByteSize (data_ pr.2))
              <$> filter (fun pr : string * Input =>
                            is_shape_tensor_ pr.2 = false) l).

(** The request after [add_null_input] and the write of the data. *)
Definition with_null_input (r : InferenceRequest) (k : string)
    (input : Input) (data : Memory) : InferenceRequest :=
  set_needs_normalization
    (set_original_inputs r
       (original_inputs_ r ++ [(k, null_input k input data)])) true.

(** The request after the inputs [es] were added one by one. *)
Definition with_null_inputs (r : InferenceRequest)
    (es : list (string * Input)) : InferenceRequest :=
  match es with
  | [] => r
  | _ =>
      set_needs_normalization
        (set_original_inputs r (original_inputs_ r ++ es)) true
  end.

(** The data of an input of the null request that is not a shape
    tensor. *)
Definition padding_data (data_block : N) (max_byte_size : nat)
    (max_input_name : option string) (pr : string * Input) : Memory :=
  if bool_decide (Some pr.1 = max_input_name)
  then AllocatedMemory data_block max_byte_size TRITONSERVER_MEMORY_CPU 0
  else prefix_reference data_block (TotalByteSize (data_ pr.2)).

(** The bytes that a buffer refers to. *)
Definition memory_content (h : Heap) (data : Memory)
  : list (option Byte.byte) :=
  match data with
  | MemoryReference buffers =>
      concat ((fun slice => read_bytes h (buf_base slice)
                                       (buf_byte_size slice)) <$> buffers)
  | AllocatedMemory block byte_size _ _ =>
      read_bytes h (mkPtr block 0) byte_size
  end.

(** The part of the claim on the null request that is about the shape
    tensors, for every data layout: the buffer of the copy holds all the
    bytes of the source. *)
Definition CopyAsNull_copies_shape_tensors (from : InferenceRequest)
    (h : Heap) : Prop :=
  ∀ k input,
    (k, input) ∈ OriginalInputs from → is_shape_tensor_ input = true →
    ∃ block input',
      (k, input') ∈ OriginalInputs (CopyAsNull from h).1
      ∧ data_ input'
        = AllocatedMemory block (TotalByteSize (data_ input))
                          TRITONSERVER_MEMORY_CPU 0
      ∧ h !! block = None
      ∧ (CopyAsNull from h).2 !! block
        = Some (memory_content h (data_ input)).

(** ** Observations on a trace *)

(** The responses that were delivered, with the flags of the delivery. *)
Definition responses_of (evs : list Event) : list (InferenceResponse * Z) :=
  omap (fun ev =>
          match ev with
          | EvResponseComplete response flags => Some (response, flags)
          | _ => None
          end) evs.

(** The requests that were handed to their release function, with the
    flags. *)
Definition releases_of (evs : list Event) : list (InferenceRequest * Z) :=
  omap (fun ev =>
          match ev with
          | EvRelease _ request flags _ => Some (request, flags)
          | _ => None
          end) evs.

(** The internal release callbacks that ran. *)
Definition release_callbacks_of (evs : list Event) : list N :=
  omap (fun ev =>
          match ev with
          | EvReleaseCallback id => Some id
          | _ => None
          end) evs.

(** The statuses that [Normalize] can return. *)
Definition ok_or_invalid_arg (st : Status) : Prop :=
  st = Success ∨ StatusCode st = INVALID_ARG.

(** The error response that a request receives for [status]. *)
Definition error_response (request : InferenceRequest) (status : Status)
  : InferenceResponse :=
  {| resp_factory := response_factory_ request;
     resp_outputs := [];
     resp_status := status |}.

(** The status that [Execute] builds from the error of the exec hook. *)
Definition status_of_error (err : TRITONSERVER_Error) : Status :=
  mkStatus (TritonCodeToStatusCode (TRITONSERVER_ErrorCode err))
           (TRITONSERVER_ErrorMessage err).

(** The events of the error path, request by request. *)
Definition error_trace (status : Status) (requests : list InferenceRequest)
  : list Event :=
  concat ((fun request =>
             EvResponseComplete (error_response request status)
                                TRITONSERVER_RESPONSE_COMPLETE_FINAL
             :: Release request TRITONSERVER_REQUEST_RELEASE_ALL)
            <$> requests).

(** ** The warmup requests, as the specification words them *)

(** The data of an input that received one slice of [byte_size] bytes at
    [base], and nothing when [byte_size] is 0. *)
Definition slice_at (base : Ptr) (byte_size : Z) : Memory :=
  MemoryReference
    (if bool_decide (0 < Z.to_nat byte_size)%nat
     then [mkBuffer base (Z.to_nat byte_size) TRITONSERVER_MEMORY_CPU 0]
     else []).

(** The input of a warmup request that stands for the input [name] of
    the warmup setting: an original input when the model declares the
    name, an override input otherwise. *)
Definition warmup_input_of (backend : InferenceBackend)
    (request : InferenceRequest) (name : string) (input : Input) : Prop :=
  match GetInput backend name with
  | inr _ => (name, input) ∈ OriginalInputs request
  | inl _ => OverrideInputs request !! name = Some input
  end.

(** The per-batch byte size of an input is the product of its element
    count and the byte size of its data type (4 for a data type of byte
    size 0), and fits a signed 64-bit value. *)
Definition byte_size_in_range {Helpers : WarmupHelpers}
    (input_meta : ModelWarmup_Input) : Prop :=
  0 ≤ GetElementCount (wi_dims input_meta)
      * GetDataTypeByteSize (wi_data_type input_meta) < 2 ^ 63
  ∧ 0 ≤ GetElementCount (wi_dims input_meta) * sizeof_int32_t < 2 ^ 63.

(** The members of an input that [Normalize] only reads. *)
Definition same_tensor (x x' : Input) : Prop :=
  name_ x' = name_ x ∧ datatype_ x' = datatype_ x
  ∧ original_shape_ x' = original_shape_ x ∧ data_ x' = data_ x.

(** What holds of a request of a warmup sample while its inputs are
    added: [done] are the inputs of the setting that were added,
    [input_sps] the override inputs among them. *)
Definition warmup_request_built {Helpers : WarmupHelpers}
    (backend : InferenceBackend) (zero_buffer : Ptr)
    (done : list (string * ModelWarmup_Input))
    (lrequest : InferenceRequest) (input_sps : list Input) : Prop :=
  (∀ k, k ∈ (original_inputs_ lrequest).*1 → k ∈ done.*1)
  ∧ (∀ sp, sp ∈ input_sps → name_ sp ∈ done.*1)
  ∧ NoDup (name_ <$> input_sps)
  ∧ ∀ name input_meta,
      (name, input_meta) ∈ done → uses_zero_data input_meta = true →
      ∃ input,
        data_ input
        = slice_at zero_buffer (warmup_request_byte_size input_meta)
        ∧ match GetInput backend name with
          | inr _ => (name, input) ∈ original_inputs_ lrequest
          | inl _ => input ∈ input_sps ∧ name_ input = name
          end.

(** What the claim on the warmup data says of one sample, for the store
    [h] before and [h'] after the samples were generated. *)
Definition warmup_sample_spec {Helpers : WarmupHelpers}
    (backend : InferenceBackend) (h h' : Heap)
    (warmup_setting : ModelWarmup) (sample : WarmupData) : Prop :=
  let max_zero :=
    max_byte_size
      (warmup_batch_byte_size
         <$> filter uses_zero_data (mw_inputs warmup_setting).*2) in
  let max_random :=
    max_byte_size
      (warmup_batch_byte_size
         <$> filter uses_random_data (mw_inputs warmup_setting).*2) in
  sample_name_ sample = mw_name warmup_setting
  ∧ length (requests_ sample) = Z.to_nat (mw_batch_size warmup_setting)
  ∧ ∃ zero_buffer random_buffer,
      zero_data_ sample
      = Some (AllocatedMemory zero_buffer (Z.to_nat max_zero)
                              TRITONSERVER_MEMORY_CPU_PINNED 0)
      ∧ random_data_ sample
        = Some (AllocatedMemory random_buffer (Z.to_nat max_random)
                                TRITONSERVER_MEMORY_CPU_PINNED 0)
      ∧ h !! zero_buffer = None
      ∧ h' !! zero_buffer
        = Some (replicate (Z.to_nat max_zero) (Some Byte.x00))
      ∧ ∀ request name input_meta,
          request ∈ requests_ sample →
          (name, input_meta) ∈ mw_inputs warmup_setting →
          uses_zero_data input_meta = true →
          ∃ input,
            warmup_input_of backend request name input
            ∧ data_ input
              = slice_at (mkPtr zero_buffer 0)
                         (warmup_request_byte_size input_meta)
            ∧ (byte_size_in_range input_meta →
               warmup_request_byte_size input_meta
               = warmup_batch_byte_size input_meta
               ∧ warmup_request_byte_size input_meta ≤ max_zero).

(** ** More of the request interface (infer_request.cc) *)

(** [Input::RemoveAllData]. *)
Definition RemoveAllData (i : Input) : Status * Input :=
  (Success, set_data i (MemoryReference [])).

(** [original_inputs_.find(name)]. *)
Definition find_original_input (name : string) (l : list (string * Input))
  : option Input :=
  snd <$> (snd <$> list_find (fun pr : string * Input => pr.1 = name) l).

(** [MutableOriginalInput]. *)
Definition MutableOriginalInput (r : InferenceRequest) (name : string)
  : Status + Input :=
  match find_original_input name (original_inputs_ r) with
  | None =>
      inl (mkStatus INVALID_ARG
             ("input '" +:+ name +:+ "' does not exist in request"))
  | Some input => inr input
  end.

(** [ImmutableInput]: the pointer that [inputs_] holds for [name]. *)
Definition ImmutableInput (r : InferenceRequest) (name : string)
  : Status + InputPtr :=
  match inputs_ r !! name with
  | None =>
      inl (mkStatus INVALID_ARG
             ("input '" +:+ name +:+ "' does not exist in request"))
  | Some input => inr input
  end.

(** The input that a pointer of [inputs_] refers to. *)
Definition input_at (r : InferenceRequest) (p : InputPtr) : option Input :=
  match p with
  | PtrOriginal name => find_original_input name (original_inputs_ r)
  | PtrOverride name => override_inputs_ r !! name
  end.

(** [RemoveAllOriginalInputs]. *)
Definition RemoveAllOriginalInputs (r : InferenceRequest)
  : Status * InferenceRequest :=
  (Success, set_needs_normalization (set_original_inputs r []) true).

(** [RemoveOriginalRequestedOutput]. *)
Definition RemoveOriginalRequestedOutput (r : InferenceRequest)
    (name : string) : Status * InferenceRequest :=
  (Success,
   set_needs_normalization
     (set_original_requested_outputs r
        (original_requested_outputs_ r ∖ {[name]}))
     true).

(** [RemoveAllOriginalRequestedOutputs]. *)
Definition RemoveAllOriginalRequestedOutputs (r : InferenceRequest)
  : Status * InferenceRequest :=
  (Success,
   set_needs_normalization (set_original_requested_outputs r ∅) true).

(** The calls that change what a request asks for. *)
Inductive request_change (r : InferenceRequest) : InferenceRequest → Prop :=
  | change_AddOriginalInput name datatype shape :
      IsOk (AddOriginalInput r name datatype shape).1 = true →
      request_change r (AddOriginalInput r name datatype shape).2
  | change_RemoveOriginalInput name :
      IsOk (RemoveOriginalInput r name).1 = true →
      request_change r (RemoveOriginalInput r name).2
  | change_RemoveAllOriginalInputs :
      request_change r (RemoveAllOriginalInputs r).2
  | change_AddOriginalRequestedOutput name :
      request_change r (AddOriginalRequestedOutput r name).2
  | change_RemoveOriginalRequestedOutput name :
      request_change r (RemoveOriginalRequestedOutput r name).2
  | change_RemoveAllOriginalRequestedOutputs :
      request_change r (RemoveAllOriginalRequestedOutputs r).2.

(** The input that a successful lookup returned. *)
Definition ok_input (res : Status + Input) : option Input :=
  match res with
  | inr input => Some input
  | inl _ => None
  end.


(** ** More of InferenceBackend (backend.cc) *)



(** A payload of the scheduler, as [Run] reads it: whether it has a
    [stats_] object, identified by a number. *)
Record SchedulerPayload : Type := mkSchedulerPayload {
  stats_ : option N
}.

(** A context of the backend: its device and the status of its [Run] on
    the payloads. *)
Record BackendContext : Type := mkBackendContext {
  gpu_device_ : Z;
  context_Run : list SchedulerPayload → Status
}.

(** What [Run(runner_idx, payloads, OnCompleteQueuedPayloads)] does, in
    the order of the calls. *)
Inductive RunEvent : Type :=
  | EvCaptureComputeStart (stats : N)
  | EvSetGPUDevice (stats : N) (device : Z)
  | EvContextRun (runner_idx : nat)
  | EvCaptureComputeEnd (stats : N)
  | EvOnCompleteQueuedPayloads (status : Status).

(** [InferenceBackend::Run(runner_idx, payloads,
    OnCompleteQueuedPayloads)]; [runner_idx] is a [uint32_t]. *)
Definition Run (contexts_ : list BackendContext) (runner_idx : nat)
    (payloads : list SchedulerPayload) : list RunEvent :=
  match contexts_ !! runner_idx with
  | None =>
      [EvOnCompleteQueuedPayloads
         (mkStatus INTERNAL
            ("unexpected runner index" +:+ to_string (Z.of_nat runner_idx)
               +:+ ", max allowed "
               +:+ to_string (Z.of_nat (length contexts_))))]
  | Some context =>
      concat ((fun payload =>
                 match stats_ payload with
                 | Some stats =>
                     [EvCaptureComputeStart stats;
                      EvSetGPUDevice stats (gpu_device_ context)]
                 | None => []
                 end) <$> payloads)
      ++ [EvContextRun runner_idx]
      ++ concat ((fun payload =>
                    match stats_ payload with
                    | Some stats => [EvCaptureComputeEnd stats]
                    | None => []
                    end) <$> payloads)
      ++ [EvOnCompleteQueuedPayloads (context_Run context payloads)]
  end.

(** The statuses that the completion function received. *)
Definition completions_of (evs : list RunEvent) : list Status :=
  omap (fun ev =>
          match ev with
          | EvOnCompleteQueuedPayloads status => Some status
          | _ => None
          end) evs.

(** The contexts that ran. *)
Definition context_runs_of (evs : list RunEvent) : list nat :=
  omap (fun ev =>
          match ev with
          | EvContextRun runner_idx => Some runner_idx
          | _ => None
          end) evs.

(** The [stats_] objects whose compute timer was started, and the ones
    whose compute timer was stopped. *)
Definition compute_starts_of (evs : list RunEvent) : list N :=
  omap (fun ev =>
          match ev with
          | EvCaptureComputeStart stats => Some stats
          | _ => None
          end) evs.

Definition compute_ends_of (evs : list RunEvent) : list N :=
  omap (fun ev =>
          match ev with
          | EvCaptureComputeEnd stats => Some stats
          | _ => None
          end) evs.

(** The first entry of a configuration list with a given name. *)
Definition first_named {V : Type} (key : V → string) (name : string)
    (l : list V) : option V :=
  snd <$> list_find (fun io => key io = name) l.

(** ** Creating the instances of a model (triton_model_instance.cc) *)

(** Modelled from the spec: the kinds of an instance group of
    model_config.proto (absent from the sources); the code names the three
    kinds that it supports and rejects any other. *)
Inductive ModelInstanceGroup_Kind : Type :=
  | KIND_AUTO
  | KIND_GPU
  | KIND_CPU
  | KIND_MODEL.

Global Instance ModelInstanceGroup_Kind_eq_dec
  : EqDecision ModelInstanceGroup_Kind.
Proof. solve_decision. Defined.

Definition ModelInstanceGroup_Kind_Name (kind : ModelInstanceGroup_Kind)
  : string :=
  match kind with
  | KIND_AUTO => "KIND_AUTO"
  | KIND_GPU => "KIND_GPU"
  | KIND_CPU => "KIND_CPU"
  | KIND_MODEL => "KIND_MODEL"
  end.

Inductive TRITONSERVER_InstanceGroupKind : Type :=
  | TRITONSERVER_INSTANCEGROUPKIND_AUTO
  | TRITONSERVER_INSTANCEGROUPKIND_CPU
  | TRITONSERVER_INSTANCEGROUPKIND_GPU
  | TRITONSERVER_INSTANCEGROUPKIND_MODEL.

Global Instance TRITONSERVER_InstanceGroupKind_eq_dec
  : EqDecision TRITONSERVER_InstanceGroupKind.
Proof. solve_decision. Defined.

(** The fields of an instance group that [CreateInstances] reads;
    [count] and the device ids are [int32]; the rate limiter is only
    handed on. *)
Record ModelInstanceGroup : Type := mkInstanceGroup {
  group_name : string;
  group_kind : ModelInstanceGroup_Kind;
  group_count : Z;
  group_gpus : list Z;
  group_profile : list string;
  group_passive : bool;
  group_rate_limiter : N
}.

(** An instance as [CreateInstance] builds it, with the number of its
    backend thread if it has one. *)
Record CreatedInstance : Type := mkCreatedInstance {
  ci_name : string;
  ci_index : Z;
  ci_kind : TRITONSERVER_InstanceGroupKind;
  ci_device_id : Z;
  ci_profile_names : list string;
  ci_passive : bool;
  triton_backend_thread_ : option nat
}.

Global Instance CreatedInstance_eq_dec : EqDecision CreatedInstance.
Proof. solve_decision. Defined.

(** The state that [CreateInstances] threads through its calls: the
    number of backend threads started so far (a new thread takes that
    number), [device_to_thread_map], whose keys are [uint32_t], and the
    instances that the model received through [AddInstance] with their
    rate limiters, in the order of the calls. *)
Record InstancesState : Type := mkInstancesState {
  threads_started : nat;
  device_to_thread_map : gmap Z nat;
  added_instances : list (CreatedInstance * N)
}.

(** [std::map::insert]: the entry is added only when the key is absent. *)
Definition map_insert_new_Z {V} (k : Z) (v : V) (m : gmap Z V) : gmap Z V :=
  match m !! k with
  | Some _ => m
  | None => <[k := v]> m
  end.

(** The first loop of [CreateInstances]: [use_backend_threads], from the
    value of [count]. *)
Fixpoint use_backend_threads_loop (count : Z)
    (instance_group : list ModelInstanceGroup) : bool :=
  match instance_group with
  | [] => false
  | group :: rest =>
      if negb (group_passive group)
      then
        let count := to_size_t (count + group_count group) in
        if bool_decide (count > 1) then true
        else use_backend_threads_loop count rest
      else use_backend_threads_loop count rest
  end.

(** [SetBackendThread] on a new instance: the thread of the instance and
    the state; [CreateBackendThread] always succeeds. *)
Definition SetBackendThread (device_id : Z) (device_blocking : bool)
    (s : InstancesState) : nat * InstancesState :=
  let found :=
    if device_blocking
    then device_to_thread_map s !! to_uint32 device_id
    else None in
  match found with
  | Some thread => (thread, s)
  | None =>
      let thread := threads_started s in
      (thread,
       {| threads_started := S thread;
          device_to_thread_map :=
            map_insert_new_Z (to_uint32 device_id) thread
                             (device_to_thread_map s);
          added_instances := added_instances s |})
  end.

Section create_instances.
(** What follows the construction of an instance in [CreateInstance]:
    [GenerateWarmupData], the initialization function of the backend and
    [AddInstance] of the model; their combined status is a parameter. *)
Variable finish_instance : CreatedInstance → Status.

(** [CreateInstance]. *)
Definition CreateInstance (name : string) (index : Z)
    (kind : TRITONSERVER_InstanceGroupKind) (device_id : Z)
    (profile_names : list string) (passive : bool) (rate_limiter_config : N)
    (use_backend_threads device_blocking : bool) (s : InstancesState)
  : Status * InstancesState :=
  let '(thread, s) :=
    if use_backend_threads
    then let '(thread, s) := SetBackendThread device_id device_blocking s in
         (Some thread, s)
    else (None, s) in
  let local_instance :=
    mkCreatedInstance name index kind device_id profile_names passive
                      thread in
  let st := finish_instance local_instance in
  if negb (IsOk st) then (st, s)
  else
    (Success,
     {| threads_started := threads_started s;
        device_to_thread_map := device_to_thread_map s;
        added_instances :=
          added_instances s ++ [(local_instance, rate_limiter_config)] |}).

(** A loop whose body may return an error, which ends the function. *)
Fixpoint for_each_until_error {A : Type}
    (body : A → InstancesState → Status * InstancesState) (l : list A)
    (s : InstancesState) : Status * InstancesState :=
  match l with
  | [] => (Success, s)
  | x :: rest =>
      let '(st, s) := body x s in
      if negb (IsOk st) then (st, s)
      else for_each_until_error body rest s
  end.

(** The values of [c] in [for (int32_t c = 0; c < count; ++c)]. *)
Definition instance_indices (count : Z) : list Z :=
  Z.of_nat <$> seq 0 (Z.to_nat count).

(** The body of the loop over the groups, for one value of [c]. *)
Definition create_group_instance (use_backend_threads device_blocking : bool)
    (group : ModelInstanceGroup) (c : Z) (s : InstancesState)
  : Status * InstancesState :=
  let profile_names := group_profile group in
  let instance_name :=
    if bool_decide (group_count group > 1)
    then group_name group +:+ "_" +:+ to_string c
    else group_name group in
  let passive := group_passive group in
  match group_kind group with
  | KIND_CPU =>
      CreateInstance instance_name c TRITONSERVER_INSTANCEGROUPKIND_CPU 0
        profile_names passive (group_rate_limiter group)
        use_backend_threads device_blocking s
  | KIND_GPU =>
      for_each_until_error
        (fun device_id =>
           CreateInstance instance_name c TRITONSERVER_INSTANCEGROUPKIND_GPU
             device_id profile_names passive (group_rate_limiter group)
             use_backend_threads device_blocking)
        (group_gpus group) s
  | KIND_MODEL =>
      CreateInstance instance_name c TRITONSERVER_INSTANCEGROUPKIND_MODEL 0
        profile_names passive (group_rate_limiter group)
        use_backend_threads device_blocking s
  | _ =>
      (mkStatus INVALID_ARG
         ("instance_group kind "
            +:+ ModelInstanceGroup_Kind_Name (group_kind group)
            +:+ " not supported"), s)
  end.

(** [TritonModelInstance::CreateInstances]. *)
Definition CreateInstances (instance_group : list ModelInstanceGroup)
    (device_blocking : bool) : Status * InstancesState :=
  let use_backend_threads := use_backend_threads_loop 0 instance_group in
  for_each_until_error
    (fun group =>
       for_each_until_error
         (create_group_instance use_backend_threads device_blocking group)
         (instance_indices (group_count group)))
    instance_group
    (mkInstancesState 0 ∅ []).
End create_instances.

(** The number of instances of the groups that are not passive, for the
    first loop of [CreateInstances]. *)
Definition active_instance_count (instance_group : list ModelInstanceGroup)
  : Z :=
  foldr (fun group acc =>
           if group_passive group then acc else group_count group + acc)
        0 instance_group.

(** The devices of the instances of a group, for one value of [c]. *)
Definition group_devices (group : ModelInstanceGroup)
  : list (TRITONSERVER_InstanceGroupKind * Z) :=
  match group_kind group with
  | KIND_CPU => [(TRITONSERVER_INSTANCEGROUPKIND_CPU, 0)]
  | KIND_GPU =>
      (fun device_id => (TRITONSERVER_INSTANCEGROUPKIND_GPU, device_id))
        <$> group_gpus group
  | KIND_MODEL => [(TRITONSERVER_INSTANCEGROUPKIND_MODEL, 0)]
  | KIND_AUTO => []
  end.

(** The instances that the configuration describes, group by group, index
    by index, device by device, without their threads. *)
Definition described_instances (instance_group : list ModelInstanceGroup)
  : list (CreatedInstance * N) :=
  group ← instance_group;
  c ← instance_indices (group_count group);
  (fun kd : TRITONSERVER_InstanceGroupKind * Z =>
     (mkCreatedInstance
        (if bool_decide (group_count group > 1)
         then group_name group +:+ "_" +:+ to_string c
         else group_name group)
        c kd.1 kd.2 (group_profile group) (group_passive group) None,
      group_rate_limiter group))
    <$> group_devices group.

(** An instance without the number of its thread. *)
Definition without_thread (pr : CreatedInstance * N) : CreatedInstance * N :=
  (mkCreatedInstance (ci_name pr.1) (ci_index pr.1) (ci_kind pr.1)
                     (ci_device_id pr.1) (ci_profile_names pr.1)
                     (ci_passive pr.1) None,
   pr.2).

(** What holds of the threads while the instances are created, for each
    way of allocating them. *)
Definition threads_per_device (s : InstancesState) : Prop :=
  (∀ d t, device_to_thread_map s !! d = Some t → (t < threads_started s)%nat)
  ∧ (∀ d1 d2 t, device_to_thread_map s !! d1 = Some t →
                device_to_thread_map s !! d2 = Some t → d1 = d2)
  ∧ ∀ pr, pr ∈ added_instances s →
          ∃ t, triton_backend_thread_ pr.1 = Some t
               ∧ device_to_thread_map s !! to_uint32 (ci_device_id pr.1)
                 = Some t.

Definition thread_per_instance (s : InstancesState) : Prop :=
  NoDup (triton_backend_thread_ <$> (added_instances s).*1)
  ∧ ∀ pr, pr ∈ added_instances s →
          ∃ t, triton_backend_thread_ pr.1 = Some t
               ∧ (t < threads_started s)%nat.

Definition no_thread (s : InstancesState) : Prop :=
  threads_started s = 0%nat
  ∧ ∀ pr, pr ∈ added_instances s → triton_backend_thread_ pr.1 = None.

(** ** The backend thread (triton_model_instance.cc) *)

Global Instance Operation_eq_dec : EqDecision Operation.
Proof. solve_decision. Defined.


(** [TritonBackendThread::BackendThread] on the payloads that
    [queue_.Get()] returns, in order: what each executed payload leaves
    behind, the payloads that were not taken, and whether the loop ended;
    when the queue runs empty the thread waits in [Get].  The payload
    number [n] is executed at time [clock n]. *)
Fixpoint BackendThread {Options : BuildOptions} (clock : nat → Z) (n : nat)
    (queue_ : list Payload) : list PayloadResult * list Payload * bool :=
  match queue_ with
  | [] => ([], [], false)
  | payload :: rest =>
      let result := Payload_Execute payload (clock n) in
      if should_exit result then ([result], rest, true)
      else
        let '(results, remaining, stopped) := BackendThread clock (S n) rest in
        (result :: results, remaining, stopped)
  end.


Section instance_operations.
Context {Options : BuildOptions}.



End instance_operations.



(** ** The TensorRT helpers (plan_utils.cc) *)

(** The values of [nvinfer1::DataType]: the four enumerators that the
    code names, and any other value of the enumeration (NvInfer.h is
    absent from the sources). *)
Inductive nvinfer1_DataType : Type :=
  | kFLOAT
  | kHALF
  | kINT8
  | kINT32
  | kOTHER (value : N).

Global Instance nvinfer1_DataType_eq_dec : EqDecision nvinfer1_DataType.
Proof. solve_decision. Defined.

Definition ConvertTrtTypeToDataType (trt_type : nvinfer1_DataType)
  : DataType :=
  match trt_type with
  | kFLOAT => TYPE_FP32
  | kHALF => TYPE_FP16
  | kINT8 => TYPE_INT8
  | kINT32 => TYPE_INT32
  | kOTHER _ => TYPE_INVALID
  end.

Definition ConvertDataTypeToTrtType (dtype : DataType)
  : bool * nvinfer1_DataType :=
  let trt_type := kFLOAT in
  match dtype with
  | TYPE_FP32 => (true, kFLOAT)
  | TYPE_FP16 => (true, kHALF)
  | TYPE_INT8 => (true, kINT8)
  | TYPE_INT32 => (true, kINT32)
  | _ => (false, trt_type)
  end.

(** [nvinfer1::Dims]: [nbDims] and the array [d] of [MAX_DIMS] values of
    type [int]. *)
Record Dims : Type := mkDims {
  nbDims : nat;
  d : list Z
}.

(** The cast [(int)] applied to an [int64_t] or to a [size_t]. *)
Definition to_int (z : Z) : Z := (z + 2 ^ 31) mod 2 ^ 32 - 2 ^ 31.

(** [CompareDims(model_dims, dims)]. *)
Definition CompareDims (model_dims : Dims) (dims : list Z) : bool :=
  if bool_decide (nbDims model_dims ≠ length dims) then false
  else
    forallb
      (fun i : nat => negb (bool_decide (d model_dims !!! i ≠ dims !!! i)))
      (seq 0 (nbDims model_dims)).

(** [CompareDimsWithWildcard(model_dims, dims)] on [nvinfer1::Dims]. *)
Definition CompareDimsWithWildcard_Dims (model_dims : Dims) (dims : list Z)
  : bool :=
  if bool_decide (nbDims model_dims ≠ length dims) then false
  else
    forallb
      (fun i : nat =>
         negb (bool_decide (d model_dims !!! i ≠ WILDCARD_DIM)
               && bool_decide (dims !!! i ≠ WILDCARD_DIM)
               && bool_decide (d model_dims !!! i ≠ dims !!! i)))
      (seq 0 (nbDims model_dims)).

(** [DimsToVec(model_dims, &dims)]. *)
Definition DimsToVec (model_dims : Dims) : list Z :=
  fold_left (fun dims (i : nat) => dims ++ [d model_dims !!! i])
            (seq 0 (nbDims model_dims)) [].

(** [DimVecToDims(dim_vec, dims)] for the value [MAX_DIMS] of
    [nvinfer1::Dims]: the result and the content of [*dims]. *)
Definition DimVecToDims (MAX_DIMS : nat) (dim_vec : list Z) (dims : Dims)
  : bool * Dims :=
  if bool_decide (MAX_DIMS < length dim_vec)%nat then (false, dims)
  else
    (true,
     fold_left
       (fun dims (i : nat) =>
          mkDims (nbDims dims) (<[i := to_int (dim_vec !!! i)]> (d dims)))
       (seq 0 (length dim_vec))
       (mkDims (length dim_vec) (d dims))).

(** [ContainsWildcard(dims)]. *)
Definition ContainsWildcard (dims : Dims) : bool :=
  existsb (fun i : nat => bool_decide (d dims !!! i = WILDCARD_DIM))
          (seq 0 (nbDims dims)).

(** [CountElements(dims)], for both overloads: the product is computed in
    [size_t] and returned as an [int]. *)
Definition CountElements (dims : list Z) : Z :=
  if bool_decide (length dims = 0%nat) then 0
  else
    to_int
      (fold_left (fun count (i : nat) => to_size_t (count * dims !!! i))
                 (seq 0 (length dims)) 1).


(** The product of the dimensions of a shape. *)
Definition dims_product (dims : list Z) : Z := foldr Z.mul 1 dims.

(** ** Statistics (infer_request.cc, built with TRITON_ENABLE_STATS) *)






(** ** Concrete configurations used by the examples *)

Module Examples.

#[export] Instance example_formatting : Formatting :=
  {| DataTypeToProtocolString := fun _ => "TYPE";
     DimsListToString :=
       fun dims => "[" +:+ String.concat "," (pretty <$> dims) +:+ "]" |}.

#[export] Instance example_options : BuildOptions :=
  {| TRITON_ENABLE_STATS := true |}.

(** A request of a model without inputs, with three internal release
    callbacks registered in the order 1, 2, 3. *)
Definition request_with_callbacks : InferenceRequest :=
  set_release_callbacks
    (SetReleaseCallback
       (SetResponseCallback
          (new_InferenceRequest (SetModelConfig 1 (mkModelConfig "m" 0 [] []))
                                1)
          (user_allocator 0) None (user_response_complete 0) None)
       (user_release 7) (Some 42%N))
    [1%N; 2%N; 3%N].

(** Three requests with different release functions and an instance whose
    exec hook fails with UNAVAILABLE (scenario S6). *)
Definition request_n (n : N) : InferenceRequest :=
  SetReleaseCallback request_with_callbacks (user_release n) (Some n).

Definition three_requests : list InferenceRequest :=
  [request_n 1; request_n 2; request_n 3].

Definition unavailable : TRITONSERVER_Error :=
  mkError TRITONSERVER_ERROR_UNAVAILABLE "busy".

Definition failing_instance : TritonModelInstance :=
  {| inst_exec_fn := fun _ => Some unavailable;
     InitializeFunc := Success;
     warmup_samples_ := [] |}.

Definition working_instance : TritonModelInstance :=
  {| inst_exec_fn := fun _ => None;
     InitializeFunc := Success;
     warmup_samples_ := [] |}.

Definition broken_instance : TritonModelInstance :=
  {| inst_exec_fn := fun _ => None;
     InitializeFunc := mkStatus INTERNAL "init failed";
     warmup_samples_ := [] |}.

Definition infer_payload : Payload :=
  mkPayload INFER_RUN failing_instance three_requests.

Definition init_payload : Payload := mkPayload INIT broken_instance [].

(** Scenario S3: dims [-1, 4] with reshape target [4, -1], no
    batching, and a request with shape [7, 4]. *)
Definition reshape_input : ModelInput :=
  mkModelInput "IN0" TYPE_FP32 [-1; 4] (Some [4; -1]) false.

Definition reshape_backend : InferenceBackend :=
  SetModelConfig 1
    (mkModelConfig "reshape" 0 [reshape_input]
                   [mkModelOutput "OUT0" TYPE_FP32 [4; -1]]).

Definition reshape_request : InferenceRequest :=
  (AddOriginalInput (new_InferenceRequest reshape_backend 1)
                    "IN0" TYPE_FP32 [7; 4]).2.

(** The same model with batches of up to 8, and a request with shape
    [2, 7, 4]. *)
Definition batched_reshape_backend : InferenceBackend :=
  SetModelConfig 1
    (mkModelConfig "reshape" 8 [reshape_input]
                   [mkModelOutput "OUT0" TYPE_FP32 [4; -1]]).

Definition batched_reshape_request : InferenceRequest :=
  (AddOriginalInput (new_InferenceRequest batched_reshape_backend 1)
                    "IN0" TYPE_FP32 [2; 7; 4]).2.

(** Scenarios S1 and S2: inputs IN0 FP32 [3] and IN1 FP32 [5], outputs
    OUT0 and OUT1, batches of up to 4. *)
Definition two_input_backend : InferenceBackend :=
  SetModelConfig 1
    (mkModelConfig "simple" 4
       [mkModelInput "IN0" TYPE_FP32 [3] None false;
        mkModelInput "IN1" TYPE_FP32 [5] None false]
       [mkModelOutput "OUT0" TYPE_FP32 [3];
        mkModelOutput "OUT1" TYPE_FP32 [5]]).

Definition two_input_request (shape0 shape1 : list Z) : InferenceRequest :=
  (AddOriginalInput
     (AddOriginalInput (new_InferenceRequest two_input_backend 1)
                       "IN0" TYPE_FP32 shape0).2
     "IN1" TYPE_FP32 shape1).2.

(** The same two inputs, added to the request in the other order. *)
Definition two_input_request_swapped (shape0 shape1 : list Z)
  : InferenceRequest :=
  (AddOriginalInput
     (AddOriginalInput (new_InferenceRequest two_input_backend 1)
                       "IN1" TYPE_FP32 shape1).2
     "IN0" TYPE_FP32 shape0).2.

Definition good_request : InferenceRequest :=
  two_input_request [2; 3] [2; 5].

(** Scenario S2. *)
Definition mismatch_request : InferenceRequest :=
  two_input_request [2; 3] [3; 5].

(** First dimensions 0 and 3. *)
Definition zero_batch_request : InferenceRequest :=
  two_input_request [0; 3] [3; 5].

Definition zero_batch_request_swapped : InferenceRequest :=
  two_input_request_swapped [0; 3] [3; 5].

Definition request_for_OUT1 : InferenceRequest :=
  (AddOriginalRequestedOutput good_request "OUT1").2.

Definition request_for_unknown_output : InferenceRequest :=
  (AddOriginalRequestedOutput good_request "OUT7").2.

(** A prepared request that received an override input afterwards. *)
Definition request_with_override : InferenceRequest :=
  (AddOverrideInput
     (PrepareForInference good_request).2
     (new_Input "START" TYPE_INT32 [1])).2.

(** Warmup: element counts are products of the dims (-1 when a dim is
    variable), strings have byte size 0, there is no data file. *)
Definition example_warmup_helpers : WarmupHelpers :=
  {| GetElementCount :=
       fun dims =>
         if bool_decide (-1 ∈ dims) then -1 else foldr Z.mul 1 dims;
     GetDataTypeByteSize :=
       fun dt =>
         match dt with
         | TYPE_FP32 | TYPE_INT32 | TYPE_UINT32 => 4
         | TYPE_FP64 | TYPE_INT64 | TYPE_UINT64 => 8
         | TYPE_FP16 | TYPE_INT16 | TYPE_UINT16 => 2
         | TYPE_BOOL | TYPE_INT8 | TYPE_UINT8 => 1
         | TYPE_STRING | TYPE_INVALID => 0
         end;
     ReadTextFile :=
       fun path => inl (mkStatus INTERNAL "no such file");
     OverrideShapeWithBatchDim :=
       fun batch_size shape =>
         if bool_decide (batch_size > 0) then batch_size :: shape
         else shape |}.

Definition warmup_inputs : list (string * ModelWarmup_Input) :=
  [("ZEROS", mkWarmupInput TYPE_FP32 [4; 4] kZeroData);
   ("TEXT", mkWarmupInput TYPE_STRING [32] kRandomData);
   ("NOISE", mkWarmupInput TYPE_INT64 [10] kRandomData)].

(** Scenario S5: a store with the data of three inputs, and a request
    with the shape tensor S (12 bytes, the values 1, 2, 3) and the inputs
    A (32 bytes) and B (16 bytes). *)
Definition example_heap : Heap :=
  {[ 10%N := Some <$> [Byte.x01; Byte.x00; Byte.x00; Byte.x00;
                       Byte.x02; Byte.x00; Byte.x00; Byte.x00;
                       Byte.x03; Byte.x00; Byte.x00; Byte.x00];
     11%N := replicate 32%nat (Some Byte.x07);
     12%N := replicate 16%nat (Some Byte.x09) ]}.

Definition source_input (name : string) (is_shape_tensor : bool)
    (shape : list Z) (slices : list Buffer) : string * Input :=
  (name,
   {| name_ := name; datatype_ := TYPE_INT32; original_shape_ := shape;
      shape_ := shape; shape_with_batch_dim_ := shape;
      is_shape_tensor_ := is_shape_tensor;
      data_ := MemoryReference slices |}).

Definition slice (block : N) (offset byte_size : nat) : Buffer :=
  mkBuffer (mkPtr block offset) byte_size TRITONSERVER_MEMORY_CPU 0.

Definition null_source : InferenceRequest :=
  set_original_inputs
    (new_InferenceRequest (SetModelConfig 1 (mkModelConfig "m" 0 [] [])) 1)
    [source_input "S" true [3] [slice 10 0 12];
     source_input "A" false [8] [slice 11 0 32];
     source_input "B" false [4] [slice 12 0 16]].

(** The same request, with the data of S given in two slices of 8 and of
    4 bytes. *)
Definition two_slice_source : InferenceRequest :=
  set_original_inputs
    (new_InferenceRequest (SetModelConfig 1 (mkModelConfig "m" 0 [] [])) 1)
    [source_input "S" true [3] [slice 10 0 8; slice 10 8 4];
     source_input "A" false [8] [slice 11 0 32];
     source_input "B" false [4] [slice 12 0 16]].

(** A model without batching that declares the inputs ZEROS and NOISE,
    with two warmup settings over [warmup_inputs]: one with batch size 0,
    which is skipped, and one with batch size 2.  TEXT is not declared
    by the model, so it is an override input. *)
Definition warmup_backend : InferenceBackend :=
  SetModelConfig 1
    (mkModelConfig "warm" 0
       [mkModelInput "ZEROS" TYPE_FP32 [4; 4] None false;
        mkModelInput "NOISE" TYPE_INT64 [10] None false]
       [mkModelOutput "OUT0" TYPE_FP32 [4; 4]]).

Definition warmup_settings : list ModelWarmup :=
  [mkModelWarmup "skipped" 0 warmup_inputs;
   mkModelWarmup "sample" 2 warmup_inputs].


(** Instance groups: two instances on the CPU, one per GPU 0 and 1, and a
    passive one. *)
Definition example_groups : list ModelInstanceGroup :=
  [mkInstanceGroup "cpu" KIND_CPU 2 [] [] false 0;
   mkInstanceGroup "gpu" KIND_GPU 1 [0; 1] ["profile"] false 0;
   mkInstanceGroup "spare" KIND_MODEL 1 [] [] true 0].

(** A [nvinfer1::Dims] with room for 8 dimensions. *)
Definition empty_Dims : Dims := mkDims 0 (replicate 8 0).

End Examples.

(** * Properties *)

(** ** Release *)

Lemma release_callbacks_of_calls (l : list N) :
  release_callbacks_of (EvReleaseCallback <$> l) = l.
Proof.
  induction l as [|id l IH]; [reflexivity|].
  cbn. unfold release_callbacks_of in IH. by rewrite IH.
Qed.

Lemma releases_of_calls (l : list N) :
  releases_of (EvReleaseCallback <$> l) = [].
Proof. induction l as [|id l IH]; [reflexivity|]. exact IH. Qed.

Lemma responses_of_calls (l : list N) :
  responses_of (EvReleaseCallback <$> l) = [].
Proof. induction l as [|id l IH]; [reflexivity|]. exact IH. Qed.

Lemma releases_of_app (a b : list Event) :
  releases_of (a ++ b) = releases_of a ++ releases_of b.
Proof. apply omap_app. Qed.

Lemma responses_of_app (a b : list Event) :
  responses_of (a ++ b) = responses_of a ++ responses_of b.
Proof. apply omap_app. Qed.

Lemma release_callbacks_of_app (a b : list Event) :
  release_callbacks_of (a ++ b)
  = release_callbacks_of a ++ release_callbacks_of b.
Proof. apply omap_app. Qed.

Lemma releases_of_Release (request : InferenceRequest) (flags : Z) :
  releases_of (Release request flags)
  = [(set_release_callbacks request [], flags)].
Proof.
  unfold Release. rewrite releases_of_app, releases_of_calls. reflexivity.
Qed.

Lemma responses_of_Release (request : InferenceRequest) (flags : Z) :
  responses_of (Release request flags) = [].
Proof.
  unfold Release. rewrite responses_of_app, responses_of_calls. reflexivity.
Qed.

(** C7.  [Release] runs the internal release callbacks from the last
    registered to the first: the call number [i] is the callback registered
    at position [n - 1 - i].  The release function of the user comes after
    all of them, is called once, and receives the request with an empty
    list of callbacks. *)
Theorem Release_callbacks_lifo_then_user_release
    (request : InferenceRequest) (flags : Z) :
  let n := length (release_callbacks_ request) in
  let trace := Release request flags in
  length trace = S n
  ∧ (∀ i id, (i < n)%nat →
       release_callbacks_ request !! (n - 1 - i)%nat = Some id →
       trace !! i = Some (EvReleaseCallback id))
  ∧ release_callbacks_of trace = reverse (release_callbacks_ request)
  ∧ (∃ released,
       trace !! n
       = Some (EvRelease (release_fn_ request) released flags
                         (release_userp_ request))
       ∧ release_callbacks_ released = []
       ∧ released = set_release_callbacks request []
       ∧ releases_of trace = [(released, flags)]).
Proof.
  intros n trace. subst trace. unfold Release.
  set (calls := EvReleaseCallback <$> reverse (release_callbacks_ request)).
  assert (Hlen : length calls = n).
  { unfold calls. by rewrite length_fmap, length_reverse. }
  split; [|split; [|split]].
  - rewrite length_app, Hlen. cbn. lia.
  - intros i id Hi Hid.
    rewrite lookup_app_l by lia.
    unfold calls. rewrite list_lookup_fmap.
    assert (Hrev : reverse (release_callbacks_ request) !! i = Some id).
    { rewrite reverse_lookup by (fold n; lia).
      fold n. rewrite <- Hid. f_equal. lia. }
    by rewrite Hrev.
  - rewrite release_callbacks_of_app. unfold calls.
    rewrite release_callbacks_of_calls. cbn. by rewrite app_nil_r.
  - exists (set_release_callbacks request []).
    split; [|split; [|split]]; try reflexivity.
    + rewrite lookup_app_r by lia. rewrite Hlen, Nat.sub_diag. reflexivity.
    + fold (Release request flags). apply releases_of_Release.
Qed.

Lemma Release_callbacks_lifo_witness :
  release_callbacks_of
    (Release Examples.request_with_callbacks TRITONSERVER_REQUEST_RELEASE_ALL)
  = [3%N; 2%N; 1%N]
  ∧ Release Examples.request_with_callbacks TRITONSERVER_REQUEST_RELEASE_ALL
      !! 0%nat
    = Some (EvReleaseCallback 3).
Proof.
  pose proof (Release_callbacks_lifo_then_user_release
                Examples.request_with_callbacks
                TRITONSERVER_REQUEST_RELEASE_ALL) as (_ & Hpos & Hall & _).
  split.
  - exact Hall.
  - apply Hpos; [vm_compute; lia | reflexivity].
Defined.

(** ** RespondIfError and Execute *)

Lemma status_of_error_not_ok (err : TRITONSERVER_Error) :
  IsOk (status_of_error err) = false.
Proof. by destruct err as [[] msg]. Qed.

Lemma RespondIfError_error (request : InferenceRequest) (status : Status) :
  IsOk status = false →
  RespondIfError request status true
  = EvResponseComplete (error_response request status)
                       TRITONSERVER_RESPONSE_COMPLETE_FINAL
    :: Release request TRITONSERVER_REQUEST_RELEASE_ALL.
Proof. intros Hok. unfold RespondIfError. by rewrite Hok. Qed.

Lemma RespondIfError_ok (request : InferenceRequest) (status : Status)
    (release_request : bool) :
  IsOk status = true → RespondIfError request status release_request = [].
Proof. intros Hok. unfold RespondIfError. by rewrite Hok. Qed.

Lemma responses_of_error_trace status (requests : list InferenceRequest) :
  responses_of (error_trace status requests)
  = (fun request => (error_response request status,
                     TRITONSERVER_RESPONSE_COMPLETE_FINAL)) <$> requests.
Proof.
  induction requests as [|request requests IH]; [reflexivity|].
  unfold error_trace in *. cbn [fmap list_fmap concat].
  rewrite responses_of_app. cbn [app].
  change (responses_of (?e :: ?l)) with
    (match e with
     | EvResponseComplete response flags => [(response, flags)]
     | _ => []
     end ++ responses_of l).
  cbn. rewrite responses_of_Release. cbn. by f_equal.
Qed.

Lemma releases_of_error_trace status (requests : list InferenceRequest) :
  releases_of (error_trace status requests)
  = (fun request => (set_release_callbacks request [],
                     TRITONSERVER_REQUEST_RELEASE_ALL)) <$> requests.
Proof.
  induction requests as [|request requests IH]; [reflexivity|].
  unfold error_trace in *. cbn [fmap list_fmap concat].
  rewrite releases_of_app.
  change (releases_of (EvResponseComplete ?r ?f :: ?l)) with (releases_of l).
  rewrite releases_of_Release. cbn. by f_equal.
Qed.

Lemma Execute_error (inst : TritonModelInstance)
    (requests : list InferenceRequest) (err : TRITONSERVER_Error) :
  inst_exec_fn inst requests = Some err →
  Execute inst requests = error_trace (status_of_error err) requests.
Proof.
  intros Herr. unfold Execute, error_trace. rewrite Herr.
  f_equal. apply list_fmap_ext. intros _ request _.
  apply RespondIfError_error, status_of_error_not_ok.
Qed.

(** C1.  When the exec hook returns an error, [Execute] gives every request
    of the batch, in the order of the batch, one response that carries the
    status of the error and is built from the response factory of the
    request, delivered with the FINAL flag, and then releases the request
    with RELEASE_ALL: the trace is the error trace, it has one response and
    one release per request.  When the exec hook succeeds the instance
    causes no event. *)
Theorem Execute_responds_and_releases_once_on_error
    (inst : TritonModelInstance) (requests : list InferenceRequest)
    (result : option TRITONSERVER_Error) :
  inst_exec_fn inst requests = result →
  match result with
  | Some err =>
      let status := status_of_error err in
      let trace := Execute inst requests in
      IsOk status = false
      ∧ trace = error_trace status requests
      ∧ responses_of trace
        = (fun request => (error_response request status,
                           TRITONSERVER_RESPONSE_COMPLETE_FINAL))
            <$> requests
      ∧ releases_of trace
        = (fun request => (set_release_callbacks request [],
                           TRITONSERVER_REQUEST_RELEASE_ALL))
            <$> requests
  | None => Execute inst requests = []
  end.
Proof.
  intros Hres. destruct result as [err|].
  - cbn zeta. rewrite (Execute_error _ _ _ Hres).
    split; [apply status_of_error_not_ok|].
    split; [reflexivity|].
    split; [apply responses_of_error_trace | apply releases_of_error_trace].
  - unfold Execute. by rewrite Hres.
Qed.

Lemma Execute_error_witness :
  responses_of (Execute Examples.failing_instance Examples.three_requests)
  = (fun request =>
       (error_response request (mkStatus UNAVAILABLE "busy"),
        TRITONSERVER_RESPONSE_COMPLETE_FINAL))
      <$> Examples.three_requests
  ∧ length (releases_of
              (Execute Examples.failing_instance Examples.three_requests))
    = 3%nat.
Proof.
  pose proof (Execute_responds_and_releases_once_on_error
                Examples.failing_instance Examples.three_requests
                (Some Examples.unavailable) eq_refl) as (_ & _ & Hresp & Hrel).
  split.
  - exact Hresp.
  - rewrite Hrel. reflexivity.
Defined.

(** ** Payload::Execute *)

Section payload_properties.
Context {Options : BuildOptions}.

Lemma WarmUpFunc_status (inst : TritonModelInstance) (now : Z) :
  (WarmUpFunc inst now).1 = Success.
Proof. reflexivity. Qed.

(** C9.  An INFER_RUN payload always completes its status channel with
    success, whatever the exec hook returned: its events are those of
    [Execute] followed by the completion function, so an error of the
    exec hook is visible only as the error responses of the requests.  A
    payload whose status is not OK is an INIT or a WARM_UP payload. *)
Theorem Payload_Execute_infer_run_completes_with_success
    (p : Payload) (now : Z) :
  let result := Payload_Execute p now in
  (op_type_ p = INFER_RUN →
     status_ result = Success
     ∧ should_exit result = false
     ∧ events result
       = Execute (instance_ p) (payload_requests_ p) ++ [EvOnCompletion]
     ∧ ∀ err,
         inst_exec_fn (instance_ p) (payload_requests_ p) = Some err →
         IsOk (status_of_error err) = false
         ∧ responses_of (events result)
           = (fun request =>
                (error_response request (status_of_error err),
                 TRITONSERVER_RESPONSE_COMPLETE_FINAL))
               <$> payload_requests_ p)
  ∧ (IsOk (status_ result) = false →
       op_type_ p = INIT ∨ op_type_ p = WARM_UP).
Proof.
  intros result. subst result. unfold Payload_Execute. split.
  - intros Hop. rewrite Hop. cbn.
    repeat split.
    + apply status_of_error_not_ok.
    + unfold ScheduleFunc. rewrite (Execute_error _ _ _ H).
      rewrite responses_of_app, responses_of_error_trace. cbn.
      by rewrite app_nil_r.
  - destruct (op_type_ p); cbn; intros Hok;
      try discriminate; auto.
Qed.
End payload_properties.

Lemma Payload_Execute_witness :
  status_ (Payload_Execute (Options := Examples.example_options)
             Examples.infer_payload 0) = Success
  ∧ (op_type_ Examples.init_payload = INIT
     ∨ op_type_ Examples.init_payload = WARM_UP).
Proof.
  pose proof (Payload_Execute_infer_run_completes_with_success
                (Options := Examples.example_options)
                Examples.infer_payload 0) as [Hrun _].
  pose proof (Payload_Execute_infer_run_completes_with_success
                (Options := Examples.example_options)
                Examples.init_payload 0) as [_ Hbad].
  split.
  - apply Hrun. reflexivity.
  - apply Hbad. reflexivity.
Defined.

(** ** Normalize: the requested outputs *)

Lemma fold_left_output_names (outputs : list ModelOutput) (acc : gset string) :
  fold_left (fun s output => s ∪ {[mo_name output]}) outputs acc
  = acc ∪ list_to_set (mo_name <$> outputs).
Proof.
  revert acc. induction outputs as [|o outputs IH]; intros acc; cbn.
  - set_solver.
  - rewrite IH. set_solver.
Qed.

Lemma validate_requested_outputs_code (b : InferenceBackend) (names : list string) :
  validate_requested_outputs b names = Success
  ∨ StatusCode (validate_requested_outputs b names) = INVALID_ARG.
Proof.
  induction names as [|n names IH]; cbn; [by left|].
  unfold GetOutput. destruct (output_map_ b !! n); [exact IH | by right].
Qed.

Lemma validate_requested_outputs_ok (b : InferenceBackend) (names : list string) :
  IsOk (validate_requested_outputs b names) = true ↔
  ∀ name, name ∈ names → is_Some (output_map_ b !! name).
Proof.
  induction names as [|n names IH]; cbn.
  - split; [|done]. intros _ name Hin. by apply elem_of_nil in Hin.
  - unfold GetOutput. destruct (output_map_ b !! n) as [o|] eqn:Hn.
    + rewrite IH. split.
      * intros Hall name [->|Hin]%elem_of_cons; [by rewrite Hn | by apply Hall].
      * intros Hall name Hin. apply Hall. by right.
    + split; [done|]. intros Hall.
      destruct (Hall n) as [o Ho]; [by left | congruence].
Qed.

Section normalize_properties.
Context {Fmt : Formatting} {Options : BuildOptions}.

(** [Normalize] writes [requested_outputs_], [batch_size_] and the
    entries of [original_inputs_], and nothing else. *)
Lemma Normalize_writes (r : InferenceRequest) :
  ∃ outputs batch_size l,
    (Normalize r).2
    = set_original_inputs
        (set_batch_size (set_requested_outputs r outputs) batch_size) l.
Proof.
  unfold Normalize, normalize_outputs, normalize_batch, batch_phase,
    normalize_inputs.
  destruct r as [bk v nn b cs l ov ins oro ro q rs rf fn up cbs]. cbn.
  repeat (case_bool_decide || case_match); cbn in *; simplify_eq.
  all: eexists _, _, _;
    cbv [set_original_inputs set_batch_size set_requested_outputs]; cbn;
    reflexivity.
Qed.

Lemma normalize_batch_writes (r : InferenceRequest) :
  ∃ batch_size l,
    (normalize_batch r).2 = set_original_inputs (set_batch_size r batch_size) l.
Proof.
  unfold normalize_batch. repeat case_match; cbn; eauto.
Qed.

Lemma normalize_inputs_writes (r : InferenceRequest) :
  ∃ l, (normalize_inputs r).2 = set_original_inputs r l.
Proof. unfold normalize_inputs. repeat case_match; cbn; eauto. Qed.

(** Once the requested outputs are settled the rest of [Normalize] does
    not touch them. *)
Lemma Normalize_requested_outputs_field (r : InferenceRequest) :
  requested_outputs_ (Normalize r).2 = requested_outputs_ (normalize_outputs r).2.
Proof.
  unfold Normalize. destruct (normalize_outputs r) as [st r1]. cbn.
  destruct (negb (IsOk st)); [done|].
  case_bool_decide; [done|].
  destruct (normalize_batch_writes r1) as (b & l & Hb).
  destruct (normalize_batch r1) as [st2 r2]. cbn in Hb. subst r2.
  destruct (negb (IsOk st2)); [done|].
  case_bool_decide; [done|].
  match goal with |- context [normalize_inputs ?x] =>
    destruct (normalize_inputs_writes x) as (l' & Hl');
    destruct (normalize_inputs x) as [st3 r3] end.
  cbn in Hl'. subst r3. done.
Qed.

Lemma Normalize_outputs_failure (r : InferenceRequest) :
  IsOk (normalize_outputs r).1 = false →
  (Normalize r).1 = (normalize_outputs r).1.
Proof.
  unfold Normalize. destruct (normalize_outputs r) as [st r1]. cbn.
  by intros ->.
Qed.

Lemma Normalize_outputs_ok (r : InferenceRequest) :
  IsOk (Normalize r).1 = true → IsOk (normalize_outputs r).1 = true.
Proof.
  intros Hok. destruct (IsOk (normalize_outputs r).1) eqn:Hout; [done|].
  rewrite (Normalize_outputs_failure _ Hout) in Hok. congruence.
Qed.

(** C2.  After a successful [Normalize] the effective requested outputs
    are the names of all the outputs that the model declares when the
    request names none, and the outputs that the request names otherwise;
    in the second case every one of them resolves with [GetOutput].  When
    the request names an output that the model does not have, [Normalize]
    fails with INVALID_ARG. *)
Theorem Normalize_requested_outputs (r : InferenceRequest) :
  let st := (Normalize r).1 in
  let r' := (Normalize r).2 in
  (IsOk st = true →
     OriginalRequestedOutputs r' = OriginalRequestedOutputs r
     ∧ (OriginalRequestedOutputs r = ∅ →
          ImmutableRequestedOutputs r'
          = list_to_set (mo_name <$> mc_output (config_ (backend_raw_ r))))
     ∧ (OriginalRequestedOutputs r ≠ ∅ →
          ImmutableRequestedOutputs r' = OriginalRequestedOutputs r
          ∧ ∀ name, name ∈ OriginalRequestedOutputs r →
              ∃ output, GetOutput (backend_raw_ r) name = inr output))
  ∧ ((∃ name, name ∈ OriginalRequestedOutputs r
              ∧ output_map_ (backend_raw_ r) !! name = None) →
       StatusCode st = INVALID_ARG).
Proof.
  intros st r'. subst st r'.
  assert (Horo : original_requested_outputs_ (Normalize r).2
                 = original_requested_outputs_ r).
  { destruct (Normalize_writes r) as (o & b & l & ->). reflexivity. }
  unfold OriginalRequestedOutputs, ImmutableRequestedOutputs.
  rewrite Horo, Normalize_requested_outputs_field.
  split.
  - intros Hok%Normalize_outputs_ok. split; [done|].
    unfold normalize_outputs in *. cbn in *. split.
    + intros Hempty. rewrite Hempty in *.
      rewrite bool_decide_eq_true_2 by done.
      rewrite bool_decide_eq_true_2 by done. cbn.
      rewrite fold_left_output_names. set_solver.
    + intros Hne. rewrite bool_decide_eq_false_2 by done.
      split; [done|]. intros name Hin.
      rewrite bool_decide_eq_false_2 in Hok
        by (intros Hs%size_empty_iff; apply Hne; set_solver).
      cbn in Hok. rewrite validate_requested_outputs_ok in Hok.
      destruct (Hok name) as [output Ho]; [by apply elem_of_elements|].
      exists output. unfold GetOutput. by rewrite Ho.
  - intros (name & Hin & Hnone).
    assert (Hne : size (original_requested_outputs_ r) ≠ 0%nat).
    { intros Hs%size_empty_iff. set_solver. }
    assert (Hbad : IsOk (normalize_outputs r).1 = false).
    { unfold normalize_outputs. cbn.
      rewrite bool_decide_eq_false_2 by done. cbn.
      apply not_true_is_false. rewrite validate_requested_outputs_ok.
      intros Hall. destruct (Hall name) as [o Ho]; [by apply elem_of_elements|].
      congruence. }
    rewrite (Normalize_outputs_failure _ Hbad).
    unfold normalize_outputs in *. cbn in *.
    rewrite bool_decide_eq_false_2 in * by done. cbn in *.
    destruct (validate_requested_outputs_code (backend_raw_ r)
                (elements (original_requested_outputs_ r))) as [Heq|Hc];
      [|done].
    rewrite Heq in Hbad. done.
Qed.

(** ** Normalize: the status *)

Lemma for_each_input_status {S : Type}
    (body : S → string → Input → Status + S * Input) (P : Status → Prop)
    (s : S) (l : list (string * Input)) :
  P Success →
  (∀ s k input err, body s k input = inl err → P err) →
  P (for_each_input body s l).1.1.
Proof.
  intros Hsucc Herr. revert s.
  induction l as [|[k input] l IH]; intros s; cbn; [done|].
  destruct (body s k input) as [err|[s' input']] eqn:Hbody.
  - cbn. eauto.
  - specialize (IH s').
    destruct (for_each_input body s' l) as [[st s''] l']. done.
Qed.

Lemma GetInput_error (b : InferenceBackend) (k : string) (err : Status) :
  GetInput b k = inl err → StatusCode err = INVALID_ARG.
Proof.
  unfold GetInput. destruct (input_map_ b !! k); [done|].
  by intros [= <-].
Qed.

Lemma batch_body_error bk b k input err :
  batch_body bk b k input = inl err → StatusCode err = INVALID_ARG.
Proof.
  unfold batch_body.
  destruct (GetInput bk k) as [e|cfg] eqn:Hget.
  - intros [= <-]. by eapply GetInput_error.
  - repeat case_match; intros [= <-]; done.
Qed.

Lemma check_body_error bk b k input err :
  check_body bk b k input = inl err → StatusCode err = INVALID_ARG.
Proof.
  unfold check_body.
  destruct (GetInput bk k) as [e|cfg] eqn:Hget.
  - intros [= <-]. by eapply GetInput_error.
  - repeat case_match; intros [= <-]; done.
Qed.

Lemma normalize_outputs_status (r : InferenceRequest) :
  ok_or_invalid_arg (normalize_outputs r).1.
Proof.
  unfold normalize_outputs. cbn. case_bool_decide; cbn; [by left|].
  apply validate_requested_outputs_code.
Qed.

Lemma normalize_batch_status (r : InferenceRequest) :
  ok_or_invalid_arg (normalize_batch r).1.
Proof.
  unfold normalize_batch, batch_phase. case_bool_decide; cbn; [by left|].
  pose proof (for_each_input_status (batch_body (backend_raw_ r))
                ok_or_invalid_arg 0 (original_inputs_ r)) as Hst.
  destruct (for_each_input (batch_body (backend_raw_ r)) 0
              (original_inputs_ r)) as [[st b] l]. cbn in *.
  apply Hst; [by left|].
  intros s k input err Herr. right. by eapply batch_body_error.
Qed.

Lemma normalize_inputs_status (r : InferenceRequest) :
  ok_or_invalid_arg (normalize_inputs r).1.
Proof.
  unfold normalize_inputs.
  pose proof (for_each_input_status (check_body (backend_raw_ r))
                ok_or_invalid_arg (batch_size_ r) (original_inputs_ r))
    as Hst.
  destruct (for_each_input (check_body (backend_raw_ r)) (batch_size_ r)
              (original_inputs_ r)) as [[st b] l]. cbn in *.
  apply Hst; [by left|].
  intros s k input err Herr. right. by eapply check_body_error.
Qed.

Lemma Normalize_status (r : InferenceRequest) :
  ok_or_invalid_arg (Normalize r).1.
Proof.
  unfold Normalize.
  pose proof (normalize_outputs_status r) as H1.
  destruct (normalize_outputs r) as [st1 r1]. cbn in H1.
  destruct (negb (IsOk st1)); [done|].
  case_bool_decide; [by right|].
  pose proof (normalize_batch_status r1) as H2.
  destruct (normalize_batch r1) as [st2 r2]. cbn in H2.
  destruct (negb (IsOk st2)); [done|].
  case_bool_decide; [by right|].
  apply normalize_inputs_status.
Qed.

Lemma ok_or_invalid_arg_ok (st : Status) :
  ok_or_invalid_arg st → IsOk st = true → st = Success.
Proof.
  intros [->|Hc] Hok; [done|]. unfold IsOk in Hok.
  apply bool_decide_eq_true_1 in Hok. congruence.
Qed.

Lemma ok_or_invalid_arg_error (st : Status) :
  ok_or_invalid_arg st → IsOk st = false → StatusCode st = INVALID_ARG.
Proof. intros [->|Hc] Hok; done. Qed.

(** ** PrepareForInference *)

Lemma clear_inputs_id (r : InferenceRequest) :
  inputs_ r = ∅ → override_inputs_ r = ∅ → clear_inputs r = r.
Proof. destruct r. cbn. by intros -> ->. Qed.

Lemma PrepareForInference_failure (r : InferenceRequest) :
  IsOk (PrepareForInference r).1 = false →
  needs_normalization_ r = true
  ∧ PrepareForInference r = Normalize (clear_inputs r).
Proof.
  unfold PrepareForInference.
  replace (needs_normalization_ (clear_inputs r))
    with (needs_normalization_ r) by by destruct r.
  destruct (needs_normalization_ r); [|by cbn].
  destruct (Normalize (clear_inputs r)) as [st r1].
  destruct (IsOk st) eqn:Hok; cbn; [done|].
  rewrite Hok. by cbn.
Qed.

(** C10.  When [PrepareForInference] returns an error, the error is the
    INVALID_ARG of [Normalize]; the request is left with no entry in
    [inputs_] and none in [override_inputs_], and [needs_normalization_]
    is still set, so that the status of the next [PrepareForInference] is
    again the one of [Normalize]. *)
Theorem PrepareForInference_error_leaves_inputs_empty
    (r : InferenceRequest) :
  IsOk (PrepareForInference r).1 = false →
  let r' := (PrepareForInference r).2 in
  StatusCode (PrepareForInference r).1 = INVALID_ARG
  ∧ ImmutableInputs r' = ∅
  ∧ OverrideInputs r' = ∅
  ∧ needs_normalization_ r' = true
  ∧ PrepareForInference r = Normalize (clear_inputs r)
  ∧ (PrepareForInference r').1 = (Normalize r').1.
Proof.
  intros Hfail r'. subst r'.
  destruct (PrepareForInference_failure r Hfail) as [Hnn Heq].
  rewrite Heq in *.
  destruct (Normalize_writes (clear_inputs r)) as (o & b & l & Hw).
  split; [by apply ok_or_invalid_arg_error, Hfail; apply Normalize_status|].
  rewrite Hw.
  split; [done|]. split; [done|]. split; [by destruct r|].
  split; [done|].
  set (r1 := set_original_inputs _ _).
  unfold PrepareForInference.
  rewrite (clear_inputs_id r1) by done.
  replace (needs_normalization_ r1) with true by (by destruct r; cbn in *).
  pose proof (Normalize_status r1) as Hst.
  destruct (Normalize r1) as [st r2]. cbn in *.
  destruct (IsOk st) eqn:Hok; cbn.
  - by rewrite (ok_or_invalid_arg_ok _ Hst Hok).
  - by rewrite Hok.
Qed.

(** ** Normalize is idempotent *)

Lemma for_each_input_length {S : Type}
    (body : S → string → Input → Status + S * Input) s l :
  length (for_each_input body s l).2 = length l.
Proof.
  revert s. induction l as [|[k x] l IH]; intros s; cbn; [done|].
  destruct (body s k x) as [err|[s' x']]; [done|].
  specialize (IH s'). destruct (for_each_input body s' l) as [[st s''] l'].
  cbn in *. by rewrite IH.
Qed.

Lemma for_each_input_map {S : Type} (f : Input → Input) (s : S) l :
  for_each_input (fun s _ x => inr (s, f x)) s l
  = (Success, s, prod_map id f <$> l).
Proof.
  induction l as [|[k x] l IH]; cbn; [done|]. by rewrite IH.
Qed.

(** A loop that is run again on its own result does the same. *)
Lemma for_each_input_again {S : Type}
    (body : S → string → Input → Status + S * Input) :
  (∀ s k x s' x', body s k x = inr (s', x') → body s k x' = inr (s', x')) →
  ∀ l s st s' l',
    for_each_input body s l = (st, s', l') →
    for_each_input body s l' = (st, s', l').
Proof.
  intros Hbody. induction l as [|[k x] l IH]; intros s st s' l'; cbn.
  - by intros [= <- <- <-].
  - destruct (body s k x) as [err|[s1 x1]] eqn:Hb.
    + intros [= <- <- <-]. cbn. by rewrite Hb.
    + destruct (for_each_input body s1 l) as [[st2 s2] l2] eqn:Hrest.
      intros [= <- <- <-]. cbn. rewrite (Hbody _ _ _ _ _ Hb).
      by rewrite (IH _ _ _ _ Hrest).
Qed.

(** The first loop after the second one: when [l] is a result of the
    first loop, the first loop only undoes the shapes that the second one
    wrote, and the second loop then writes them again. *)
Lemma for_each_input_first_after_second
    (first second : Z → string → Input → Status + Z * Input) :
  (∀ s k x err, first s k x = inl err → err ≠ Success) →
  (∀ s k x s1 sh w,
     first s k x = inr (s1, x) →
     first s k (set_ShapeWithBatchDim (set_Shape x sh) w)
     = inr (s1, set_ShapeWithBatchDim x w)) →
  (∀ b k x b' x',
     second b k x = inr (b', x') →
     b' = b ∧ ∃ sh w, x' = set_ShapeWithBatchDim (set_Shape x sh) w) →
  (∀ b k x b' x' w,
     second b k x = inr (b', x') →
     second b k (set_ShapeWithBatchDim x w) = inr (b', x')) →
  ∀ l s b c st c' l',
    for_each_input first s l = (Success, b, l) →
    for_each_input second c l = (st, c', l') →
    ∃ l'', for_each_input first s l' = (Success, b, l'')
           ∧ for_each_input second c l'' = (st, c', l').
Proof.
  intros Herr Hfirst Hsecond Hagain.
  induction l as [|[k x] l IH]; intros s b c st c' l'; cbn.
  - intros [= <-] [= <- <- <-]. by exists [].
  - destruct (first s k x) as [err|[s1 x1]] eqn:Hf.
    { intros ?; simplify_eq. by apply Herr in Hf. }
    destruct (for_each_input first s1 l) as [[st2 s2] l2] eqn:Hrest.
    intros ?; simplify_eq.
    destruct (second c k x) as [err|[c1 x2]] eqn:Hs.
    + intros [= <- <- <-]. exists ((k, x) :: l). cbn.
      by rewrite Hf, Hrest, Hs.
    + destruct (for_each_input second c1 l) as [[st3 c3] l3] eqn:Hrest2.
      intros [= <- <- <-].
      destruct (Hsecond _ _ _ _ _ Hs) as (-> & sh & w & ->).
      destruct (IH _ _ _ _ _ _ Hrest Hrest2) as (l'' & Hl1 & Hl2).
      exists ((k, set_ShapeWithBatchDim x w) :: l''). cbn.
      rewrite (Hfirst _ _ _ _ sh w Hf), Hl1.
      by rewrite (Hagain _ _ _ _ _ w Hs), Hl2.
Qed.

Ltac simpl_decide :=
  repeat first [ rewrite bool_decide_eq_true_2 by done
               | rewrite bool_decide_eq_false_2 by done ].

Lemma batch_body_again bk s k x s' x' :
  batch_body bk s k x = inr (s', x') → batch_body bk s k x' = inr (s', x').
Proof.
  unfold batch_body. destruct (GetInput bk k) as [err|cfg]; [done|].
  destruct x as [n dt orig sh w ist d]; cbn.
  destruct (mi_is_shape_tensor cfg); [by intros [= <- <-]|].
  repeat case_bool_decide; intros [= <- <-]; cbn; by simpl_decide.
Qed.

Lemma batch_body_after_check bk s k x s1 sh w :
  batch_body bk s k x = inr (s1, x) →
  batch_body bk s k (set_ShapeWithBatchDim (set_Shape x sh) w)
  = inr (s1, set_ShapeWithBatchDim x w).
Proof.
  unfold batch_body. destruct (GetInput bk k) as [err|cfg]; [done|].
  destruct x as [n dt orig sh0 w0 ist d]; cbn.
  destruct (mi_is_shape_tensor cfg); [by intros [= <- <- <-]|].
  repeat case_bool_decide; intros [=]; simplify_eq; cbn; try done.
  all: by repeat f_equal.
Qed.

Lemma check_body_writes bk b k x b' x' :
  check_body bk b k x = inr (b', x') →
  b' = b ∧ ∃ sh w, x' = set_ShapeWithBatchDim (set_Shape x sh) w.
Proof.
  unfold check_body. destruct (GetInput bk k) as [err|cfg]; [done|].
  destruct x as [n dt orig sh0 w0 ist d]; cbn.
  repeat (case_bool_decide || case_match); intros [= <- <-]; try done.
  all: split; [done|]; eexists _, _;
    cbv [set_ShapeWithBatchDim set_Shape]; cbn; reflexivity.
Qed.

Lemma check_body_ignores_shape_with_batch_dim bk b k x b' x' w :
  check_body bk b k x = inr (b', x') →
  check_body bk b k (set_ShapeWithBatchDim x w) = inr (b', x').
Proof.
  unfold check_body. destruct (GetInput bk k) as [err|cfg]; [done|].
  destruct x as [n dt orig sh0 w0 ist d]; cbn.
  destruct (mi_reshape cfg); repeat case_bool_decide; cbn; done.
Qed.


(** The body that [batch_phase] runs over the inputs, in both of its
    cases. *)
Lemma batch_phase_loop bk l :
  batch_phase bk l
  = for_each_input
      (if bool_decide (mc_max_batch_size (config_ bk) = 0)
       then fun s _ x => inr (s, set_Shape x (original_shape_ x))
       else batch_body bk) 0 l.
Proof.
  unfold batch_phase. case_bool_decide; [|done].
  by rewrite for_each_input_map.
Qed.

Lemma batch_phase_again bk l st b l' :
  batch_phase bk l = (st, b, l') → batch_phase bk l' = (st, b, l').
Proof.
  rewrite !batch_phase_loop. apply for_each_input_again.
  case_bool_decide; [|apply batch_body_again].
  intros s k x s' x' [= <- <-]. by destruct x.
Qed.

Lemma batch_phase_after_check bk l b c st c' l' :
  batch_phase bk l = (Success, b, l) →
  for_each_input (check_body bk) c l = (st, c', l') →
  ∃ l'', batch_phase bk l' = (Success, b, l'')
         ∧ for_each_input (check_body bk) c l'' = (st, c', l').
Proof.
  rewrite batch_phase_loop. intros Hfirst Hsecond.
  setoid_rewrite batch_phase_loop.
  eapply for_each_input_first_after_second; [| | | |exact Hfirst|exact Hsecond].
  - case_bool_decide; [done|].
    intros s k x err Herr%batch_body_error ->. done.
  - case_bool_decide; [|apply batch_body_after_check].
    intros s k x s1 sh w [= <- Hx]. destruct x.
    unfold set_Shape, set_ShapeWithBatchDim in *; cbn in *. by simplify_eq.
  - apply check_body_writes.
  - apply check_body_ignores_shape_with_batch_dim.
Qed.

Lemma batch_phase_length bk l :
  length (batch_phase bk l).2 = length l.
Proof. rewrite batch_phase_loop. apply for_each_input_length. Qed.

Lemma for_each_input_ok_status {S : Type}
    (body : S → string → Input → Status + S * Input) s l :
  (∀ s k x err, body s k x = inl err → IsOk err = false) →
  IsOk (for_each_input body s l).1.1 = true →
  (for_each_input body s l).1.1 = Success.
Proof.
  intros Herr. revert s. induction l as [|[k x] l IH]; intros s; cbn; [done|].
  destruct (body s k x) as [err|[s' x']] eqn:Hb; cbn.
  - apply Herr in Hb. congruence.
  - specialize (IH s'). by destruct (for_each_input body s' l) as [[??]?].
Qed.

Lemma batch_phase_ok_status bk l :
  IsOk (batch_phase bk l).1.1 = true → (batch_phase bk l).1.1 = Success.
Proof.
  rewrite batch_phase_loop. apply for_each_input_ok_status.
  case_bool_decide; [done|].
  by intros s k x err Herr%batch_body_error; destruct err as [[] ?].
Qed.


Lemma Normalize_parts (r : InferenceRequest) :
  Normalize r
  = let '(st, outputs, b, l) :=
      normalize_parts (backend_raw_ r) (original_requested_outputs_ r)
                      (batch_size_ r) (original_inputs_ r) in
    (st, set_original_inputs
           (set_batch_size (set_requested_outputs r outputs) b) l).
Proof.
  destruct r as [bk v nn b cs l ov ins oro ro q rs rf fn up cbs].
  unfold Normalize, normalize_parts, normalize_outputs, normalize_batch,
    normalize_inputs, ModelName.
  cbn.
  case_bool_decide; cbn.
  - case_bool_decide; [done|].
    destruct (batch_phase bk l) as [[st2 b2] l2]. cbn.
    destruct (negb (IsOk st2)); [done|].
    case_bool_decide; [done|].
    by destruct (for_each_input (check_body bk) b2 l2) as [[st3 c] l3].
  - destruct (negb (IsOk (validate_requested_outputs bk (elements oro))));
      [done|].
    case_bool_decide; [done|].
    destruct (batch_phase bk l) as [[st2 b2] l2]. cbn.
    destruct (negb (IsOk st2)); [done|].
    case_bool_decide; [done|].
    by destruct (for_each_input (check_body bk) b2 l2) as [[st3 c] l3].
Qed.

Lemma normalize_parts_again bk oro b l st outputs b' l' :
  normalize_parts bk oro b l = (st, outputs, b', l') →
  normalize_parts bk oro b' l' = (st, outputs, b', l').
Proof.
  unfold normalize_parts. cbv zeta.
  set (O := if bool_decide (size oro = 0%nat) then fold_left _ _ _ else _).
  set (sto := if bool_decide (size oro = 0%nat) then Success else _).
  clearbody O sto.
  destruct (negb (IsOk sto)) eqn:Hsto.
  { intros ?; by simplify_eq. }
  case_bool_decide as Hlen.
  { intros ?; simplify_eq. by rewrite bool_decide_eq_true_2. }
  pose proof (batch_phase_length bk l) as Hlen2.
  pose proof (batch_phase_ok_status bk l) as Hst2.
  destruct (batch_phase bk l) as [[st2 b2] l2] eqn:Hb. cbn in Hlen2, Hst2.
  destruct (negb (IsOk st2)) eqn:Hok2.
  { intros ?; simplify_eq.
    rewrite bool_decide_eq_false_2 by congruence.
    rewrite (batch_phase_again _ _ _ _ _ Hb). by rewrite Hok2. }
  apply negb_false_iff in Hok2. rewrite (Hst2 Hok2) in Hb.
  apply batch_phase_again in Hb as Hfix.
  case_bool_decide as Hmax.
  { intros ?; simplify_eq.
    rewrite bool_decide_eq_false_2 by congruence.
    rewrite Hfix. cbn. by rewrite bool_decide_eq_true_2. }
  pose proof (for_each_input_length (check_body bk) b2 l2) as Hlen3.
  destruct (for_each_input (check_body bk) b2 l2) as [[st3 c] l3] eqn:Hc.
  cbn in Hlen3. intros ?; simplify_eq.
  rewrite bool_decide_eq_false_2 by congruence.
  destruct (batch_phase_after_check _ _ _ _ _ _ _ Hfix Hc) as (l'' & H1 & H2).
  rewrite H1. cbn. rewrite bool_decide_eq_false_2 by done.
  by rewrite H2.
Qed.

Theorem Normalize_idempotent (r : InferenceRequest) :
  Normalize (Normalize r).2 = Normalize r.
Proof.
  rewrite (Normalize_parts r).
  destruct (normalize_parts _ _ _ _) as [[[st outputs] b] l] eqn:Hparts.
  cbn [snd]. rewrite Normalize_parts. cbn.
  rewrite (normalize_parts_again _ _ _ _ _ _ _ _ Hparts).
  by destruct r.
Qed.

(** ** PrepareForInference is idempotent *)

Lemma PrepareForInference_prepared (r : InferenceRequest) :
  needs_normalization_ r = false →
  inputs_ r = emplace_original_inputs (original_inputs_ r) ∅ →
  override_inputs_ r = ∅ →
  queue_start_ns_ r = 0 →
  (TRITON_ENABLE_STATS = true → request_start_ns_ r = 0) →
  PrepareForInference r = (Success, r).
Proof.
  unfold PrepareForInference, clear_inputs.
  destruct r as [bk v nn b cs l ov ins oro ro q rs rf fn up cbs]. cbn.
  intros -> -> -> -> Hrs. cbn.
  destruct TRITON_ENABLE_STATS; [|done]. by rewrite Hrs.
Qed.

Lemma PrepareForInference_success (r : InferenceRequest) :
  IsOk (PrepareForInference r).1 = true →
  let r' := (PrepareForInference r).2 in
  (PrepareForInference r).1 = Success
  ∧ needs_normalization_ r' = false
  ∧ ImmutableInputs r' = emplace_original_inputs (OriginalInputs r') ∅
  ∧ OverrideInputs r' = ∅
  ∧ queue_start_ns_ r' = 0
  ∧ (TRITON_ENABLE_STATS = true → request_start_ns_ r' = 0).
Proof.
  unfold PrepareForInference.
  set (r0 := clear_inputs r).
  assert (Hin : inputs_ r0 = ∅) by done.
  assert (Hov : override_inputs_ r0 = ∅) by done.
  clearbody r0.
  destruct (needs_normalization_ r0) eqn:Hnn.
  - destruct (Normalize_writes r0) as (o & b & l & Hw).
    destruct (Normalize r0) as [st r1]. cbn [snd] in Hw. subst r1.
    destruct (IsOk st) eqn:Hok; cbn [negb fst snd]; cbv beta iota zeta;
      rewrite ?Hok; cbn [negb fst snd]; cbv beta iota zeta; rewrite ?Hok;
      [|congruence].
    change (negb (IsOk Success)) with false. cbv iota zeta.
    intros _.
    destruct TRITON_ENABLE_STATS; cbn; rewrite Hin, ?Hov; done.
  - change (negb (IsOk Success)) with false. cbv iota zeta.
    intros _.
    destruct TRITON_ENABLE_STATS; cbn; rewrite Hin, ?Hov, ?Hnn; done.
Qed.

(** C4.  [PrepareForInference] is idempotent: a second call right after
    the first returns the same status and leaves the same request, every
    member included.  When the calls succeed, the request has its
    original inputs as [inputs_], no override input, [needs_normalization_]
    cleared and the timestamps at zero. *)
Theorem PrepareForInference_idempotent (r : InferenceRequest) :
  PrepareForInference (PrepareForInference r).2 = PrepareForInference r
  ∧ (IsOk (PrepareForInference r).1 = true →
     let r' := (PrepareForInference r).2 in
     needs_normalization_ r' = false
     ∧ ImmutableInputs r' = emplace_original_inputs (OriginalInputs r') ∅
     ∧ OverrideInputs r' = ∅
     ∧ queue_start_ns_ r' = 0
     ∧ (TRITON_ENABLE_STATS = true → request_start_ns_ r' = 0)).
Proof.
  split; [|intros Hok; apply (PrepareForInference_success r Hok)].
  destruct (IsOk (PrepareForInference r).1) eqn:Hok.
  - destruct (PrepareForInference_success r Hok)
      as (Hst & Hnn & Hin & Hov & Hq & Hrs).
    rewrite PrepareForInference_prepared by done.
    rewrite <- Hst. by destruct (PrepareForInference r).
  - destruct (PrepareForInference_failure r Hok) as [Hnn Heq].
    rewrite Heq.
    destruct (Normalize_writes (clear_inputs r)) as (o & b & l & Hw).
    pose proof (Normalize_idempotent (clear_inputs r)) as Hidem.
    rewrite Heq in Hok.
    destruct (Normalize (clear_inputs r)) as [st r1]. cbn in *. subst r1.
    set (r1 := set_original_inputs _ _) in *.
    unfold PrepareForInference.
    rewrite (clear_inputs_id r1) by done.
    replace (needs_normalization_ r1) with true by (by destruct r; cbn in *).
    rewrite Hidem. cbn. rewrite Hok. cbn. by rewrite Hok.
Qed.

(** ** Normalize: the reshape *)

Lemma variable_size_values_loop (rest rest' pre pre' acc : list Z) :
  length pre = length pre' →
  length rest = length rest' →
  fold_left
    (fun deque (idx : nat) =>
       if bool_decide ((pre ++ rest) !!! idx = -1)
       then deque ++ [(pre' ++ rest') !!! idx]
       else deque)
    (seq (length pre) (length rest)) acc
  = acc ++ spec_recorded_values rest rest'.
Proof.
  revert rest' pre pre' acc.
  induction rest as [|d rest IH]; intros rest' pre pre' acc Hpre Hrest.
  - cbn. by rewrite app_nil_r.
  - destruct rest' as [|v rest']; [done|]. cbn [length seq fold_left].
    rewrite list_lookup_total_middle by done.
    rewrite (list_lookup_total_middle pre' rest') by done.
    replace (S (length pre)) with (length (pre ++ [d]))
      by (rewrite length_app; cbn; lia).
    rewrite (cons_middle d pre rest), (cons_middle v pre' rest'), !app_assoc.
    rewrite IH by (rewrite ?length_app; cbn in *; lia).
    unfold spec_recorded_values. cbn [zip zip_with].
    rewrite filter_cons. cbn [fst].
    case_bool_decide; case_decide; try done.
    by rewrite <- app_assoc.
Qed.

Lemma variable_size_values_spec (dims shape : list Z) :
  length dims = length shape →
  variable_size_values dims shape = spec_recorded_values dims shape.
Proof.
  intros Hlen. unfold variable_size_values.
  apply (variable_size_values_loop dims shape [] [] []); done.
Qed.

Lemma reshape_shape_loop (target deque acc out : list Z) :
  spec_substitute target deque = Some out →
  (fold_left
     (fun (st : list Z * list Z) (dim : Z) =>
        if bool_decide (dim = -1)
        then (tail st.1, st.2 ++ [hd 0 st.1])
        else (st.1, st.2 ++ [dim]))
     target (deque, acc)).2
  = acc ++ out.
Proof.
  revert deque acc out.
  induction target as [|dim target IH]; intros deque acc out; cbn.
  - intros [= <-]. by rewrite app_nil_r.
  - case_bool_decide.
    + destruct deque as [|v deque]; [done|]. cbn.
      destruct (spec_substitute target deque) as [out'|] eqn:Hsub; [|done].
      intros [= <-]. rewrite (IH _ _ _ Hsub). by rewrite <- app_assoc.
    + destruct (spec_substitute target deque) as [out'|] eqn:Hsub; [|done].
      intros [= <-]. rewrite (IH _ _ _ Hsub). by rewrite <- app_assoc.
Qed.

Lemma reshape_shape_spec (target deque out : list Z) :
  spec_substitute target deque = Some out →
  reshape_shape target deque = out.
Proof. intros Hsub. unfold reshape_shape. by rewrite (reshape_shape_loop _ _ [] out). Qed.

Lemma spec_substitute_total (target recorded : list Z) :
  (count_wildcards target ≤ length recorded)%nat →
  is_Some (spec_substitute target recorded).
Proof.
  revert recorded. unfold count_wildcards.
  induction target as [|dim target IH]; intros recorded;
    cbn [spec_substitute]; [by eexists|].
  rewrite filter_cons. case_decide; case_bool_decide; try done; cbn [length].
  - destruct recorded as [|v recorded]; cbn; [lia|]. intros Hle.
    destruct (IH recorded) as [out ->]; [lia|]. by eexists.
  - intros Hle. destruct (IH recorded) as [out ->]; [lia|]. by eexists.
Qed.

Lemma spec_recorded_values_length (dims shape : list Z) :
  length dims = length shape →
  length (spec_recorded_values dims shape) = count_wildcards dims.
Proof.
  unfold spec_recorded_values, count_wildcards. rewrite length_fmap.
  revert shape. induction dims as [|d dims IH]; intros [|v shape] Hlen;
    try done.
  cbn [zip zip_with]. rewrite !filter_cons. cbn [fst].
  case_decide; cbn; rewrite IH by (cbn in Hlen; lia); done.
Qed.

Lemma CompareDimsWithWildcard_length (model_dims dims : list Z) :
  CompareDimsWithWildcard model_dims dims = true →
  length model_dims = length dims.
Proof.
  unfold CompareDimsWithWildcard. case_bool_decide as Hlen; [done|].
  intros _. destruct (decide (length model_dims = length dims)); [done|].
  by destruct Hlen.
Qed.

(** The reshape of the code is the reshape of the specification. *)
Lemma reshape_refines_spec (dims target shape : list Z) :
  CompareDimsWithWildcard dims shape = true →
  (count_wildcards target ≤ count_wildcards dims)%nat →
  spec_reshape dims target shape
  = Some (reshape_shape target (variable_size_values dims shape)).
Proof.
  intros Hlen%CompareDimsWithWildcard_length Hcount.
  unfold spec_reshape. rewrite variable_size_values_spec by done.
  destruct (spec_substitute_total target (spec_recorded_values dims shape))
    as [out Hout]; [by rewrite spec_recorded_values_length|].
  rewrite Hout. f_equal. symmetry. by apply reshape_shape_spec.
Qed.

Lemma for_each_input_lookup {S : Type}
    (body : S → string → Input → Status + S * Input) s l i k x :
  (∀ s k x err, body s k x = inl err → IsOk err = false) →
  IsOk (for_each_input body s l).1.1 = true →
  l !! i = Some (k, x) →
  ∃ s1 s2 x',
    body s1 k x = inr (s2, x')
    ∧ (for_each_input body s l).2 !! i = Some (k, x').
Proof.
  intros Herr. revert s i.
  induction l as [|[k0 x0] l IH]; intros s i; cbn; [done|].
  destruct (body s k0 x0) as [err|[s' x0']] eqn:Hb; cbn.
  { apply Herr in Hb. congruence. }
  specialize (IH s').
  destruct (for_each_input body s' l) as [[st s''] l']. cbn in *.
  intros Hok. destruct i as [|i]; cbn.
  - intros [= -> ->]. by exists s, s', x0'.
  - by apply IH.
Qed.

Lemma batch_phase_lookup bk l i k x cfg :
  IsOk (batch_phase bk l).1.1 = true →
  l !! i = Some (k, x) →
  input_map_ bk !! k = Some cfg →
  ∃ x', (batch_phase bk l).2 !! i = Some (k, x')
        ∧ shape_ x' = batch_stripped_shape bk cfg x
        ∧ original_shape_ x' = original_shape_ x.
Proof.
  intros Hok Hl Hcfg. unfold batch_stripped_shape.
  rewrite batch_phase_loop in *. case_bool_decide as Hmax.
  - rewrite for_each_input_map. cbn. rewrite list_lookup_fmap, Hl. cbn.
    by eexists.
  - destruct (for_each_input_lookup (batch_body bk) 0 l i k x)
      as (s1 & s2 & x' & Hb & Hx'); [|done|done|].
    { by intros s k0 x0 err Herr%batch_body_error; destruct err as [[] ?]. }
    exists x'. split; [done|].
    unfold batch_body, GetInput in Hb. rewrite Hcfg in Hb.
    destruct (mi_is_shape_tensor cfg); [by simplify_eq|].
    repeat case_bool_decide; by simplify_eq.
Qed.

Lemma check_body_reshape bk b k x b' x' cfg target :
  check_body bk b k x = inr (b', x') →
  input_map_ bk !! k = Some cfg →
  mi_reshape cfg = Some target →
  CompareDimsWithWildcard (mi_dims cfg) (shape_ x) = true
  ∧ shape_ x'
    = reshape_shape target (variable_size_values (mi_dims cfg) (shape_ x)).
Proof.
  intros Hc Hcfg Htarget. unfold check_body, GetInput in Hc.
  rewrite Hcfg, Htarget in Hc.
  case_bool_decide; [done|].
  destruct (CompareDimsWithWildcard (mi_dims cfg) (shape_ x)); [|done].
  split; [done|]. cbn in Hc. case_bool_decide; by simplify_eq.
Qed.

(** What a successful [Normalize] went through. *)
Lemma Normalize_success (r : InferenceRequest) :
  IsOk (Normalize r).1 = true →
  ∃ b l2 c l3,
    batch_phase (backend_raw_ r) (original_inputs_ r) = (Success, b, l2)
    ∧ for_each_input (check_body (backend_raw_ r)) b l2 = (Success, c, l3)
    ∧ length (original_inputs_ r)
      = length (mc_input (config_ (backend_raw_ r)))
    ∧ uint32_to_int b ≤ mc_max_batch_size (config_ (backend_raw_ r))
    ∧ batch_size_ (Normalize r).2 = b
    ∧ original_inputs_ (Normalize r).2 = l3.
Proof.
  rewrite Normalize_parts. unfold normalize_parts. cbv zeta.
  set (bk := backend_raw_ r).
  set (O := if bool_decide _ then fold_left _ _ _ else _).
  set (sto := if bool_decide _ then Success else _).
  clearbody O sto.
  destruct (negb (IsOk sto)) eqn:Hsto.
  { cbn. apply negb_true_iff in Hsto. congruence. }
  case_bool_decide as Hlen; [done|].
  pose proof (batch_phase_ok_status bk (original_inputs_ r)) as Hst2.
  destruct (batch_phase bk (original_inputs_ r)) as [[st2 b2] l2] eqn:Hb.
  cbn in Hst2.
  destruct (IsOk st2) eqn:Hok2; cbn; [|congruence].
  rewrite (Hst2 eq_refl) in *.
  case_bool_decide as Hmax; [done|].
  pose proof (for_each_input_ok_status (check_body bk) b2 l2) as Hst3.
  destruct (for_each_input (check_body bk) b2 l2) as [[st3 c] l3] eqn:Hc.
  cbn in *. intros Hok3.
  assert (st3 = Success) as ->.
  { apply Hst3; [|done].
    by intros s k x err Herr%check_body_error; destruct err as [[] ?]. }
  exists b2, l2, c, l3. repeat split; try done; try lia.
Qed.

(** C6.  For an input whose model configuration declares a reshape, a
    successful [Normalize] replaces the working shape (the original shape
    without its batch dimension) by the reshape of the specification: the
    values at the positions where the declared dims are -1 are recorded
    from left to right, and the reshape target is emitted with its -1
    slots taking the recorded values in that order.  The configuration is
    supposed to have no more -1 in the reshape than in the dims. *)
Theorem Normalize_applies_reshape (r : InferenceRequest) (i : nat)
    (k : string) (input : Input) (cfg : ModelInput) (target : list Z) :
  IsOk (Normalize r).1 = true →
  OriginalInputs r !! i = Some (k, input) →
  input_map_ (backend_raw_ r) !! k = Some cfg →
  mi_reshape cfg = Some target →
  (count_wildcards target ≤ count_wildcards (mi_dims cfg))%nat →
  ∃ input',
    OriginalInputs (Normalize r).2 !! i = Some (k, input')
    ∧ spec_reshape (mi_dims cfg) target
        (batch_stripped_shape (backend_raw_ r) cfg input)
      = Some (shape_ input').
Proof.
  intros Hok Hl Hcfg Htarget Hcount. unfold OriginalInputs in *.
  destruct (Normalize_success r Hok)
    as (b & l2 & c & l3 & Hbatch & Hcheck & _ & _ & _ & ->).
  set (bk := backend_raw_ r) in *.
  destruct (batch_phase_lookup bk (original_inputs_ r) i k input cfg)
    as (x2 & Hl2 & Hshape & _); [by rewrite Hbatch|done|done|].
  rewrite Hbatch in Hl2. cbn in Hl2.
  destruct (for_each_input_lookup (check_body bk) b l2 i k x2)
    as (s1 & s2 & x3 & Hc & Hl3); [|by rewrite Hcheck|done|].
  { by intros s k0 x0 err Herr%check_body_error; destruct err as [[] ?]. }
  rewrite Hcheck in Hl3. cbn in Hl3.
  exists x3. split; [done|].
  destruct (check_body_reshape _ _ _ _ _ _ _ _ Hc Hcfg Htarget)
    as [Hdims ->].
  rewrite <- Hshape. by apply reshape_refines_spec.
Qed.
End normalize_properties.

(** ** Memory *)

Lemma new_AllocatedMemory_fresh (h : Heap) n mt id :
  ∃ block,
    new_AllocatedMemory h n mt id
    = (AllocatedMemory block n mt id, <[block := replicate n None]> h)
    ∧ h !! block = None.
Proof.
  exists (fresh (dom h)). split; [done|].
  apply not_elem_of_dom, is_fresh.
Qed.

(** ** GenerateWarmupData: the sizing pass and the zero buffer *)

Section warmup_properties.
Context {Helpers : WarmupHelpers}.

Lemma max_byte_size_nonneg (sizes : list Z) : 0 ≤ max_byte_size sizes.
Proof.
  unfold max_byte_size. induction sizes as [|x sizes IH]; cbn; lia.
Qed.

Lemma max_byte_size_upper (sizes : list Z) (x : Z) :
  x ∈ sizes → x ≤ max_byte_size sizes.
Proof.
  induction sizes as [|y sizes IH]; [by intros ?%elem_of_nil|].
  intros [->|Hin]%elem_of_cons; cbn; [lia|].
  specialize (IH Hin). unfold max_byte_size in IH. lia.
Qed.

Lemma filter_cons_bool {A : Type} (f : A → bool) (x : A) (l : list A) :
  filter f (x :: l) = if f x then x :: filter f l else filter f l.
Proof. rewrite filter_cons. by destruct (f x). Qed.

(** The first pass from any state: each maximum grows by the sizes of
    its class of inputs. *)
Lemma warmup_max_byte_sizes_loop
    (inputs : list (string * ModelWarmup_Input)) (z r : Z) :
  Forall (fun pr => GetElementCount (wi_dims pr.2) ≠ -1) inputs →
  0 ≤ z → 0 ≤ r →
  warmup_max_byte_sizes inputs z r
  = inr
      (Z.max z (max_byte_size
                  (warmup_batch_byte_size
                     <$> filter uses_zero_data inputs.*2)),
       Z.max r (max_byte_size
                  (warmup_batch_byte_size
                     <$> filter uses_random_data inputs.*2))).
Proof.
  intros Hall. revert z r.
  induction Hall as [|[name input_meta] inputs Hcount _ IH];
    intros z r Hz Hr.
  - cbn. do 2 f_equal; lia.
  - cbn [warmup_max_byte_sizes]. cbn in Hcount.
    rewrite bool_decide_eq_false_2 by done.
    cbn [fmap list_fmap snd]. rewrite !filter_cons_bool.
    unfold uses_zero_data at 1, uses_random_data at 1.
    pose proof (max_byte_size_nonneg
                  (warmup_batch_byte_size
                     <$> filter uses_zero_data inputs.*2)).
    pose proof (max_byte_size_nonneg
                  (warmup_batch_byte_size
                     <$> filter uses_random_data inputs.*2)).
    destruct (wi_input_data_type_case input_meta);
      repeat case_bool_decide; try done;
      rewrite IH by lia; cbn; unfold max_byte_size in *;
      do 2 f_equal; lia.
Qed.

Lemma memset0_all (h : Heap) block n :
  h !! block = Some (replicate n None) →
  memset0 h block n = <[block := replicate n (Some Byte.x00)]> h.
Proof.
  intros Hb. unfold memset0. rewrite Hb. f_equal.
  rewrite drop_ge by (by rewrite length_replicate).
  rewrite app_nil_r, take_ge; [done|]. by rewrite !length_replicate.
Qed.

End warmup_properties.

(** ** GenerateWarmupData: the requests of a sample *)

Section generate_warmup_data_properties.
Context {Fmt : Formatting} {Options : BuildOptions} {Helpers : WarmupHelpers}.

(** *** The second pass *)

Lemma warmup_input_source_store (h : Heap) provided_data zero_buffer
    random_buffer name input_meta p n provided_data' h' :
  warmup_input_source h provided_data zero_buffer random_buffer name
                      input_meta
  = inr (p, n, provided_data', h') →
  h ⊆ h'.
Proof.
  unfold warmup_input_source.
  destruct (wi_input_data_type_case input_meta) as [| |file|].
  - by intros ?; simplify_eq.
  - case_bool_decide; by intros ?; simplify_eq.
  - destruct (ReadTextFile file) as [err|input_data]; [done|].
    assert (h ⊆ <[fresh (dom h) :=
                    (fun b => Some b)
                      <$> String.list_byte_of_string input_data]> h).
    { apply insert_subseteq, not_elem_of_dom, is_fresh. }
    repeat case_bool_decide; intros ?; by simplify_eq.
  - done.
Qed.

Lemma warmup_input_source_zero (h : Heap) provided_data zero_buffer
    random_buffer name input_meta :
  uses_zero_data input_meta = true →
  warmup_input_source h provided_data zero_buffer random_buffer name
                      input_meta
  = inr (zero_buffer, warmup_request_byte_size input_meta, provided_data, h).
Proof.
  unfold uses_zero_data, warmup_input_source.
  destruct (wi_input_data_type_case input_meta); try done.
  by intros ->.
Qed.

Lemma AppendData_empty (i : Input) base byte_size :
  data_ i = MemoryReference [] →
  data_ (AppendData i base (Z.to_nat byte_size) TRITONSERVER_MEMORY_CPU 0)
  = slice_at base byte_size.
Proof.
  intros Hdata. unfold AppendData, slice_at.
  case_bool_decide; cbn; by rewrite Hdata.
Qed.

Lemma AppendData_name (i : Input) base byte_size mt id :
  name_ (AppendData i base byte_size mt id) = name_ i.
Proof. unfold AppendData. by case_bool_decide. Qed.

Lemma update_original_input_fresh (r : InferenceRequest) (k : string)
    (f : Input → Input) (x : Input) :
  k ∉ (original_inputs_ r).*1 →
  original_inputs_
    (update_original_input
       (set_needs_normalization
          (set_original_inputs r (original_inputs_ r ++ [(k, x)])) true)
       k f)
  = original_inputs_ r ++ [(k, f x)].
Proof.
  intros Hk. unfold update_original_input. cbn.
  rewrite fmap_app. cbn. rewrite bool_decide_eq_true_2 by done. f_equal.
  rewrite <- (list_fmap_id (original_inputs_ r)) at 2.
  apply list_fmap_ext. intros i [k' x'] Hi. cbn.
  case_bool_decide; [|done]. subst k'. destruct Hk.
  apply list_elem_of_fmap. exists (k, x'). split; [done|].
  by eapply list_elem_of_lookup_2.
Qed.

Lemma generate_request_input_step (backend : InferenceBackend)
    (zero_buffer random_buffer : Ptr)
    (done : list (string * ModelWarmup_Input)) lrequest input_sps
    provided_data h (name : string) (input_meta : ModelWarmup_Input)
    lrequest' input_sps' provided_data' h' :
  name ∉ done.*1 →
  warmup_request_built backend zero_buffer done lrequest input_sps →
  generate_request_input backend zero_buffer random_buffer
    (lrequest, input_sps, provided_data, h) (name, input_meta)
  = inr (lrequest', input_sps', provided_data', h') →
  warmup_request_built backend zero_buffer (done ++ [(name, input_meta)])
                       lrequest' input_sps'
  ∧ h ⊆ h'.
Proof.
  intros Hfresh (Hkeys & Hsps & Hnodup & Hdone).
  unfold generate_request_input. cbn [fst snd].
  destruct (warmup_input_source h provided_data zero_buffer random_buffer
              name input_meta) as [err|[[[p n] prov] h1]] eqn:Hsource;
    [done|].
  pose proof (warmup_input_source_store _ _ _ _ _ _ _ _ _ _ Hsource)
    as Hstore.
  assert (Hzero : uses_zero_data input_meta = true →
                  p = zero_buffer ∧ n = warmup_request_byte_size input_meta).
  { intros Huses. rewrite warmup_input_source_zero in Hsource by done.
    by simplify_eq. }
  assert (Hname : name ∉ (original_inputs_ lrequest).*1).
  { intros Hin. by apply Hfresh, Hkeys. }
  destruct (GetInput backend name) as [err|cfg] eqn:Hcfg.
  - (* an override input *)
    rewrite andb_false_r. cbn [app].
    unfold AddOverrideInput_batch, AddOverrideInput. cbn.
    change (negb (IsOk Success)) with false. cbv iota.
    intros ?; simplify_eq. split; [|done].
    split; [|split; [|split]].
    + intros k Hk. rewrite fmap_app. apply elem_of_app. left.
      by apply Hkeys.
    + intros sp [Hsp| ->%list_elem_of_singleton]%elem_of_app;
        rewrite fmap_app; apply elem_of_app.
      * left. by apply Hsps.
      * right. rewrite AppendData_name. cbn. by left.
    + rewrite fmap_app. apply NoDup_app. split; [done|].
      split; [|apply NoDup_singleton].
      intros k Hk ->%list_elem_of_singleton.
      rewrite AppendData_name in Hk. cbn in Hk.
      apply list_elem_of_fmap in Hk as (sp & -> & Hsp).
      by apply Hfresh, Hsps.
    + intros name' meta' [Hin|Hin%list_elem_of_singleton]%elem_of_app Huses.
      * destruct (Hdone name' meta' Hin Huses) as (input & Hdata & Hwhere).
        exists input. split; [done|].
        destruct (GetInput backend name'); [|done].
        destruct Hwhere as [Hsp Hn]. split; [|done].
        apply elem_of_app. by left.
      * simplify_eq. destruct (Hzero Huses) as [-> ->].
        eexists. split.
        2:{ rewrite Hcfg. split.
            - apply elem_of_app. right. by left.
            - by rewrite AppendData_name. }
        by apply AppendData_empty.
  - (* an original input *)
    rewrite andb_true_r.
    unfold AddOriginalInput, has_input.
    rewrite bool_decide_eq_false_2 by done.
    change (negb (IsOk Success)) with false. cbv iota.
    intros ?; simplify_eq. split; [|done].
    split; [|split; [|split]].
    + intros k. rewrite update_original_input_fresh by done.
      rewrite !fmap_app. cbn.
      intros [Hk|Hk]%elem_of_app; apply elem_of_app; [left|by right].
      by apply Hkeys.
    + intros sp Hsp. rewrite fmap_app. apply elem_of_app. left.
      by apply Hsps.
    + done.
    + intros name' meta' [Hin|Hin%list_elem_of_singleton]%elem_of_app Huses.
      * destruct (Hdone name' meta' Hin Huses) as (input & Hdata & Hwhere).
        exists input. split; [done|].
        destruct (GetInput backend name'); [done|].
        rewrite update_original_input_fresh by done.
        apply elem_of_app. by left.
      * simplify_eq. destruct (Hzero Huses) as [-> ->].
        eexists. split.
        2:{ rewrite Hcfg. rewrite update_original_input_fresh by done.
            apply elem_of_app. right. by left. }
        by apply AppendData_empty.
Qed.

Lemma generate_request_inputs (backend : InferenceBackend)
    (zero_buffer random_buffer : Ptr)
    (inputs done : list (string * ModelWarmup_Input)) lrequest input_sps
    provided_data h lrequest' input_sps' provided_data' h' :
  NoDup (done ++ inputs).*1 →
  warmup_request_built backend zero_buffer done lrequest input_sps →
  for_each_or_error
    (generate_request_input backend zero_buffer random_buffer)
    inputs (lrequest, input_sps, provided_data, h)
  = inr (lrequest', input_sps', provided_data', h') →
  warmup_request_built backend zero_buffer (done ++ inputs)
                       lrequest' input_sps'
  ∧ h ⊆ h'.
Proof.
  revert done lrequest input_sps provided_data h.
  induction inputs as [|[name input_meta] inputs IH];
    intros done lrequest input_sps provided_data h Hnodup Hbuilt;
    cbn [for_each_or_error].
  - intros ?; simplify_eq. by rewrite app_nil_r.
  - destruct (generate_request_input backend zero_buffer random_buffer
                (lrequest, input_sps, provided_data, h) (name, input_meta))
      as [err|[[[lrequest1 input_sps1] provided1] h1]] eqn:Hstep; [done|].
    intros Hrest.
    assert (Hfresh : name ∉ done.*1).
    { rewrite fmap_app in Hnodup. apply NoDup_app in Hnodup as (_ & Hdis & _).
      intros Hin. apply (Hdis name Hin). cbn. by left. }
    destruct (generate_request_input_step _ _ _ _ _ _ _ _ _ _ _ _ _ _
                Hfresh Hbuilt Hstep) as [Hbuilt1 Hstore1].
    assert (Hnodup1 : NoDup ((done ++ [(name, input_meta)]) ++ inputs).*1).
    { by rewrite <- app_assoc. }
    destruct (IH (done ++ [(name, input_meta)]) _ _ _ _ Hnodup1
                 Hbuilt1 Hrest) as [Hbuilt2 Hstore2].
    rewrite <- app_assoc in Hbuilt2. split; [done|]. by etrans.
Qed.

(** *** What [Normalize] keeps of an input *)

Lemma for_each_input_Forall2 {S : Type}
    (body : S → string → Input → Status + S * Input)
    (R : Input → Input → Prop) s l :
  (∀ x, R x x) →
  (∀ s k x s' x', body s k x = inr (s', x') → R x x') →
  Forall2 (fun pr pr' : string * Input => pr'.1 = pr.1 ∧ R pr.2 pr'.2)
          l (for_each_input body s l).2.
Proof.
  intros Hrefl Hbody. revert s.
  induction l as [|[k x] l IH]; intros s; cbn; [constructor|].
  destruct (body s k x) as [err|[s' x']] eqn:Hb; cbn.
  - apply Forall2_same_length_lookup_2; [done|].
    intros i pr pr' H1 H2. by simplify_eq.
  - specialize (IH s'). destruct (for_each_input body s' l) as [[st s''] l'].
    cbn in *. constructor; [|done]. split; [done|]. by eapply Hbody.
Qed.

Lemma same_tensor_refl (x : Input) : same_tensor x x.
Proof. done. Qed.

Lemma same_tensor_trans (x y z : Input) :
  same_tensor x y → same_tensor y z → same_tensor x z.
Proof.
  unfold same_tensor. intros (?&?&?&?) (?&?&?&?). repeat split; congruence.
Qed.

Lemma batch_body_same_tensor bk s k x s' x' :
  batch_body bk s k x = inr (s', x') → same_tensor x x'.
Proof.
  unfold batch_body. destruct (GetInput bk k) as [err|cfg]; [done|].
  destruct (mi_is_shape_tensor cfg); [by intros [= <- <-]|].
  repeat case_bool_decide; by intros [= <- <-].
Qed.

Lemma check_body_same_tensor bk s k x s' x' :
  check_body bk s k x = inr (s', x') → same_tensor x x'.
Proof. intros (_ & sh & w & ->)%check_body_writes. done. Qed.

Lemma batch_phase_same_tensor bk l :
  Forall2 (fun pr pr' : string * Input =>
             pr'.1 = pr.1 ∧ same_tensor pr.2 pr'.2)
          l (batch_phase bk l).2.
Proof.
  rewrite batch_phase_loop.
  apply for_each_input_Forall2; [apply same_tensor_refl|].
  case_bool_decide; [|apply batch_body_same_tensor].
  by intros s k x s' x' [= <- <-].
Qed.

Lemma Forall2_same_tensor_trans (l1 l2 l3 : list (string * Input)) :
  Forall2 (fun pr pr' : string * Input =>
             pr'.1 = pr.1 ∧ same_tensor pr.2 pr'.2) l1 l2 →
  Forall2 (fun pr pr' : string * Input =>
             pr'.1 = pr.1 ∧ same_tensor pr.2 pr'.2) l2 l3 →
  Forall2 (fun pr pr' : string * Input =>
             pr'.1 = pr.1 ∧ same_tensor pr.2 pr'.2) l1 l3.
Proof.
  intros H12. revert l3.
  induction H12 as [|pr1 pr2 l1 l2 [H1 H2] _ IH]; intros l3 H23.
  - by inversion H23.
  - apply Forall2_cons_inv_l in H23 as (pr3 & l3' & [H3 H4] & Hrest & ->).
    constructor; [|by apply IH]. split; [congruence|].
    by eapply same_tensor_trans.
Qed.

Lemma normalize_parts_same_tensor bk oro b l :
  Forall2 (fun pr pr' : string * Input =>
             pr'.1 = pr.1 ∧ same_tensor pr.2 pr'.2)
          l (normalize_parts bk oro b l).2.
Proof.
  assert (Hrefl : Forall2 (fun pr pr' : string * Input =>
                             pr'.1 = pr.1 ∧ same_tensor pr.2 pr'.2) l l).
  { apply Forall2_same_length_lookup_2; [done|].
    intros i pr pr' H1 H2. by simplify_eq. }
  unfold normalize_parts. cbv zeta.
  destruct (negb (IsOk _)); [done|].
  case_bool_decide; [done|].
  pose proof (batch_phase_same_tensor bk l) as H1.
  destruct (batch_phase bk l) as [[st2 b2] l2]. cbn in H1.
  destruct (negb (IsOk st2)); [done|].
  case_bool_decide; [done|].
  pose proof (for_each_input_Forall2 (check_body bk) same_tensor b2 l2
                same_tensor_refl (check_body_same_tensor bk)) as H2.
  destruct (for_each_input (check_body bk) b2 l2) as [[st3 c] l3].
  cbn in *. by eapply Forall2_same_tensor_trans.
Qed.

Lemma Normalize_same_tensor (r : InferenceRequest) :
  Forall2 (fun pr pr' : string * Input =>
             pr'.1 = pr.1 ∧ same_tensor pr.2 pr'.2)
          (original_inputs_ r) (original_inputs_ (Normalize r).2).
Proof.
  rewrite Normalize_parts.
  pose proof (normalize_parts_same_tensor (backend_raw_ r)
                (original_requested_outputs_ r) (batch_size_ r)
                (original_inputs_ r)) as Hl.
  destruct (normalize_parts _ _ _ _) as [[[st outputs] b] l]. by destruct r.
Qed.

Lemma PrepareForInference_same_tensor (r : InferenceRequest) :
  Forall2 (fun pr pr' : string * Input =>
             pr'.1 = pr.1 ∧ same_tensor pr.2 pr'.2)
          (original_inputs_ r)
          (original_inputs_ (PrepareForInference r).2).
Proof.
  assert (Hrefl : ∀ l : list (string * Input),
            Forall2 (fun pr pr' : string * Input =>
                       pr'.1 = pr.1 ∧ same_tensor pr.2 pr'.2) l l).
  { intros l. apply Forall2_same_length_lookup_2; [done|].
    intros i pr pr' H1 H2. by simplify_eq. }
  unfold PrepareForInference.
  destruct (needs_normalization_ (clear_inputs r)).
  - pose proof (Normalize_same_tensor (clear_inputs r)) as Hn.
    destruct (Normalize (clear_inputs r)) as [st r1]. cbn [snd] in Hn.
    assert (original_inputs_ (clear_inputs r) = original_inputs_ r) as Hc
      by by destruct r.
    rewrite Hc in Hn.
    destruct (IsOk st) eqn:Hok; cbn; rewrite ?Hok; cbn; [|done].
    destruct TRITON_ENABLE_STATS; by destruct r1.
  - cbn. destruct TRITON_ENABLE_STATS; destruct r; apply Hrefl.
Qed.

(** *** One request of a sample *)

Lemma AddOverrideInputs_lookup (input_sps : list Input)
    (r : InferenceRequest) :
  NoDup (name_ <$> input_sps) →
  let r' := fold_left (fun r sp => (AddOverrideInput r sp).2) input_sps r in
  original_inputs_ r' = original_inputs_ r
  ∧ ∀ sp, sp ∈ input_sps → override_inputs_ r' !! name_ sp = Some sp.
Proof.
  revert r. induction input_sps as [|sp0 input_sps IH]; intros r Hnodup.
  - split; [done|]. by intros sp ?%elem_of_nil.
  - rewrite fmap_cons in Hnodup. apply NoDup_cons in Hnodup as [Hsp0 Hnodup].
    cbn [fold_left].
    destruct (IH (AddOverrideInput r sp0).2 Hnodup) as [Horig Hlook].
    cbv zeta in *. split; [by rewrite Horig|].
    intros sp [->|Hsp]%elem_of_cons; [|by apply Hlook].
    assert (Hkeep : ∀ l r0,
              name_ sp0 ∉ name_ <$> l →
              override_inputs_
                (fold_left (fun r sp => (AddOverrideInput r sp).2) l r0)
              !! name_ sp0
              = override_inputs_ r0 !! name_ sp0).
    { clear. induction l as [|y l IHl]; intros r0 Hy; [done|].
      rewrite fmap_cons in Hy. apply not_elem_of_cons in Hy as [Hne Hy].
      cbn [fold_left]. rewrite IHl by done.
      unfold AddOverrideInput. cbn. by rewrite lookup_insert_ne. }
    rewrite Hkeep by done. unfold AddOverrideInput. cbn.
    by rewrite lookup_insert_eq.
Qed.

Lemma generate_request_spec (backend : InferenceBackend)
    (zero_buffer random_buffer : Ptr)
    (inputs : list (string * ModelWarmup_Input)) requests provided_data h
    cnt requests' provided_data' h' :
  NoDup inputs.*1 →
  generate_request backend zero_buffer random_buffer inputs
                   (requests, provided_data, h) cnt
  = inr (requests', provided_data', h') →
  h ⊆ h'
  ∧ ∃ request,
      requests' = requests ++ [request]
      ∧ ∀ name input_meta,
          (name, input_meta) ∈ inputs → uses_zero_data input_meta = true →
          ∃ input,
            warmup_input_of backend request name input
            ∧ data_ input
              = slice_at zero_buffer (warmup_request_byte_size input_meta).
Proof.
  intros Hnodup. unfold generate_request.
  destruct (for_each_or_error _ inputs _)
    as [err|[[[lrequest input_sps] provided1] h1]] eqn:Hinputs; [done|].
  assert (Hinit : warmup_request_built backend zero_buffer []
                    (new_InferenceRequest backend (version_ backend)) []).
  { split; [by intros k ?%elem_of_nil|].
    split; [by intros sp ?%elem_of_nil|].
    split; [constructor|]. by intros name meta ?%elem_of_nil. }
  destruct (generate_request_inputs backend zero_buffer random_buffer
              inputs [] _ _ _ _ _ _ _ _ Hnodup Hinit Hinputs)
    as [(Hkeys & Hsps & Hnodup_sps & Hdone) Hstore].
  cbn [app] in *.
  pose proof (PrepareForInference_same_tensor lrequest) as Hsame.
  destruct (PrepareForInference lrequest) as [st lrequest1].
  cbn [snd] in Hsame.
  destruct (negb (IsOk st)); [done|].
  destruct (AddOverrideInputs_lookup input_sps lrequest1 Hnodup_sps)
    as [Horig Hlook].
  cbv zeta in *.
  set (lrequest2 := fold_left _ input_sps lrequest1) in *.
  clearbody lrequest2.
  intros ?; simplify_eq. split; [done|].
  eexists. split; [reflexivity|].
  intros name input_meta Hin Huses.
  destruct (Hdone name input_meta Hin Huses) as (input & Hdata & Hwhere).
  unfold warmup_input_of, OriginalInputs, OverrideInputs.
  destruct (GetInput backend name) as [err|cfg].
  - destruct Hwhere as [Hsp <-]. exists input. split; [|done].
    cbn. by apply Hlook.
  - apply list_elem_of_lookup in Hwhere as [i Hi].
    destruct (Forall2_lookup_l _ _ _ _ _ Hsame Hi)
      as ([k' x'] & Hi' & Hk & Hx).
    cbn in Hk, Hx. subst k'. exists x'. split.
    + cbn. rewrite Horig. by eapply list_elem_of_lookup_2.
    + destruct Hx as (_ & _ & _ & ->). done.
Qed.

Lemma generate_requests_spec (backend : InferenceBackend)
    (zero_buffer random_buffer : Ptr)
    (inputs : list (string * ModelWarmup_Input)) (counts : list nat)
    requests provided_data h requests' provided_data' h' :
  NoDup inputs.*1 →
  for_each_or_error
    (generate_request backend zero_buffer random_buffer inputs)
    counts (requests, provided_data, h)
  = inr (requests', provided_data', h') →
  h ⊆ h'
  ∧ ∃ new,
      requests' = requests ++ new
      ∧ length new = length counts
      ∧ ∀ request name input_meta,
          request ∈ new →
          (name, input_meta) ∈ inputs → uses_zero_data input_meta = true →
          ∃ input,
            warmup_input_of backend request name input
            ∧ data_ input
              = slice_at zero_buffer (warmup_request_byte_size input_meta).
Proof.
  intros Hnodup. revert requests provided_data h.
  induction counts as [|cnt counts IH]; intros requests provided_data h;
    cbn [for_each_or_error].
  - intros ?; simplify_eq. split; [done|]. exists [].
    rewrite app_nil_r. split; [done|]. split; [done|].
    by intros request name meta ?%elem_of_nil.
  - destruct (generate_request backend zero_buffer random_buffer inputs
                (requests, provided_data, h) cnt)
      as [err|[[requests1 provided1] h1]] eqn:Hstep; [done|].
    intros Hrest.
    destruct (generate_request_spec _ _ _ _ _ _ _ _ _ _ _ Hnodup Hstep)
      as (Hstore1 & request & -> & Hrequest).
    destruct (IH _ _ _ Hrest) as (Hstore2 & new & -> & Hlen & Hnew).
    split; [by etrans|]. exists (request :: new).
    split; [by rewrite <- app_assoc|]. split; [cbn; by rewrite Hlen|].
    intros request' name meta [->|Hin]%elem_of_cons; [apply Hrequest|].
    by apply Hnew.
Qed.

(** *** One sample, and all of them *)

Lemma no_variable_size_dimension (inputs : list (string * ModelWarmup_Input))
    (z r z' r' : Z) :
  warmup_max_byte_sizes inputs z r = inr (z', r') →
  Forall (fun pr => GetElementCount (wi_dims pr.2) ≠ -1) inputs.
Proof.
  revert z r. induction inputs as [|[name input_meta] inputs IH]; intros z r;
    cbn [warmup_max_byte_sizes]; [constructor|].
  case_bool_decide as Hcount; [done|]. intros Hrest.
  constructor; [done|].
  destruct (wi_input_data_type_case input_meta);
    repeat case_bool_decide; by eapply IH.
Qed.

Lemma byte_size_in_range_same (input_meta : ModelWarmup_Input) :
  byte_size_in_range input_meta →
  warmup_request_byte_size input_meta = warmup_batch_byte_size input_meta.
Proof.
  intros [Hsize Hint]. unfold warmup_request_byte_size,
    warmup_batch_byte_size, to_size_t, to_int64.
  rewrite !Z.mod_small by lia.
  replace (GetElementCount (wi_dims input_meta)
           * GetDataTypeByteSize (wi_data_type input_meta) + 2 ^ 63
           - 2 ^ 63)
    with (GetElementCount (wi_dims input_meta)
          * GetDataTypeByteSize (wi_data_type input_meta)) by lia.
  case_bool_decide; lia.
Qed.

Lemma generate_sample_spec (backend : InferenceBackend)
    (rand : nat → Byte.byte) samples h calls
    (warmup_setting : ModelWarmup) samples' h' calls' :
  NoDup (mw_inputs warmup_setting).*1 →
  generate_sample backend rand (samples, h, calls) warmup_setting
  = inr (samples', h', calls') →
  h ⊆ h'
  ∧ if bool_decide (mw_batch_size warmup_setting = 0)
    then samples' = samples
    else ∃ sample,
           samples' = samples ++ [sample]
           ∧ ∀ hI hF, hI ⊆ h → h' ⊆ hF →
                      warmup_sample_spec backend hI hF warmup_setting sample.
Proof.
  intros Hnodup. unfold generate_sample.
  case_bool_decide as Hbatch; [by intros ?; simplify_eq|].
  destruct (warmup_max_byte_sizes (mw_inputs warmup_setting) 0 0)
    as [err|[max_zero max_random]] eqn:Hsizes; [done|].
  pose proof (no_variable_size_dimension _ _ _ _ _ Hsizes) as Hall.
  rewrite (warmup_max_byte_sizes_loop _ 0 0 Hall) in Hsizes by done.
  pose proof (max_byte_size_nonneg
                (warmup_batch_byte_size
                   <$> filter uses_zero_data (mw_inputs warmup_setting).*2))
    as Hz.
  pose proof (max_byte_size_nonneg
                (warmup_batch_byte_size
                   <$> filter uses_random_data (mw_inputs warmup_setting).*2))
    as Hr.
  rewrite !Z.max_r in Hsizes by done.
  injection Hsizes as Hmz Hmr.
  unfold warmup_buffers.
  destruct (new_AllocatedMemory_fresh h (Z.to_nat max_zero)
              TRITONSERVER_MEMORY_CPU_PINNED 0)
    as (zero_buffer & -> & Hfresh).
  rewrite memset0_all by by rewrite lookup_insert_eq.
  rewrite insert_insert_eq.
  match goal with
  | |- context [new_AllocatedMemory ?h0 ?n ?mt ?id] =>
      destruct (new_AllocatedMemory_fresh h0 n mt id)
        as (random_buffer & -> & Hfresh2)
  end.
  assert (random_buffer ≠ zero_buffer) as Hne.
  { intros ->. by rewrite lookup_insert_eq in Hfresh2. }
  rewrite insert_insert_eq. cbn [MutableBuffer].
  set (hb := <[random_buffer := _]> (<[zero_buffer := _]> h)).
  assert (Hhb : h ⊆ hb).
  { etrans; [by apply (insert_subseteq h zero_buffer)|].
    apply insert_subseteq.
    rewrite lookup_insert_ne in Hfresh2 by done.
    by rewrite lookup_insert_ne. }
  assert (Hzeros : hb !! zero_buffer
                   = Some (replicate (Z.to_nat max_zero) (Some Byte.x00))).
  { unfold hb. rewrite lookup_insert_ne by done. apply lookup_insert_eq. }
  destruct (for_each_or_error _ (seq 0 _) _)
    as [err|[[requests provided_data] h1]] eqn:Hrequests; [done|].
  destruct (generate_requests_spec _ _ _ _ _ _ _ _ _ _ _ Hnodup Hrequests)
    as (Hstore & new & Hnew & Hlen & Hserved).
  cbn [app] in Hnew. subst new.
  intros ?; simplify_eq. split; [by etrans|].
  eexists. split; [reflexivity|].
  intros hI hF HI HF. unfold warmup_sample_spec. cbv zeta. cbn.
  split; [done|]. split; [by rewrite Hlen, length_seq|].
  exists zero_buffer, random_buffer.
  split; [done|]. split; [done|]. split.
  { destruct (hI !! zero_buffer) eqn:Hb; [|done].
    eapply lookup_weaken in Hb; [|exact HI]. congruence. }
  split.
  { eapply lookup_weaken; [|exact HF].
    eapply lookup_weaken; [exact Hzeros|exact Hstore]. }
  intros request name input_meta Hrequest Hin Huses.
  destruct (Hserved request name input_meta Hrequest Hin Huses)
    as (input & Hwhere & Hdata).
  exists input. split; [done|]. split; [done|].
  intros Hrange. rewrite (byte_size_in_range_same _ Hrange).
  split; [done|].
  apply max_byte_size_upper, list_elem_of_fmap.
  exists input_meta. split; [done|].
  apply list_elem_of_filter. split; [by rewrite Huses|].
  apply list_elem_of_fmap. by exists (name, input_meta).
Qed.

Lemma generate_samples_spec (backend : InferenceBackend)
    (rand : nat → Byte.byte) (model_warmup : list ModelWarmup)
    samples h calls samples' h' calls' :
  Forall (fun warmup_setting => NoDup (mw_inputs warmup_setting).*1)
         model_warmup →
  for_each_or_error (generate_sample backend rand) model_warmup
                    (samples, h, calls)
  = inr (samples', h', calls') →
  h ⊆ h'
  ∧ ∃ new,
      samples' = samples ++ new
      ∧ ∀ hI hF, hI ⊆ h → h' ⊆ hF →
          Forall2 (warmup_sample_spec backend hI hF)
                  (filter (fun warmup_setting =>
                             mw_batch_size warmup_setting ≠ 0)
                          model_warmup)
                  new.
Proof.
  intros Hall. revert samples h calls.
  induction Hall as [|warmup_setting model_warmup Hnodup _ IH];
    intros samples h calls; cbn [for_each_or_error].
  - intros ?; simplify_eq. split; [done|]. exists [].
    rewrite app_nil_r. split; [done|]. intros. constructor.
  - destruct (generate_sample backend rand (samples, h, calls)
                              warmup_setting)
      as [err|[[samples1 h1] calls1]] eqn:Hstep; [done|].
    intros Hrest.
    destruct (generate_sample_spec _ _ _ _ _ _ _ _ _ Hnodup Hstep)
      as [Hstore1 Hsample].
    destruct (IH _ _ _ Hrest) as (Hstore2 & new & -> & Hnew).
    split; [by etrans|].
    rewrite filter_cons.
    case_bool_decide as Hbatch.
    + subst samples1. rewrite decide_False by (by intros ?).
      exists new. split; [done|]. intros hI hF HI HF.
      apply Hnew; [by etrans|done].
    + destruct Hsample as (sample & -> & Hspec).
      rewrite decide_True by done.
      exists (sample :: new). split; [by rewrite <- app_assoc|].
      intros hI hF HI HF. constructor.
      * apply Hspec; [done|by etrans].
      * apply Hnew; [by etrans|done].
Qed.

(** C8.  The warmup data that [GenerateWarmupData] makes when it
    succeeds, for warmup settings whose inputs have distinct names (they
    are the keys of a protobuf map): there is one sample per setting with
    a batch size other than 0, in order, with the name of the setting and
    as many requests as the batch size.
    Its zero buffer is a new pinned allocation of [max_zero] bytes that
    are all zero, and its random buffer a pinned allocation of
    [max_random] bytes, where [max_zero] is the maximum of the per-batch
    byte sizes of the inputs with ZeroData and of the string inputs with
    RandomData, and [max_random] the maximum over the other inputs with
    RandomData (0 when there is none).  In every request of the sample,
    an input with ZeroData, or of string type with RandomData, has one
    slice as its data, at the start of the zero buffer; when the product
    of its element count and of the byte size of its data type fits a
    signed 64-bit value, the byte size of the slice is the per-batch byte
    size of the sizing pass, which the zero buffer covers. *)
Theorem GenerateWarmupData_sizing_and_zero_buffer
    (backend : InferenceBackend) (model_warmup : list ModelWarmup)
    (rand : nat → Byte.byte) (h h' : Heap) (samples : list WarmupData) :
  Forall (fun warmup_setting => NoDup (mw_inputs warmup_setting).*1)
         model_warmup →
  GenerateWarmupData backend model_warmup rand h = inr (samples, h') →
  Forall2
    (fun warmup_setting sample =>
       let max_zero :=
         max_byte_size
           (warmup_batch_byte_size
              <$> filter uses_zero_data (mw_inputs warmup_setting).*2) in
       let max_random :=
         max_byte_size
           (warmup_batch_byte_size
              <$> filter uses_random_data (mw_inputs warmup_setting).*2) in
       sample_name_ sample = mw_name warmup_setting
       ∧ length (requests_ sample)
         = Z.to_nat (mw_batch_size warmup_setting)
       ∧ ∃ zero_buffer random_buffer,
           zero_data_ sample
           = Some (AllocatedMemory zero_buffer (Z.to_nat max_zero)
                                   TRITONSERVER_MEMORY_CPU_PINNED 0)
           ∧ random_data_ sample
             = Some (AllocatedMemory random_buffer (Z.to_nat max_random)
                                     TRITONSERVER_MEMORY_CPU_PINNED 0)
           ∧ h !! zero_buffer = None
           ∧ h' !! zero_buffer
             = Some (replicate (Z.to_nat max_zero) (Some Byte.x00))
           ∧ ∀ request name input_meta,
               request ∈ requests_ sample →
               (name, input_meta) ∈ mw_inputs warmup_setting →
               uses_zero_data input_meta = true →
               ∃ input,
                 warmup_input_of backend request name input
                 ∧ data_ input
                   = slice_at (mkPtr zero_buffer 0)
                              (warmup_request_byte_size input_meta)
                 ∧ (byte_size_in_range input_meta →
                    warmup_request_byte_size input_meta
                    = warmup_batch_byte_size input_meta
                    ∧ warmup_request_byte_size input_meta ≤ max_zero))
    (filter (fun warmup_setting => mw_batch_size warmup_setting ≠ 0)
            model_warmup)
    samples.
Proof.
  intros Hall. unfold GenerateWarmupData.
  destruct (for_each_or_error _ model_warmup _)
    as [err|[[samples1 h1] calls1]] eqn:Hloop; [done|].
  intros ?; simplify_eq.
  destruct (generate_samples_spec _ _ _ _ _ _ _ _ _ Hall Hloop)
    as (_ & new & -> & Hnew).
  exact (Hnew h h' (reflexivity _) (reflexivity _)).
Qed.

End generate_warmup_data_properties.

(** ** CopyAsNull *)

Section copy_as_null.

Lemma update_original_input_last (r : InferenceRequest) (k : string)
    (f : Input → Input) (l : list (string * Input)) (x : Input) :
  original_inputs_ r = l ++ [(k, x)] →
  k ∉ l.*1 →
  update_original_input r k f = set_original_inputs r (l ++ [(k, f x)]).
Proof.
  intros Hl Hk. unfold update_original_input. rewrite Hl. f_equal.
  rewrite fmap_app. cbn. rewrite bool_decide_eq_true_2 by done. f_equal.
  rewrite <- (list_fmap_id l) at 2. apply list_fmap_ext.
  intros i [k' x'] Hi. cbn. case_bool_decide; [|done]. subst k'.
  destruct Hk. apply list_elem_of_fmap. exists (k, x').
  split; [done|]. by eapply list_elem_of_lookup_2.
Qed.

Lemma add_null_input_fresh (r : InferenceRequest) (k : string)
    (input : Input) (f : Input → Input) (data : Memory) :
  k ∉ (original_inputs_ r).*1 →
  f (null_input k input (MemoryReference [])) = null_input k input data →
  update_original_input (add_null_input r k input) k f
  = with_null_input r k input data.
Proof.
  intros Hk Hf. unfold add_null_input, AddOriginalInput, has_input.
  rewrite bool_decide_eq_false_2 by done. cbn [snd].
  set (r1 := set_needs_normalization _ true).
  rewrite (update_original_input_last r1 k _ (original_inputs_ r)
             (new_Input k (datatype_ input) (shape_ input)));
    [|reflexivity|assumption].
  rewrite (update_original_input_last _ k f (original_inputs_ r)
             (null_input k input (MemoryReference [])));
    [|reflexivity|assumption].
  rewrite Hf. by destruct r.
Qed.

Lemma with_null_inputs_cons r k input data es :
  with_null_inputs (with_null_input r k input data) es
  = with_null_inputs r ((k, null_input k input data) :: es).
Proof.
  unfold with_null_inputs, with_null_input. destruct r, es; cbn; [done|].
  by rewrite <- app_assoc.
Qed.

Lemma with_null_inputs_app r es1 es2 :
  with_null_inputs (with_null_inputs r es1) es2
  = with_null_inputs r (es1 ++ es2).
Proof.
  unfold with_null_inputs. destruct r, es1, es2; cbn; try done.
  - by rewrite app_nil_r.
  - by rewrite <- app_assoc.
Qed.

Lemma with_null_inputs_original_inputs r es :
  original_inputs_ (with_null_inputs r es) = original_inputs_ r ++ es.
Proof. destruct es; cbn; [by rewrite app_nil_r|done]. Qed.

Lemma read_bytes_subseteq (h1 h2 : Heap) (p : Ptr) (n : nat) :
  h1 ⊆ h2 → ptr_block p ∈ dom h1 →
  read_bytes h2 p n = read_bytes h1 p n.
Proof.
  intros Hsub [cells Hcells]%elem_of_dom. unfold read_bytes.
  by rewrite Hcells, (lookup_weaken _ _ _ _ Hcells Hsub).
Qed.

(** One step of the first pass on a shape tensor. *)
Lemma copy_shape_tensor_step (lrequest : InferenceRequest) (h0 h : Heap)
    (k : string) (input : Input) :
  is_shape_tensor_ input = true →
  k ∉ (original_inputs_ lrequest).*1 →
  h0 ⊆ h →
  (∀ slice, BufferAt (data_ input) 0 = Some slice →
            ptr_block (buf_base slice) ∈ dom h0) →
  ∃ block,
    h !! block = None
    ∧ copy_shape_tensor (lrequest, h) (k, input)
      = (with_null_input lrequest k input
           (AllocatedMemory block (TotalByteSize (data_ input))
                            TRITONSERVER_MEMORY_CPU 0),
         <[block := shape_tensor_copy h0 (data_ input)]> h).
Proof.
  intros Hshape Hk Hsub Hwf. unfold copy_shape_tensor. rewrite Hshape.
  cbn [negb].
  set (n := TotalByteSize (data_ input)).
  exists (fresh (dom h)).
  assert (Hfresh : h !! fresh (dom h) = None)
    by apply not_elem_of_dom, is_fresh.
  split; [done|]. unfold new_AllocatedMemory.
  rewrite (add_null_input_fresh lrequest k input _
             (AllocatedMemory (fresh (dom h)) n TRITONSERVER_MEMORY_CPU 0))
    by done.
  f_equal. unfold memcpy, shape_tensor_copy. fold n.
  destruct (BufferAt (data_ input) 0) as [slice|] eqn:Hslice;
    cbn -[read_bytes]; [|done].
  rewrite lookup_insert_eq, insert_insert_eq, length_replicate.
  rewrite drop_replicate.
  rewrite (read_bytes_subseteq h0); [done| |by apply Hwf].
  etrans; [exact Hsub|]. by apply insert_subseteq.
Qed.

(** The first pass. *)
Lemma copy_shape_tensors (l : list (string * Input))
    (lrequest : InferenceRequest) (h0 h : Heap) :
  NoDup ((original_inputs_ lrequest).*1 ++ l.*1) →
  h0 ⊆ h →
  (∀ k input slice,
     (k, input) ∈ l → is_shape_tensor_ input = true →
     BufferAt (data_ input) 0 = Some slice →
     ptr_block (buf_base slice) ∈ dom h0) →
  ∃ es h',
    fold_left copy_shape_tensor l (lrequest, h)
    = (with_null_inputs lrequest es, h')
    ∧ Forall2
        (fun (pr e : string * Input) =>
           ∃ block,
             e = (pr.1,
                  null_input pr.1 pr.2
                    (AllocatedMemory block (TotalByteSize (data_ pr.2))
                                     TRITONSERVER_MEMORY_CPU 0))
             ∧ h !! block = None
             ∧ h' !! block = Some (shape_tensor_copy h0 (data_ pr.2)))
        (filter (fun pr : string * Input => is_shape_tensor_ pr.2 = true) l)
        es
    ∧ h ⊆ h'
    ∧ size (dom h') = (size (dom h) + length es)%nat.
Proof.
  revert lrequest h.
  induction l as [|[k input] l IH]; intros lrequest h Hnodup Hsub Hwf.
  - exists [], h. cbn. split; [done|]. split; [constructor|].
    split; [done|lia].
  - cbn [fold_left]. rewrite filter_cons. cbn [snd].
    assert (Hk : k ∉ (original_inputs_ lrequest).*1).
    { intros Hin. apply NoDup_app in Hnodup as (_ & Hdis & _).
      apply (Hdis k Hin). cbn. by left. }
    destruct (is_shape_tensor_ input) eqn:Hshape.
    + destruct (copy_shape_tensor_step lrequest h0 h k input)
        as (block & Hfresh & ->); try done.
      { intros slice Hslice. eapply Hwf; [by left|done|done]. }
      set (data := AllocatedMemory block _ _ _).
      destruct (IH (with_null_input lrequest k input data)
                   (<[block := shape_tensor_copy h0 (data_ input)]> h))
        as (es & h' & -> & Hall & Hsub' & Hsize).
      { unfold with_null_input. cbn. rewrite fmap_app. cbn.
        rewrite <- app_assoc. done. }
      { etrans; [exact Hsub|]. by apply insert_subseteq. }
      { intros k' input' slice Hin. apply (Hwf k' input' slice). by right. }
      exists ((k, null_input k input data) :: es), h'.
      rewrite with_null_inputs_cons. split; [done|].
      rewrite decide_True by done.
      assert (Hh : h ⊆ h').
      { etrans; [|exact Hsub']. by apply insert_subseteq. }
      split; [|split; [done|]].
      * constructor.
        -- exists block. split; [done|]. split; [done|].
           eapply lookup_weaken; [|exact Hsub']. by rewrite lookup_insert_eq.
        -- eapply Forall2_impl; [exact Hall|].
           intros pr e (block' & -> & Hnone & Hsome).
           exists block'. split; [done|]. split; [|done].
           destruct (h !! block') eqn:Hb; [|done].
           eapply lookup_weaken in Hb; [|by apply insert_subseteq].
           rewrite Hb in Hnone. done.
      * rewrite Hsize, dom_insert_L, size_union, size_singleton; cbn; [lia|].
        apply disjoint_singleton_l. by apply not_elem_of_dom.
    + assert (copy_shape_tensor (lrequest, h) (k, input) = (lrequest, h))
        as -> by (unfold copy_shape_tensor; by rewrite Hshape).
      destruct (IH lrequest h) as (es & h' & -> & Hall & Hsub' & Hsize).
      { apply NoDup_app in Hnodup as (H1 & H2 & H3).
        apply NoDup_app. repeat split; [done| |by inversion H3].
        intros x Hx Hin. apply (H2 x Hx). by right. }
      { done. }
      { intros k' input' slice Hin. apply (Hwf k' input' slice). by right. }
      exists es, h'. rewrite decide_False by (by intros ?).
      done.
Qed.

Lemma max_list_bound (l : list nat) (b : nat) :
  Forall (fun x => x ≤ b)%nat l → (max_list l ≤ b)%nat.
Proof. induction 1; cbn; lia. Qed.

(** The second pass, from any state. *)
Lemma max_input_fold (l : list (string * Input)) (m : nat)
    (nm : option string) :
  let result := fold_left max_input l (m, nm) in
  result.1 = (m `max` max_input_byte_size l)%nat
  ∧ ((∃ k input,
        result.2 = Some k ∧ (k, input) ∈ l
        ∧ is_shape_tensor_ input = false
        ∧ TotalByteSize (data_ input) = result.1)
     ∨ (result.2 = nm
        ∧ ∀ k input, (k, input) ∈ l → is_shape_tensor_ input = false →
                     (TotalByteSize (data_ input) < m)%nat)).
Proof.
  revert m nm. unfold max_input_byte_size.
  induction l as [|[k input] l IH]; intros m nm.
  - cbn. split; [lia|]. right. split; [done|].
    by intros k input ?%elem_of_nil.
  - cbn [fold_left]. rewrite filter_cons. cbn [snd max_input].
    destruct (is_shape_tensor_ input) eqn:Hshape.
    + rewrite decide_False by done.
      destruct (IH m nm) as [Hmax Hname]. split; [done|].
      destruct Hname as [(k' & input' & ? & ? & ? & ?)|[? Hall]].
      * left. exists k', input'. split; [done|]. split; [by right|done].
      * right. split; [done|].
        intros k' input' [[= -> ->]|Hin]%elem_of_cons Hs; [congruence|].
        by eapply Hall.
    + rewrite decide_True by done. cbn [fst].
      case_bool_decide as Hle.
      * destruct (IH (TotalByteSize (data_ input)) (Some k))
          as [Hmax Hname].
        split; [rewrite Hmax; cbn; lia|].
        left. destruct Hname as [(k' & input' & ? & ? & ? & ?)|[? Hall]].
        -- exists k', input'. split; [done|]. split; [by right|done].
        -- exists k, input. split; [done|]. split; [by left|].
           split; [done|]. rewrite Hmax.
           assert (max_list
                     ((λ pr : string * Input, TotalByteSize (data_ pr.2))
                        <$> filter
                              (λ pr : string * Input,
                                 is_shape_tensor_ pr.2 = false) l)
                   ≤ TotalByteSize (data_ input))%nat; [|lia].
           apply max_list_bound. apply Forall_forall.
           intros x [[k' input'] [-> Hin]]%list_elem_of_fmap.
           apply list_elem_of_filter in Hin as [Hs Hin].
           specialize (Hall k' input' Hin Hs). cbn. lia.
      * destruct (IH m nm) as [Hmax Hname].
        split; [rewrite Hmax; cbn; lia|].
        destruct Hname as [(k' & input' & ? & ? & ? & ?)|[? Hall]].
        -- left. exists k', input'. split; [done|]. split; [by right|done].
        -- right. split; [done|].
           intros k' input' [[= -> ->]|Hin]%elem_of_cons Hs; [lia|].
           by eapply Hall.
Qed.

(** The third pass. *)
Lemma add_padding_inputs (l : list (string * Input))
    (lrequest : InferenceRequest) (data_block : N) (max_byte_size : nat)
    (max_input_name : option string) :
  NoDup ((original_inputs_ lrequest).*1
         ++ (filter (fun pr : string * Input =>
                       is_shape_tensor_ pr.2 = false) l).*1) →
  fold_left
    (add_padding_input
       (AllocatedMemory data_block max_byte_size TRITONSERVER_MEMORY_CPU 0)
       (mkPtr data_block 0) TRITONSERVER_MEMORY_CPU 0 max_input_name)
    l lrequest
  = with_null_inputs lrequest
      ((fun pr : string * Input =>
          (pr.1, null_input pr.1 pr.2
                   (padding_data data_block max_byte_size max_input_name
                                 pr)))
         <$> filter (fun pr : string * Input =>
                       is_shape_tensor_ pr.2 = false) l).
Proof.
  revert lrequest. induction l as [|[k input] l IH]; intros lrequest.
  - done.
  - cbn [fold_left]. rewrite filter_cons. cbn [snd].
    unfold add_padding_input at 2.
    destruct (is_shape_tensor_ input) eqn:Hshape.
    + rewrite decide_False by done. apply IH.
    + rewrite decide_True by done. cbn [fmap list_fmap]. intros Hnodup.
      assert (Hk : k ∉ (original_inputs_ lrequest).*1).
      { intros Hin. apply NoDup_app in Hnodup as (_ & Hdis & _).
        apply (Hdis k Hin). cbn. by left. }
      rewrite <- with_null_inputs_cons.
      set (data := padding_data _ _ _ _).
      assert ((if bool_decide (Some k = max_input_name)
               then update_original_input (add_null_input lrequest k input)
                      k (λ new_input : Input,
                           (SetData new_input
                              (AllocatedMemory data_block max_byte_size
                                 TRITONSERVER_MEMORY_CPU 0)).2)
               else update_original_input (add_null_input lrequest k input)
                      k (λ new_input : Input,
                           AppendData new_input (mkPtr data_block 0)
                             (TotalByteSize (data_ input))
                             TRITONSERVER_MEMORY_CPU 0))
              = with_null_input lrequest k input data) as ->.
      { unfold data, padding_data. cbn [fst snd].
        case_bool_decide; apply add_null_input_fresh; try done.
        unfold AppendData, prefix_reference, null_input. cbn.
        by case_bool_decide. }
      apply IH. unfold with_null_input. cbn. rewrite fmap_app. cbn.
      by rewrite <- app_assoc.
Qed.

Lemma read_bytes_length (h : Heap) (p : Ptr) (n : nat) :
  length (read_bytes h p n) = n.
Proof. unfold read_bytes. by rewrite length_fmap, length_seq. Qed.

(** When the data of a shape tensor is one slice, the copy is all of
    it. *)
Lemma shape_tensor_copy_single_slice (h : Heap) (data : Memory)
    (slice : Buffer) :
  data = MemoryReference [slice] →
  shape_tensor_copy h data = memory_content h data.
Proof.
  intros ->. unfold shape_tensor_copy, memory_content.
  cbn -[read_bytes]. rewrite Nat.add_0_r, Nat.sub_diag. cbn -[read_bytes].
  rewrite take_ge; [done|].
  rewrite length_app, read_bytes_length. cbn. lia.
Qed.

Lemma filter_shape_tensors_split (l : list (string * Input)) :
  filter (fun pr : string * Input => is_shape_tensor_ pr.2 = true) l
  ++ filter (fun pr : string * Input => is_shape_tensor_ pr.2 = false) l
  ≡ₚ l.
Proof.
  induction l as [|[k input] l IH]; [done|].
  rewrite !filter_cons. cbn [snd].
  destruct (is_shape_tensor_ input).
  - rewrite decide_True, decide_False by done. cbn. by rewrite IH.
  - rewrite decide_False, decide_True by done.
    by rewrite <- Permutation_middle, IH.
Qed.

(** C5 (amended).  For a source request with distinct input names, at
    least one input that is not a shape tensor, and shape tensors whose
    first slice lies in the store, [CopyAsNull] returns a request whose
    inputs are the shape tensors followed by the other inputs of the
    source.  Every shape tensor has a new CPU buffer of its total byte
    size that starts with a copy of the first slice of the source data.
    There is one more new buffer, of the largest byte size among the
    other inputs; an input of that byte size holds it, and every other
    input that is not a shape tensor refers to the start of it with its
    own byte size.  The request has no requested output, its allocator
    fails every allocation, it does not collect statistics and it keeps
    the batch size. *)
Theorem CopyAsNull_null_request (from : InferenceRequest) (h : Heap) :
  NoDup (OriginalInputs from).*1 →
  (∃ k input,
     (k, input) ∈ OriginalInputs from ∧ is_shape_tensor_ input = false) →
  (∀ k input slice,
     (k, input) ∈ OriginalInputs from → is_shape_tensor_ input = true →
     BufferAt (data_ input) 0 = Some slice →
     ptr_block (buf_base slice) ∈ dom h) →
  let clone := (CopyAsNull from h).1 in
  let h' := (CopyAsNull from h).2 in
  let max_byte_size := max_input_byte_size (OriginalInputs from) in
  ∃ shape_inputs data_block max_input_name max_input,
    OriginalInputs clone
    = shape_inputs
      ++ ((fun pr : string * Input =>
             (pr.1, null_input pr.1 pr.2
                      (padding_data data_block max_byte_size
                                    (Some max_input_name) pr)))
            <$> filter (fun pr : string * Input =>
                          is_shape_tensor_ pr.2 = false)
                       (OriginalInputs from))
    ∧ Forall2
        (fun (pr e : string * Input) =>
           ∃ block,
             e = (pr.1,
                  null_input pr.1 pr.2
                    (AllocatedMemory block (TotalByteSize (data_ pr.2))
                                     TRITONSERVER_MEMORY_CPU 0))
             ∧ h !! block = None
             ∧ h' !! block = Some (shape_tensor_copy h (data_ pr.2))
             ∧ ∀ slice, data_ pr.2 = MemoryReference [slice] →
                        h' !! block = Some (memory_content h (data_ pr.2)))
        (filter (fun pr : string * Input => is_shape_tensor_ pr.2 = true)
                (OriginalInputs from))
        shape_inputs
    ∧ (max_input_name, max_input) ∈ OriginalInputs from
    ∧ is_shape_tensor_ max_input = false
    ∧ TotalByteSize (data_ max_input) = max_byte_size
    ∧ h !! data_block = None
    ∧ h' !! data_block = Some (replicate max_byte_size None)
    ∧ size (dom h') = (size (dom h) + length shape_inputs + 1)%nat
    ∧ OriginalRequestedOutputs clone = ∅
    ∧ ImmutableRequestedOutputs clone = ∅
    ∧ allocator_ (response_factory_ clone) = Some null_allocator
    ∧ (∀ tensor_name byte_size mt id,
         ∃ st, NullResponseAlloc tensor_name byte_size mt id = inl st
               ∧ StatusCode st = INTERNAL)
    ∧ collect_stats_ clone = false
    ∧ batch_size_ clone = batch_size_ from.
Proof.
  intros Hnodup (k0 & input0 & Hin0 & Hns0) Hwf clone h' M.
  subst clone h' M. unfold CopyAsNull, OriginalInputs in *.
  set (l := original_inputs_ from) in *.
  set (lrequest := set_collect_stats _ false).
  destruct (copy_shape_tensors l lrequest h h)
    as (es & h1 & -> & Hall & Hsub & Hsize); [done|done|done|].
  pose proof (max_input_fold l 0 None) as [Hmax Hname].
  destruct (fold_left max_input l (0%nat, None)) as [M nm].
  cbn [fst snd] in Hmax, Hname. rewrite Nat.max_0_l in Hmax. subst M.
  cbv beta iota.
  destruct Hname as [(kmax & imax & -> & Hinmax & Hnsmax & Hsizemax)|[_ Hlt]];
    [|specialize (Hlt k0 input0 Hin0 Hns0); lia].
  set (M := max_input_byte_size l) in *.
  destruct (new_AllocatedMemory_fresh h1 M TRITONSERVER_MEMORY_CPU 0)
    as (data_block & -> & Hfresh).
  cbn [BufferAt from_option buf_base buf_memory_type buf_memory_type_id].
  assert (Hkeys : es.*1
                  = (filter (λ pr : string * Input,
                               is_shape_tensor_ pr.2 = true) l).*1).
  { clear -Hall. induction Hall as [|pr e ? ? (block & -> & _) _ IH];
      [done|]. cbn. by rewrite IH. }
  rewrite add_padding_inputs.
  2:{ rewrite with_null_inputs_original_inputs.
      change (original_inputs_ lrequest) with (@nil (string * Input)).
      cbn [app]. rewrite Hkeys, <- fmap_app.
      by rewrite filter_shape_tensors_split. }
  rewrite with_null_inputs_app.
  exists es, data_block, kmax, imax.
  split.
  { cbn [fst]. unfold SetReleaseCallback, SetResponseCallback, set_inputs.
    cbn. by rewrite with_null_inputs_original_inputs. }
  split.
  { eapply Forall2_impl; [exact Hall|].
    intros pr e (block & -> & Hnone & Hsome).
    assert (Hblock : <[data_block:=replicate M None]> h1 !! block
                     = Some (shape_tensor_copy h (data_ pr.2))).
    { rewrite lookup_insert_ne; [done|]. intros <-. congruence. }
    exists block. split; [done|]. split; [done|]. cbn.
    split; [done|]. intros slice Hdata.
    by rewrite Hblock, (shape_tensor_copy_single_slice _ _ slice). }
  split; [done|]. split; [done|]. split; [done|].
  split.
  { destruct (h !! data_block) eqn:Hb; [|done].
    eapply lookup_weaken in Hb; [|exact Hsub]. congruence. }
  split; [cbn; by rewrite lookup_insert_eq|].
  split.
  { cbn. rewrite dom_insert_L, size_union, size_singleton, Hsize; [lia|].
    apply disjoint_singleton_l. by apply not_elem_of_dom. }
  unfold ImmutableRequestedOutputs, OriginalRequestedOutputs,
    with_null_inputs.
  destruct (es ++ _); cbn; repeat split; try done; intros; by eexists.
Qed.
End copy_as_null.

(** * Further properties of the code *)

(** ** Building a request *)

Section request_interface.
Context {Fmt : Formatting} {Options : BuildOptions}.

Lemma find_original_input_app_fresh (name : string) (x : Input)
    (l : list (string * Input)) :
  name ∉ l.*1 →
  find_original_input name (l ++ [(name, x)]) = Some x.
Proof.
  intros Hfresh. unfold find_original_input.
  induction l as [|[k y] l IH]; cbn.
  - by rewrite decide_True.
  - rewrite decide_False.
    2:{ cbn. intros ->. apply Hfresh. cbn. by left. }
    cbn in Hfresh. apply not_elem_of_cons in Hfresh as [_ Hfresh].
    specialize (IH Hfresh).
    destruct (list_find _ (l ++ _)) as [[i [k' x']]|]; by simplify_eq/=.
Qed.

Lemma filter_other_names_fresh (name : string) (l : list (string * Input)) :
  name ∉ l.*1 →
  filter (fun pr : string * Input => pr.1 ≠ name) l = l.
Proof.
  induction l as [|[k y] l IH]; [done|]. rewrite fmap_cons.
  intros [Hne Hfresh]%not_elem_of_cons.
  rewrite filter_cons, decide_True by (cbn in *; congruence).
  by rewrite IH.
Qed.

(** X1.  The names of the original inputs stay distinct: [AddOriginalInput]
    succeeds exactly when the name is new, a duplicate is answered with
    INVALID_ARG and leaves the request as it was, and a new input is found
    under its name with no data. *)
Theorem AddOriginalInput_unique_names (r : InferenceRequest) (name : string)
    (datatype : DataType) (shape : list Z) :
  NoDup (OriginalInputs r).*1 →
  let st := (AddOriginalInput r name datatype shape).1 in
  let r' := (AddOriginalInput r name datatype shape).2 in
  NoDup (OriginalInputs r').*1
  ∧ (name ∈ (OriginalInputs r).*1 →
     StatusCode st = INVALID_ARG ∧ r' = r)
  ∧ (name ∉ (OriginalInputs r).*1 →
     st = Success
     ∧ MutableOriginalInput r' name = inr (new_Input name datatype shape)
     ∧ TotalByteSize (data_ (new_Input name datatype shape)) = 0%nat
     ∧ needs_normalization_ r' = true).
Proof.
  intros Hnodup. unfold AddOriginalInput, has_input, OriginalInputs in *.
  case_bool_decide as Hin; cbn.
  - split; [done|]. split; [done|]. by intros [].
  - split.
    { rewrite fmap_app. apply NoDup_app. split; [done|]. cbn.
      split; [|apply NoDup_singleton].
      intros k Hk ->%list_elem_of_singleton. done. }
    split; [done|]. intros _. split; [done|].
    unfold MutableOriginalInput. cbn [original_inputs_ set_original_inputs set_needs_normalization].
    rewrite find_original_input_app_fresh by done. done.
Qed.

(** X2.  Removing the input that was just added gives the request back, up
    to the mark that it has to be normalized again; removing a name that
    the request does not have is answered with INVALID_ARG and changes
    nothing. *)
Theorem RemoveOriginalInput_undoes_AddOriginalInput (r : InferenceRequest)
    (name : string) (datatype : DataType) (shape : list Z) :
  name ∉ (OriginalInputs r).*1 →
  RemoveOriginalInput (AddOriginalInput r name datatype shape).2 name
  = (Success, set_needs_normalization r true)
  ∧ StatusCode (RemoveOriginalInput r name).1 = INVALID_ARG
  ∧ (RemoveOriginalInput r name).2 = r.
Proof.
  intros Hfresh. unfold OriginalInputs in *.
  unfold AddOriginalInput, RemoveOriginalInput, has_input.
  rewrite (bool_decide_eq_false_2 (name ∈ (original_inputs_ r).*1)) by done.
  cbn. split; [|done].
  rewrite bool_decide_eq_true_2.
  2:{ rewrite fmap_app. apply elem_of_app. right. cbn. by left. }
  f_equal. rewrite filter_app, filter_other_names_fresh by done.
  rewrite filter_cons, decide_False by (cbn; by intros []).
  rewrite filter_nil, app_nil_r. by destruct r.
Qed.

Lemma emplace_original_inputs_lookup (l : list (string * Input))
    (m : gmap string InputPtr) (k : string) :
  emplace_original_inputs l m !! k
  = match m !! k with
    | Some p => Some p
    | None => if bool_decide (k ∈ l.*1) then Some (PtrOriginal k) else None
    end.
Proof.
  unfold emplace_original_inputs. revert m.
  induction l as [|[k' x] l IH]; intros m; cbn.
  - by destruct (m !! k).
  - rewrite IH. unfold map_insert_new.
    destruct (m !! k') eqn:Hk'.
    + destruct (m !! k) eqn:Hk; [done|].
      assert (k ≠ k') by congruence.
      assert (bool_decide (k ∈ k' :: l.*1) = bool_decide (k ∈ l.*1)) as ->;
          [|done].
        apply bool_decide_ext. rewrite elem_of_cons. naive_solver.
    + destruct (decide (k = k')) as [->|Hne].
      * rewrite lookup_insert_eq, Hk'.
        rewrite bool_decide_eq_true_2; [done|]. by left.
      * rewrite lookup_insert_ne by done.
        destruct (m !! k); [done|].
        assert (bool_decide (k ∈ k' :: l.*1) = bool_decide (k ∈ l.*1)) as ->;
          [|done].
        apply bool_decide_ext. rewrite elem_of_cons. naive_solver.
Qed.

(** X3.  An override input lives until the next [PrepareForInference]: on
    a prepared request, [AddOverrideInput] makes [ImmutableInput] return
    the override under its name (in place of an original input of that
    name, if there is one), leaves the other names and the original
    inputs alone, and the next [PrepareForInference] gives the prepared
    request back. *)
Theorem AddOverrideInput_until_next_prepare (r : InferenceRequest)
    (input : Input) :
  IsOk (PrepareForInference r).1 = true →
  let r1 := (PrepareForInference r).2 in
  let r2 := (AddOverrideInput r1 input).2 in
  ImmutableInput r2 (name_ input) = inr (PtrOverride (name_ input))
  ∧ input_at r2 (PtrOverride (name_ input)) = Some input
  ∧ (∀ k, k ≠ name_ input → ImmutableInput r2 k = ImmutableInput r1 k)
  ∧ OriginalInputs r2 = OriginalInputs r1
  ∧ PrepareForInference r2 = (Success, r1).
Proof.
  intros Hok r1 r2.
  destruct (PrepareForInference_success r Hok)
    as (_ & Hnn & Hinputs & Hov & Hq & Hrs).
  fold r1 in Hnn, Hinputs, Hov, Hq, Hrs. subst r2. clearbody r1.
  unfold ImmutableInput, input_at, AddOverrideInput. cbn.
  rewrite !lookup_insert_eq. split; [done|]. split; [done|].
  split; [by intros k Hk; rewrite lookup_insert_ne|]. split; [done|].
  transitivity (PrepareForInference r1).
  - unfold PrepareForInference, clear_inputs. by destruct r1.
  - by apply PrepareForInference_prepared.
Qed.

Lemma for_each_input_names {S : Type}
    (body : S → string → Input → Status + S * Input) s l :
  (for_each_input body s l).2.*1 = l.*1.
Proof.
  revert s. induction l as [|[k x] l IH]; intros s; cbn; [done|].
  destruct (body s k x) as [err|[s' x']]; [done|].
  specialize (IH s'). destruct (for_each_input body s' l) as [[st s''] l'].
  cbn in *. by rewrite IH.
Qed.

Lemma normalize_parts_names bk oro b l :
  (normalize_parts bk oro b l).2.*1 = l.*1.
Proof.
  unfold normalize_parts. cbv zeta.
  destruct (negb (IsOk _)); [done|].
  case_bool_decide; [done|].
  pose proof (for_each_input_names
                (if bool_decide (mc_max_batch_size (config_ bk) = 0)
                 then fun s _ x => inr (s, set_Shape x (original_shape_ x))
                 else batch_body bk) 0 l) as Hnames.
  rewrite <- batch_phase_loop in Hnames.
  destruct (batch_phase bk l) as [[st2 b2] l2]. cbn in Hnames.
  destruct (negb (IsOk st2)); [done|].
  case_bool_decide; [done|].
  pose proof (for_each_input_names (check_body bk) b2 l2) as Hnames2.
  destruct (for_each_input (check_body bk) b2 l2) as [[st3 c] l3].
  cbn in *. congruence.
Qed.

Lemma Normalize_names (r : InferenceRequest) :
  (original_inputs_ (Normalize r).2).*1 = (original_inputs_ r).*1.
Proof.
  rewrite Normalize_parts.
  pose proof (normalize_parts_names (backend_raw_ r)
                (original_requested_outputs_ r) (batch_size_ r)
                (original_inputs_ r)) as Hnames.
  by destruct (normalize_parts _ _ _ _) as [[[st outputs] b] l].
Qed.

Lemma PrepareForInference_names (r : InferenceRequest) :
  (original_inputs_ (PrepareForInference r).2).*1 = (original_inputs_ r).*1.
Proof.
  unfold PrepareForInference.
  destruct (needs_normalization_ (clear_inputs r)).
  - pose proof (Normalize_names (clear_inputs r)) as Hnames.
    destruct (Normalize (clear_inputs r)) as [st r1]. cbn in Hnames.
    assert ((original_inputs_ r1).*1 = (original_inputs_ r).*1) as Hr1
      by (rewrite Hnames; by destruct r).
    destruct (IsOk st) eqn:Hok; cbn; rewrite ?Hok; cbn; [|done].
    destruct TRITON_ENABLE_STATS; by destruct r1.
  - cbn. destruct TRITON_ENABLE_STATS; by destruct r.
Qed.

(** X4.  After a successful [PrepareForInference] the inputs that the
    backends see are the original inputs and nothing else: the names of
    the original inputs are the ones that the caller gave, in the same
    order, [ImmutableInput] returns the original input for each of them,
    and INVALID_ARG for any other name, whatever override inputs the
    request had before. *)
Theorem PrepareForInference_inputs_are_the_original_inputs
    (r : InferenceRequest) (k : string) :
  IsOk (PrepareForInference r).1 = true →
  let r' := (PrepareForInference r).2 in
  (OriginalInputs r').*1 = (OriginalInputs r).*1
  ∧ OverrideInputs r' = ∅
  ∧ (k ∈ (OriginalInputs r).*1 →
     ImmutableInput r' k = inr (PtrOriginal k)
     ∧ input_at r' (PtrOriginal k)
       = ok_input (MutableOriginalInput r' k))
  ∧ (k ∉ (OriginalInputs r).*1 →
     ∃ st, ImmutableInput r' k = inl st ∧ StatusCode st = INVALID_ARG).
Proof.
  intros Hok r'.
  destruct (PrepareForInference_success r Hok)
    as (_ & _ & Hinputs & Hov & _).
  fold r' in Hinputs, Hov.
  pose proof (PrepareForInference_names r) as Hnames. fold r' in Hnames.
  unfold OriginalInputs, ImmutableInputs in *.
  split; [done|]. split; [done|].
  unfold ImmutableInput. rewrite Hinputs, emplace_original_inputs_lookup.
  rewrite lookup_empty, Hnames. split; intros Hk.
  - rewrite bool_decide_eq_true_2 by done. split; [done|].
    unfold input_at, MutableOriginalInput, ok_input.
    by destruct (find_original_input k (original_inputs_ r')).
  - rewrite bool_decide_eq_false_2 by done. by eexists.
Qed.

(** X5.  A request that was changed is validated again: after any of the
    calls that add or remove an original input or a requested output,
    [PrepareForInference] returns what [Normalize] returns; on a request
    that is not marked, it succeeds without looking at the inputs. *)
Theorem PrepareForInference_validates_after_change (r r' : InferenceRequest) :
  request_change r r' →
  needs_normalization_ r' = true
  ∧ (PrepareForInference r').1 = (Normalize (clear_inputs r')).1
  ∧ ∀ r0, needs_normalization_ r0 = false →
          (PrepareForInference r0).1 = Success.
Proof.
  intros Hchange.
  assert (Hnn : needs_normalization_ r' = true).
  { destruct Hchange as [name dt sh Hok|name Hok| | | |]; try done.
    - unfold AddOriginalInput in *. by destruct (has_input _ _).
    - unfold RemoveOriginalInput in *. by destruct (has_input _ _). }
  split; [done|]. split.
  - unfold PrepareForInference.
    assert (needs_normalization_ (clear_inputs r') = true) as ->
      by by destruct r'.
    pose proof (Normalize_status (clear_inputs r')) as Hst.
    destruct (Normalize (clear_inputs r')) as [st r1]. cbn in *.
    destruct (IsOk st) eqn:Hok; cbn; rewrite ?Hok; cbn; [|done].
    by destruct Hst as [->|Hst]; [|destruct st as [[] ?]].
  - intros r0 Hr0. unfold PrepareForInference.
    assert (needs_normalization_ (clear_inputs r0) = false) as ->
      by by destruct r0.
    done.
Qed.


(** A successful loop whose body keeps the state: every entry went
    through the body with that state. *)
Lemma for_each_input_const_state {S : Type}
    (body : S → string → Input → Status + S * Input) s l s' l' :
  (∀ s k x s' x', body s k x = inr (s', x') → s' = s) →
  (∀ s k x err, body s k x = inl err → err ≠ Success) →
  for_each_input body s l = (Success, s', l') →
  Forall2 (fun pr pr' : string * Input =>
             pr'.1 = pr.1 ∧ body s pr.1 pr.2 = inr (s, pr'.2)) l l'.
Proof.
  intros Hconst Herr. revert l'.
  induction l as [|[k x] l IH]; intros l'; cbn.
  - intros [= <- <-]. constructor.
  - destruct (body s k x) as [err|[s1 x1]] eqn:Hb.
    { intros [= -> _ _]. by apply Herr in Hb. }
    assert (s1 = s) as -> by by eapply Hconst.
    destruct (for_each_input body s l) as [[st2 s2] l2].
    intros [= -> -> <-]. constructor; [done|]. by apply IH.
Qed.

Lemma check_body_not_success bk s k x err :
  check_body bk s k x = inl err → err ≠ Success.
Proof. by intros Herr%check_body_error ->. Qed.

Lemma check_body_state bk s k x s' x' :
  check_body bk s k x = inr (s', x') → s' = s.
Proof. by intros [-> _]%check_body_writes. Qed.

(** What the second loop leaves in each input of a request that
    [Normalize] accepts. *)
Lemma Normalize_success_inputs (r : InferenceRequest) :
  IsOk (Normalize r).1 = true →
  ∃ l2,
    batch_phase (backend_raw_ r) (original_inputs_ r)
    = (Success, batch_size_ (Normalize r).2, l2)
    ∧ Forall2 (fun pr pr' : string * Input =>
                 pr'.1 = pr.1
                 ∧ check_body (backend_raw_ r) (batch_size_ (Normalize r).2)
                              pr.1 pr.2
                   = inr (batch_size_ (Normalize r).2, pr'.2))
              l2 (original_inputs_ (Normalize r).2).
Proof.
  intros Hok.
  destruct (Normalize_success r Hok)
    as (b & l2 & c & l3 & Hbatch & Hcheck & _ & _ & -> & ->).
  exists l2. split; [done|].
  eapply for_each_input_const_state; [| |exact Hcheck].
  - apply check_body_state.
  - apply check_body_not_success.
Qed.

(** Every input of a request that [Normalize] accepts is declared by
    the model. *)
Lemma Normalize_inputs_declared (r : InferenceRequest)
    (k : string) (input : Input) :
  IsOk (Normalize r).1 = true →
  (k, input) ∈ original_inputs_ (Normalize r).2 →
  ∃ input_config, GetInput (backend_raw_ r) k = inr input_config.
Proof.
  intros Hok Hin.
  destruct (Normalize_success_inputs r Hok) as (l2 & _ & Hall).
  apply list_elem_of_lookup in Hin as [i Hi].
  destruct (Forall2_lookup_r _ _ _ _ _ Hall Hi) as ([k2 x2] & _ & Hk & Hc).
  cbn in Hk, Hc. subst k2. unfold check_body in Hc.
  destruct (GetInput (backend_raw_ r) k) as [err|cfg]; [done|].
  by exists cfg.
Qed.


Lemma fold_insert_new_lookup {V : Type} (key : V → string) (l : list V)
    (m : gmap string V) (k : string) :
  fold_left (fun m io => map_insert_new (key io) io m) l m !! k
  = match m !! k with
    | Some v => Some v
    | None => snd <$> list_find (fun io => key io = k) l
    end.
Proof.
  revert m. induction l as [|io l IH]; intros m; cbn.
  - by destruct (m !! k).
  - rewrite IH. unfold map_insert_new.
    destruct (m !! key io) eqn:Hio.
    + destruct (m !! k) eqn:Hk; [done|].
      rewrite decide_False by congruence.
      by destruct (list_find _ l) as [[i v']|].
    + destruct (decide (key io = k)) as [<-|Hne].
      * by rewrite lookup_insert_eq, Hio.
      * rewrite lookup_insert_ne by done.
        destruct (m !! k); [done|].
        by destruct (list_find _ l) as [[i v']|].
Qed.

Lemma input_map_SetModelConfig (version : Z) (config : ModelConfig)
    (k : string) :
  input_map_ (SetModelConfig version config) !! k
  = snd <$> list_find (fun io => mi_name io = k) (mc_input config).
Proof. cbn. by rewrite fold_insert_new_lookup, lookup_empty. Qed.

Lemma output_map_SetModelConfig (version : Z) (config : ModelConfig)
    (k : string) :
  output_map_ (SetModelConfig version config) !! k
  = snd <$> list_find (fun io => mo_name io = k) (mc_output config).
Proof. cbn. by rewrite fold_insert_new_lookup, lookup_empty. Qed.

(** X8.  A request with distinct input names that [Normalize] accepts for
    a model gives exactly the inputs that the configuration of the model
    declares: the names of the request are the declared names, up to
    their order. *)
Theorem Normalize_inputs_are_the_model_inputs (r : InferenceRequest)
    (version : Z) (config : ModelConfig) :
  backend_raw_ r = SetModelConfig version config →
  NoDup (OriginalInputs r).*1 →
  IsOk (Normalize r).1 = true →
  (OriginalInputs r).*1 ≡ₚ mi_name <$> mc_input config.
Proof.
  intros Hbk Hnodup Hok. unfold OriginalInputs in *.
  destruct (Normalize_success r Hok)
    as (b & l2 & c & l3 & Hbatch & Hcheck & Hlen & _ & _ & Hl3).
  assert (Hnames : (original_inputs_ (Normalize r).2).*1
                   = (original_inputs_ r).*1) by apply Normalize_names.
  apply submseteq_length_Permutation.
  2:{ rewrite !length_fmap, Hlen, Hbk. done. }
  apply NoDup_submseteq; [done|].
  intros k Hk. rewrite <- Hnames in Hk.
  apply list_elem_of_fmap in Hk as ([k' x] & -> & Hin). cbn.
  destruct (Normalize_inputs_declared r k' x Hok Hin)
    as (cfg & Hcfg).
  unfold GetInput in Hcfg. rewrite Hbk, input_map_SetModelConfig in Hcfg.
  destruct (list_find _ _) as [[i io]|] eqn:Hfind; [|done].
  apply list_find_Some in Hfind as (Hi & <- & _).
  apply list_elem_of_fmap. exists io. split; [done|].
  by eapply list_elem_of_lookup_2.
Qed.

Lemma to_uint32_range (z : Z) : 0 ≤ to_uint32 z < 2 ^ 32.
Proof. unfold to_uint32. apply Z.mod_pos_bound. lia. Qed.

Lemma to_uint32_small (z : Z) : 0 ≤ z < 2 ^ 32 → to_uint32 z = z.
Proof. unfold to_uint32. intros. by apply Z.mod_small. Qed.

(** The loop that determines the batch size, from any state. *)
Lemma batch_loop_first_dimensions bk l s b l' :
  0 ≤ s < 2 ^ 32 →
  for_each_input (batch_body bk) s l = (Success, b, l') →
  0 ≤ b < 2 ^ 32
  ∧ (s ≠ 0 → b = s)
  ∧ Forall (fun pr : string * Input =>
              ∀ cfg, GetInput bk pr.1 = inr cfg →
                     mi_is_shape_tensor cfg = false →
                     ∃ d rest, original_shape_ pr.2 = d :: rest
                               ∧ (to_uint32 d = 0 ∨ to_uint32 d = b)) l.
Proof.
  revert s l'. induction l as [|[k x] l IH]; intros s l' Hs; cbn.
  - intros [= <- <-]. split; [lia|]. split; [done|]. constructor.
  - destruct (batch_body bk s k x) as [err|[s1 x1]] eqn:Hb.
    { intros [= -> _ _]. by apply batch_body_error in Hb. }
    destruct (for_each_input (batch_body bk) s1 l) as [[st2 s2] l2] eqn:Hrest.
    intros [= -> -> <-].
    unfold batch_body in Hb.
    destruct (GetInput bk k) as [err|cfg] eqn:Hcfg; [done|].
    destruct (mi_is_shape_tensor cfg) eqn:Hshape.
    { simplify_eq. destruct (IH _ _ Hs Hrest) as (Hb1 & Hb2 & Hall).
      split; [done|]. split; [done|]. constructor; [|done].
      intros cfg' Hc Hs'. cbn in Hc. rewrite Hcfg in Hc. simplify_eq.
      congruence. }
    case_bool_decide as Hlen; [done|].
    destruct (original_shape_ x) as [|d rest] eqn:Hshape_x; [done|].
    cbn in Hb. case_bool_decide as Hzero.
    + simplify_eq.
      destruct (IH _ _ (to_uint32_range d) Hrest) as (Hb1 & Hb2 & Hall).
      split; [done|]. split; [done|]. constructor; [|done].
      intros cfg' Hc _. cbn in Hc. rewrite Hcfg in Hc. simplify_eq.
      exists d, rest. cbn. split; [done|].
      destruct (decide (to_uint32 d = 0)); [by left|right].
      symmetry. by apply Hb2.
    + case_bool_decide as Hne; [done|].
      assert (d = s) as -> by (by destruct (decide (d = s))).
      injection Hb as <- <-.
      destruct (IH _ _ Hs Hrest) as (Hb1 & Hb2 & Hall).
      split; [done|]. split; [done|]. constructor; [|done].
      intros cfg' Hc _. cbn in Hc. rewrite Hcfg in Hc. simplify_eq.
      exists s, rest. cbn. split; [done|].
      right. rewrite (Hb2 Hzero). by apply to_uint32_small.
Qed.

(** X9.  The batch size of a request that [Normalize] accepts: it is a
    32-bit value whose signed reading does not exceed the maximum batch
    size of the model, it is 0 for a model without batching, and for a
    model with batching every input that is not a shape tensor has a
    first dimension that is, as a 32-bit value, 0 or the batch size; so
    the first dimensions between 1 and 2^32 - 1 all are the batch
    size. *)
Theorem Normalize_batch_size (r : InferenceRequest) :
  IsOk (Normalize r).1 = true →
  let batch_size := batch_size_ (Normalize r).2 in
  let max_batch_size := mc_max_batch_size (config_ (backend_raw_ r)) in
  0 ≤ batch_size < 2 ^ 32
  ∧ uint32_to_int batch_size ≤ max_batch_size
  ∧ (max_batch_size = 0 → batch_size = 0)
  ∧ (max_batch_size ≠ 0 →
     ∀ k input input_config,
       (k, input) ∈ OriginalInputs r →
       GetInput (backend_raw_ r) k = inr input_config →
       mi_is_shape_tensor input_config = false →
       ∃ d rest,
         original_shape_ input = d :: rest
         ∧ (to_uint32 d = 0 ∨ to_uint32 d = batch_size)
         ∧ (0 < d < 2 ^ 32 → d = batch_size)).
Proof.
  intros Hok batch_size max_batch_size. subst batch_size max_batch_size.
  destruct (Normalize_success r Hok)
    as (b & l2 & c & l3 & Hbatch & Hcheck & _ & Hmax & -> & _).
  unfold batch_phase, OriginalInputs in *.
  case_bool_decide as Hzero.
  - simplify_eq. split; [lia|]. split; [done|]. split; [done|]. done.
  - destruct (batch_loop_first_dimensions _ _ 0 _ _ ltac:(lia) Hbatch)
      as (Hb & _ & Hall).
    split; [done|]. split; [done|]. split; [done|].
    intros _ k input cfg Hin Hcfg Hshape.
    rewrite Forall_forall in Hall.
    destruct (Hall _ Hin cfg Hcfg Hshape) as (d & rest & Hd & Hor).
    exists d, rest. split; [done|]. split; [done|].
    intros Hrange. rewrite to_uint32_small in Hor by lia. lia.
Qed.
End request_interface.

(** ** The data of an input *)

Lemma sum_list_snoc (l : list nat) (n : nat) :
  sum_list (l ++ [n]) = (sum_list l + n)%nat.
Proof. induction l as [|m l IH]; cbn; lia. Qed.

(** X10.  The data of an input only grows: [AppendData] with a positive
    byte size adds one slice after the ones that are there, so that the
    total byte size grows by that size, and from then on [SetData] is
    answered with INVALID_ARG and leaves the input as it is, until
    [RemoveAllData] empties the input; [AppendData] with 0 bytes adds
    nothing. *)
Theorem SetData_refused_after_AppendData (i : Input) (slices : list Buffer)
    (base : Ptr) (byte_size : nat) (mt : TRITONSERVER_MemoryType) (id : Z)
    (data : Memory) :
  data_ i = MemoryReference slices →
  (0 < byte_size)%nat →
  let i' := AppendData i base byte_size mt id in
  data_ i' = MemoryReference (slices ++ [mkBuffer base byte_size mt id])
  ∧ TotalByteSize (data_ i')
    = (TotalByteSize (data_ i) + byte_size)%nat
  ∧ StatusCode (SetData i' data).1 = INVALID_ARG
  ∧ (SetData i' data).2 = i'
  ∧ SetData (RemoveAllData i').2 data
    = (Success, set_data (RemoveAllData i').2 data)
  ∧ AppendData i base 0 mt id = i.
Proof.
  intros Hdata Hsize i'. subst i'. unfold AppendData, SetData.
  rewrite bool_decide_eq_true_2 by done. cbn. rewrite Hdata. cbn.
  rewrite fmap_app. cbn [fmap list_fmap]. rewrite sum_list_snoc. cbn.
  split; [done|]. split; [lia|].
  rewrite bool_decide_eq_true_2 by lia. done.
Qed.

(** ** RespondIfError on a batch *)


(** ** InferenceBackend *)

Lemma first_named_spec {V : Type} (key : V → string) (name : string)
    (l : list V) :
  match first_named key name l with
  | Some io =>
      ∃ i, l !! i = Some io ∧ key io = name
           ∧ ∀ j io', l !! j = Some io' → key io' = name → (i ≤ j)%nat
  | None => name ∉ key <$> l
  end.
Proof.
  unfold first_named.
  destruct (list_find _ l) as [[i io]|] eqn:Hfind; cbn.
  - apply list_find_Some in Hfind as (Hi & Hkey & Hfirst).
    exists i. split; [done|]. split; [done|].
    intros j io' Hj Hkey'. destruct (decide (i ≤ j)%nat); [done|].
    destruct (Hfirst j io' Hj); [lia|done].
  - apply list_find_None in Hfind. rewrite Forall_forall in Hfind.
    intros (io & -> & Hin)%list_elem_of_fmap. by apply (Hfind io).
Qed.

(** X12.  The lookups of a model whose maps were filled by
    [SetModelConfig]: [GetInput] returns the first input of the
    configuration that has the name, so that an input declared twice keeps
    its first declaration, and it returns INVALID_ARG exactly for the
    names that the configuration does not declare; [GetOutput] does the
    same on the outputs. *)
Theorem GetInput_GetOutput_after_SetModelConfig (version : Z)
    (config : ModelConfig) (name : string) :
  let backend := SetModelConfig version config in
  match GetInput backend name with
  | inr io =>
      ∃ i, mc_input config !! i = Some io ∧ mi_name io = name
           ∧ ∀ j io', mc_input config !! j = Some io' →
                      mi_name io' = name → (i ≤ j)%nat
  | inl st =>
      StatusCode st = INVALID_ARG ∧ name ∉ mi_name <$> mc_input config
  end
  ∧ match GetOutput backend name with
    | inr io =>
        ∃ i, mc_output config !! i = Some io ∧ mo_name io = name
             ∧ ∀ j io', mc_output config !! j = Some io' →
                        mo_name io' = name → (i ≤ j)%nat
    | inl st =>
        StatusCode st = INVALID_ARG ∧ name ∉ mo_name <$> mc_output config
    end.
Proof.
  intros backend. subst backend. unfold GetInput, GetOutput.
  rewrite input_map_SetModelConfig, output_map_SetModelConfig.
  pose proof (first_named_spec mi_name name (mc_input config)) as Hin.
  pose proof (first_named_spec mo_name name (mc_output config)) as Hout.
  unfold first_named in *.
  split.
  - by destruct (list_find _ (mc_input config)) as [[i io]|].
  - by destruct (list_find _ (mc_output config)) as [[i io]|].
Qed.


Lemma completions_of_app (a b : list RunEvent) :
  completions_of (a ++ b) = completions_of a ++ completions_of b.
Proof. apply omap_app. Qed.

Lemma context_runs_of_app (a b : list RunEvent) :
  context_runs_of (a ++ b) = context_runs_of a ++ context_runs_of b.
Proof. apply omap_app. Qed.

Lemma compute_starts_of_app (a b : list RunEvent) :
  compute_starts_of (a ++ b) = compute_starts_of a ++ compute_starts_of b.
Proof. apply omap_app. Qed.

Lemma compute_ends_of_app (a b : list RunEvent) :
  compute_ends_of (a ++ b) = compute_ends_of a ++ compute_ends_of b.
Proof. apply omap_app. Qed.

Lemma Run_start_events (device : Z) (payloads : list SchedulerPayload) :
  let evs :=
    concat ((fun payload =>
               match stats_ payload with
               | Some stats =>
                   [EvCaptureComputeStart stats; EvSetGPUDevice stats device]
               | None => []
               end) <$> payloads) in
  completions_of evs = [] ∧ context_runs_of evs = []
  ∧ compute_starts_of evs = omap stats_ payloads
  ∧ compute_ends_of evs = [].
Proof.
  induction payloads as [|[[stats|]] payloads (H1 & H2 & H3 & H4)]; cbn in *;
    [done| |done].
  unfold compute_starts_of in *. cbn. by rewrite H3.
Qed.

Lemma Run_end_events (payloads : list SchedulerPayload) :
  let evs :=
    concat ((fun payload =>
               match stats_ payload with
               | Some stats => [EvCaptureComputeEnd stats]
               | None => []
               end) <$> payloads) in
  completions_of evs = [] ∧ context_runs_of evs = []
  ∧ compute_starts_of evs = []
  ∧ compute_ends_of evs = omap stats_ payloads.
Proof.
  induction payloads as [|[[stats|]] payloads (H1 & H2 & H3 & H4)]; cbn in *;
    [done| |done].
  unfold compute_ends_of in *. cbn. by rewrite H4.
Qed.

(** X14.  [Run] on a runner calls the completion function exactly once,
    as the last thing it does.  With a runner index that has no context
    the status is INTERNAL, no context runs and no timer is touched.
    Otherwise the context of that index runs once, the completion
    function receives its status, and the payloads that have statistics
    are exactly the ones whose compute timer is started, and exactly the
    ones whose compute timer is stopped. *)
Theorem Run_completes_exactly_once (contexts_ : list BackendContext)
    (runner_idx : nat) (payloads : list SchedulerPayload) :
  let evs := Run contexts_ runner_idx payloads in
  ∃ status,
    completions_of evs = [status]
    ∧ last evs = Some (EvOnCompleteQueuedPayloads status)
    ∧ match contexts_ !! runner_idx with
      | None =>
          (length contexts_ ≤ runner_idx)%nat
          ∧ StatusCode status = INTERNAL
          ∧ evs = [EvOnCompleteQueuedPayloads status]
      | Some context =>
          status = context_Run context payloads
          ∧ context_runs_of evs = [runner_idx]
          ∧ compute_starts_of evs = omap stats_ payloads
          ∧ compute_ends_of evs = omap stats_ payloads
      end.
Proof.
  intros evs. subst evs. unfold Run.
  destruct (contexts_ !! runner_idx) as [context|] eqn:Hctx.
  - exists (context_Run context payloads).
    destruct (Run_start_events (gpu_device_ context) payloads)
      as (S1 & S2 & S3 & S4).
    destruct (Run_end_events payloads) as (E1 & E2 & E3 & E4).
    cbv zeta in *.
    split; [|split; [by rewrite !app_assoc, last_snoc|]].
    all: rewrite ?completions_of_app, ?context_runs_of_app,
      ?compute_starts_of_app, ?compute_ends_of_app.
    all: rewrite ?S1, ?S2, ?S3, ?S4, ?E1, ?E2, ?E3, ?E4; cbn.
    all: by rewrite ?app_nil_r.
  - eexists. split; [reflexivity|]. split; [reflexivity|].
    split; [|done]. by apply lookup_ge_None.
Qed.

(** ** Creating the instances of a model *)

Lemma active_instance_count_nonneg
    (instance_group : list ModelInstanceGroup) :
  Forall (fun group => 0 ≤ group_count group < 2 ^ 31) instance_group →
  0 ≤ active_instance_count instance_group.
Proof.
  unfold active_instance_count.
  induction 1 as [|g l Hg _ IHl]; cbn; [done|].
  destruct (group_passive g); lia.
Qed.

Lemma use_backend_threads_loop_spec (count : Z)
    (instance_group : list ModelInstanceGroup) :
  0 ≤ count ≤ 1 →
  Forall (fun group => 0 ≤ group_count group < 2 ^ 31) instance_group →
  use_backend_threads_loop count instance_group
  = bool_decide (1 < count + active_instance_count instance_group).
Proof.
  intros Hcount Hall. revert count Hcount.
  pose proof active_instance_count_nonneg as Hnonneg.
  unfold active_instance_count in *.
  induction Hall as [|group rest Hgroup Hrest IH]; intros count Hcount; cbn.
  - rewrite bool_decide_eq_false_2; [done|lia].
  - pose proof (Hnonneg rest Hrest) as Hpos.
    destruct (group_passive group); cbn; [by apply IH|].
    unfold to_size_t. rewrite Z.mod_small by lia.
    case_bool_decide as Hgt.
    + symmetry. apply bool_decide_eq_true_2. lia.
    + rewrite IH by lia. apply bool_decide_ext. lia.
Qed.

(** X15.  For instance groups with counts between 0 and 2^31 - 1, the
    instances of a model get backend threads exactly when the groups that
    are not passive have more than one instance in total: the loop that
    stops at the first group where the sum exceeds 1 decides the same as
    the whole sum. *)
Theorem CreateInstances_uses_threads_for_several_instances
    (instance_group : list ModelInstanceGroup) :
  Forall (fun group => 0 ≤ group_count group < 2 ^ 31) instance_group →
  use_backend_threads_loop 0 instance_group
  = bool_decide (1 < active_instance_count instance_group).
Proof.
  intros Hall. by rewrite use_backend_threads_loop_spec by (done || lia).
Qed.

Section create_instances_properties.
Variable finish_instance : CreatedInstance → Status.

Lemma for_each_until_error_inv {A : Type}
    (body : A → InstancesState → Status * InstancesState)
    (I : InstancesState → Prop) (l : list A) (s : InstancesState) :
  (∀ x s, I s → I (body x s).2) →
  I s → I (for_each_until_error body l s).2.
Proof.
  intros Hbody. revert s. induction l as [|x l IH]; intros s Hs; cbn; [done|].
  specialize (Hbody x s Hs). destruct (body x s) as [st s1]. cbn in Hbody.
  destruct (negb (IsOk st)); [done|]. by apply IH.
Qed.

Lemma CreateInstances_inv (I : InstancesState → Prop)
    (use_backend_threads device_blocking : bool)
    (instance_group : list ModelInstanceGroup) (s : InstancesState) :
  (∀ name index kind device_id profile_names passive rate_limiter s,
     I s →
     I (CreateInstance finish_instance name index kind device_id
          profile_names passive rate_limiter use_backend_threads
          device_blocking s).2) →
  I s →
  I (for_each_until_error
       (fun group =>
          for_each_until_error
            (create_group_instance finish_instance use_backend_threads
               device_blocking group)
            (instance_indices (group_count group)))
       instance_group s).2.
Proof.
  intros Hcreate. apply for_each_until_error_inv. clear s.
  intros group s. apply for_each_until_error_inv. clear s.
  intros c s Hs. unfold create_group_instance.
  destruct (group_kind group); try done; try by apply Hcreate.
  revert Hs. apply for_each_until_error_inv. intros device_id s'.
  apply Hcreate.
Qed.

Lemma CreateInstance_no_thread name index kind device_id profile_names
    passive rate_limiter device_blocking s :
  no_thread s →
  no_thread (CreateInstance finish_instance name index kind device_id
               profile_names passive rate_limiter false device_blocking s).2.
Proof.
  intros [Hstarted Hall]. unfold CreateInstance.
  destruct (negb (IsOk _)); [done|]. split; [done|]. cbn.
  intros pr [Hin| ->%list_elem_of_singleton]%elem_of_app; [by apply Hall|].
  done.
Qed.

Lemma CreateInstance_thread_per_instance name index kind device_id
    profile_names passive rate_limiter s :
  thread_per_instance s →
  thread_per_instance
    (CreateInstance finish_instance name index kind device_id
       profile_names passive rate_limiter true false s).2.
Proof.
  intros [Hnodup Hall]. unfold CreateInstance, SetBackendThread. cbn.
  destruct (negb (IsOk _)); cbn.
  - split; [done|]. intros pr Hin.
    destruct (Hall pr Hin) as (t & Ht & Hlt). exists t. split; [done|]. cbn. lia.
  - split.
    + cbn [added_instances]. rewrite !fmap_app. cbn. apply NoDup_app.
      split; [done|].
      split; [|apply NoDup_singleton].
      intros x Hx ->%list_elem_of_singleton.
      apply list_elem_of_fmap in Hx as (inst & Heq & Hin).
      apply list_elem_of_fmap in Hin as (pr & -> & Hin).
      destruct (Hall pr Hin) as (t & Ht & Hlt).
      rewrite Ht in Heq. injection Heq as Heq. lia.
    + intros pr [Hin| ->%list_elem_of_singleton]%elem_of_app.
      * destruct (Hall pr Hin) as (t & Ht & Hlt). exists t.
        split; [done|]. cbn. lia.
      * eexists. split; [reflexivity|]. cbn. lia.
Qed.

Lemma CreateInstance_threads_per_device name index kind device_id
    profile_names passive rate_limiter s :
  threads_per_device s →
  threads_per_device
    (CreateInstance finish_instance name index kind device_id
       profile_names passive rate_limiter true true s).2.
Proof.
  intros (Hlt & Hinj & Hall). unfold CreateInstance, SetBackendThread. cbn.
  destruct (device_to_thread_map s !! to_uint32 device_id) as [t|] eqn:Hd.
  - destruct (negb (IsOk _)); cbn; [done|].
    split; [done|]. split; [done|].
    intros pr [Hin| ->%list_elem_of_singleton]%elem_of_app;
      [by apply Hall|].
    by exists t.
  - assert (Hmap : map_insert_new_Z (to_uint32 device_id) (threads_started s)
                     (device_to_thread_map s)
                   = <[to_uint32 device_id := threads_started s]>
                       (device_to_thread_map s)).
    { unfold map_insert_new_Z. by rewrite Hd. }
    assert (Hlt' : ∀ d t,
              <[to_uint32 device_id := threads_started s]>
                (device_to_thread_map s) !! d = Some t →
              (t < S (threads_started s))%nat).
    { intros d t. destruct (decide (d = to_uint32 device_id)) as [->|Hne].
      - rewrite lookup_insert_eq. intros [= <-]. lia.
      - rewrite lookup_insert_ne by done. intros Ht%Hlt. lia. }
    assert (Hinj' : ∀ d1 d2 t,
              <[to_uint32 device_id := threads_started s]>
                (device_to_thread_map s) !! d1 = Some t →
              <[to_uint32 device_id := threads_started s]>
                (device_to_thread_map s) !! d2 = Some t → d1 = d2).
    { intros d1 d2 t.
      destruct (decide (d1 = to_uint32 device_id)) as [->|Hne1];
        destruct (decide (d2 = to_uint32 device_id)) as [->|Hne2];
        rewrite ?lookup_insert_eq, ?lookup_insert_ne by done; try done.
      - intros [= <-] Ht%Hlt. lia.
      - intros Ht%Hlt [= <-]. lia.
      - apply Hinj. }
    assert (Hall' : ∀ pr, pr ∈ added_instances s →
              ∃ t, triton_backend_thread_ pr.1 = Some t
                   ∧ <[to_uint32 device_id := threads_started s]>
                       (device_to_thread_map s)
                     !! to_uint32 (ci_device_id pr.1) = Some t).
    { intros pr Hin. destruct (Hall pr Hin) as (t & Ht & Hm).
      exists t. split; [done|]. rewrite lookup_insert_ne; [done|].
      intros Heq. rewrite <- Heq in Hm. congruence. }
    destruct (negb (IsOk _)); cbn; rewrite Hmap.
    + done.
    + split; [done|]. split; [done|].
      intros pr [Hin| ->%list_elem_of_singleton]%elem_of_app;
        [by apply Hall'|].
      eexists. split; [reflexivity|]. cbn. by rewrite lookup_insert_eq.
Qed.

(** X16.  The backend threads of the instances that [CreateInstances]
    gave to the model, whether it succeeded or stopped at an error.
    Without backend threads no instance has a thread and no thread was
    started.  With them every instance has one; under the
    device-blocking policy two instances share their thread exactly when
    they are on the same device, otherwise no two instances share a
    thread. *)
Theorem CreateInstances_backend_threads
    (instance_group : list ModelInstanceGroup) (device_blocking : bool) :
  let s := (CreateInstances finish_instance instance_group
                            device_blocking).2 in
  if use_backend_threads_loop 0 instance_group
  then
    (∀ pr, pr ∈ added_instances s →
           is_Some (triton_backend_thread_ pr.1))
    ∧ (if device_blocking
       then ∀ pr1 pr2,
              pr1 ∈ added_instances s → pr2 ∈ added_instances s →
              (triton_backend_thread_ pr1.1 = triton_backend_thread_ pr2.1
               ↔ to_uint32 (ci_device_id pr1.1)
                 = to_uint32 (ci_device_id pr2.1))
       else NoDup (triton_backend_thread_ <$> (added_instances s).*1))
  else
    threads_started s = 0%nat
    ∧ ∀ pr, pr ∈ added_instances s → triton_backend_thread_ pr.1 = None.
Proof.
  intros s. subst s. unfold CreateInstances.
  destruct (use_backend_threads_loop 0 instance_group).
  - destruct device_blocking.
    + pose proof (CreateInstances_inv threads_per_device true true
                    instance_group (mkInstancesState 0 ∅ [])) as Hinv.
      destruct Hinv as (Hlt & Hinj & Hall).
      { intros. by apply CreateInstance_threads_per_device. }
      { split; [done|]. split; [done|]. by intros pr ?%elem_of_nil. }
      split.
      { intros pr Hin. destruct (Hall pr Hin) as (t & -> & _). by eexists. }
      intros pr1 pr2 Hin1 Hin2.
      destruct (Hall pr1 Hin1) as (t1 & Ht1 & Hm1).
      destruct (Hall pr2 Hin2) as (t2 & Ht2 & Hm2).
      rewrite Ht1, Ht2. split.
      * intros [= ->]. by eapply Hinj.
      * intros Heq. rewrite Heq in Hm1. congruence.
    + pose proof (CreateInstances_inv thread_per_instance true false
                    instance_group (mkInstancesState 0 ∅ [])) as Hinv.
      destruct Hinv as (Hnodup & Hall).
      { intros. by apply CreateInstance_thread_per_instance. }
      { split; [constructor|]. by intros pr ?%elem_of_nil. }
      split; [|done].
      intros pr Hin. destruct (Hall pr Hin) as (t & -> & _). by eexists.
  - pose proof (CreateInstances_inv no_thread false device_blocking
                  instance_group (mkInstancesState 0 ∅ [])) as Hinv.
    apply Hinv.
    + intros. by apply CreateInstance_no_thread.
    + split; [done|]. by intros pr ?%elem_of_nil.
Qed.

Lemma CreateInstance_ok name index kind device_id profile_names passive
    rate_limiter use_backend_threads device_blocking s :
  (∀ instance, IsOk (finish_instance instance) = true) →
  ∃ s',
    CreateInstance finish_instance name index kind device_id profile_names
      passive rate_limiter use_backend_threads device_blocking s
    = (Success, s')
    ∧ without_thread <$> added_instances s'
      = (without_thread <$> added_instances s)
        ++ [(mkCreatedInstance name index kind device_id profile_names
                               passive None, rate_limiter)].
Proof.
  intros Hfinish. unfold CreateInstance.
  destruct use_backend_threads.
  - destruct (SetBackendThread device_id device_blocking s) as [thread s1]
      eqn:Hthread.
    assert (added_instances s1 = added_instances s) as Hadded.
    { unfold SetBackendThread in Hthread.
      destruct (if device_blocking then _ else _); by simplify_eq. }
    rewrite Hfinish. cbn. eexists. split; [reflexivity|]. cbn.
    by rewrite fmap_app, Hadded.
  - rewrite Hfinish. cbn. eexists. split; [reflexivity|]. cbn.
    by rewrite fmap_app.
Qed.

Lemma create_device_instances_ok name index kind profile_names passive
    rate_limiter use_backend_threads device_blocking devices s :
  (∀ instance, IsOk (finish_instance instance) = true) →
  ∃ s',
    for_each_until_error
      (fun device_id =>
         CreateInstance finish_instance name index kind device_id
           profile_names passive rate_limiter use_backend_threads
           device_blocking)
      devices s
    = (Success, s')
    ∧ without_thread <$> added_instances s'
      = (without_thread <$> added_instances s)
        ++ ((fun device_id =>
               (mkCreatedInstance name index kind device_id profile_names
                                  passive None, rate_limiter))
              <$> devices).
Proof.
  intros Hfinish. revert s.
  induction devices as [|device_id devices IH]; intros s; cbn.
  - exists s. by rewrite app_nil_r.
  - destruct (CreateInstance_ok name index kind device_id profile_names
                passive rate_limiter use_backend_threads device_blocking s
                Hfinish) as (s1 & -> & Hs1).
    cbn. destruct (IH s1) as (s2 & -> & Hs2). exists s2.
    split; [done|]. by rewrite Hs2, Hs1, <- app_assoc.
Qed.

Lemma create_group_instance_ok use_backend_threads device_blocking group c s :
  (∀ instance, IsOk (finish_instance instance) = true) →
  group_kind group ≠ KIND_AUTO →
  ∃ s',
    create_group_instance finish_instance use_backend_threads
      device_blocking group c s
    = (Success, s')
    ∧ without_thread <$> added_instances s'
      = (without_thread <$> added_instances s)
        ++ ((fun kd : TRITONSERVER_InstanceGroupKind * Z =>
               (mkCreatedInstance
                  (if bool_decide (group_count group > 1)
                   then group_name group +:+ "_" +:+ to_string c
                   else group_name group)
                  c kd.1 kd.2 (group_profile group) (group_passive group)
                  None,
                group_rate_limiter group))
              <$> group_devices group).
Proof.
  intros Hfinish Hkind. unfold create_group_instance, group_devices.
  destruct (group_kind group); try done.
  - destruct (create_device_instances_ok
                (if bool_decide (group_count group > 1)
                 then group_name group +:+ "_" +:+ to_string c
                 else group_name group)
                c TRITONSERVER_INSTANCEGROUPKIND_GPU (group_profile group)
                (group_passive group) (group_rate_limiter group)
                use_backend_threads device_blocking (group_gpus group) s
                Hfinish) as (s' & -> & Hs').
    exists s'. split; [done|]. rewrite Hs'. f_equal.
    by rewrite <- list_fmap_compose.
  - by apply CreateInstance_ok.
  - by apply CreateInstance_ok.
Qed.

Lemma create_group_instances_ok use_backend_threads device_blocking group
    indices s :
  (∀ instance, IsOk (finish_instance instance) = true) →
  group_kind group ≠ KIND_AUTO →
  ∃ s',
    for_each_until_error
      (create_group_instance finish_instance use_backend_threads
         device_blocking group)
      indices s
    = (Success, s')
    ∧ without_thread <$> added_instances s'
      = (without_thread <$> added_instances s)
        ++ (c ← indices;
            (fun kd : TRITONSERVER_InstanceGroupKind * Z =>
               (mkCreatedInstance
                  (if bool_decide (group_count group > 1)
                   then group_name group +:+ "_" +:+ to_string c
                   else group_name group)
                  c kd.1 kd.2 (group_profile group) (group_passive group)
                  None,
                group_rate_limiter group))
              <$> group_devices group).
Proof.
  intros Hfinish Hkind. revert s.
  induction indices as [|c indices IH]; intros s; cbn.
  - exists s. by rewrite app_nil_r.
  - destruct (create_group_instance_ok use_backend_threads device_blocking
                group c s Hfinish Hkind) as (s1 & -> & Hs1).
    cbn. destruct (IH s1) as (s2 & -> & Hs2). exists s2.
    split; [done|]. by rewrite Hs2, Hs1, <- app_assoc.
Qed.

Lemma described_instances_cons (group : ModelInstanceGroup)
    (rest : list ModelInstanceGroup) :
  described_instances (group :: rest)
  = (c ← instance_indices (group_count group);
     (fun kd : TRITONSERVER_InstanceGroupKind * Z =>
        (mkCreatedInstance
           (if bool_decide (group_count group > 1)
            then group_name group +:+ "_" +:+ to_string c
            else group_name group)
           c kd.1 kd.2 (group_profile group) (group_passive group) None,
         group_rate_limiter group))
       <$> group_devices group)
    ++ described_instances rest.
Proof. done. Qed.

Lemma create_groups_ok use_backend_threads device_blocking instance_group s :
  (∀ instance, IsOk (finish_instance instance) = true) →
  let result :=
    for_each_until_error
      (fun group =>
         for_each_until_error
           (create_group_instance finish_instance use_backend_threads
              device_blocking group)
           (instance_indices (group_count group)))
      instance_group s in
  match list_find (fun group => group_kind group = KIND_AUTO
                                ∧ 0 < group_count group) instance_group with
  | None =>
      result.1 = Success
      ∧ without_thread <$> added_instances result.2
        = (without_thread <$> added_instances s)
          ++ described_instances instance_group
  | Some (i, group) =>
      StatusCode result.1 = INVALID_ARG
      ∧ without_thread <$> added_instances result.2
        = (without_thread <$> added_instances s)
          ++ described_instances (take i instance_group)
  end.
Proof.
  intros Hfinish. revert s.
  induction instance_group as [|group rest IH]; intros s;
    cbn [for_each_until_error list_find].
  - cbn. by rewrite app_nil_r.
  - case_decide as Hgood; [destruct Hgood as [Hkind Hcount]|].
    + assert (Hbody :
        for_each_until_error
          (create_group_instance finish_instance use_backend_threads
             device_blocking group)
          (instance_indices (group_count group)) s
        = (mkStatus INVALID_ARG
             ("instance_group kind "
                +:+ ModelInstanceGroup_Kind_Name KIND_AUTO
                +:+ " not supported"), s)).
      { unfold instance_indices.
        destruct (Z.to_nat (group_count group)) as [|n] eqn:Hn; [lia|].
        cbn. unfold create_group_instance at 1. by rewrite Hkind. }
      rewrite Hbody. cbn. by rewrite app_nil_r.
    + destruct (decide (group_kind group = KIND_AUTO)) as [Hkind|Hkind].
      * assert (instance_indices (group_count group) = []) as Hnone.
        { unfold instance_indices.
          assert (¬ 0 < group_count group) by (intros ?; by apply Hgood).
          assert (Z.to_nat (group_count group) = 0%nat) as -> by lia. done. }
        rewrite Hnone. cbn [for_each_until_error].
        change (negb (IsOk Success)) with false. cbv iota.
        specialize (IH s). cbv zeta in IH.
        set (res := for_each_until_error _ rest s) in *. clearbody res.
        rewrite (described_instances_cons group rest), Hnone.
        destruct (list_find _ rest) as [[i g]|]; cbn -[described_instances].
        -- destruct IH as [IH1 IH2]. split; [done|].
           by rewrite (described_instances_cons group), Hnone.
        -- done.
      * destruct (create_group_instances_ok use_backend_threads
                    device_blocking group
                    (instance_indices (group_count group)) s Hfinish Hkind)
          as (s1 & -> & Hs1).
        change (negb (IsOk Success)) with false. cbv iota.
        specialize (IH s1). cbv zeta in IH.
        set (res := for_each_until_error _ rest s1) in *. clearbody res.
        rewrite (described_instances_cons group rest).
        destruct (list_find _ rest) as [[i g]|]; cbn -[described_instances].
        -- destruct IH as [IH1 IH2]. split; [done|].
           rewrite (described_instances_cons group).
           by rewrite IH2, Hs1, <- app_assoc.
        -- destruct IH as [IH1 IH2]. split; [done|].
           by rewrite IH2, Hs1, <- app_assoc.
Qed.

(** X17.  When the creation of no instance fails, [CreateInstances] gives
    the model the instances that the configuration describes: for every
    group in order, for every index below the count of the group, one
    instance on device 0 for KIND_CPU and KIND_MODEL and one instance per
    listed device for KIND_GPU, named after the group, with the index
    appended when the count exceeds 1.  A group of another kind with a
    positive count ends the creation with INVALID_ARG, and the model
    keeps the instances of the groups before it; with a count of 0 or
    less such a group goes unnoticed. *)
Theorem CreateInstances_creates_the_described_instances
    (instance_group : list ModelInstanceGroup) (device_blocking : bool) :
  (∀ instance, IsOk (finish_instance instance) = true) →
  let result :=
    CreateInstances finish_instance instance_group device_blocking in
  match list_find (fun group => group_kind group = KIND_AUTO
                                ∧ 0 < group_count group) instance_group with
  | None =>
      result.1 = Success
      ∧ without_thread <$> added_instances result.2
        = described_instances instance_group
  | Some (i, group) =>
      StatusCode result.1 = INVALID_ARG
      ∧ without_thread <$> added_instances result.2
        = described_instances (take i instance_group)
  end.
Proof.
  intros Hfinish. unfold CreateInstances.
  exact (create_groups_ok _ device_blocking instance_group
           (mkInstancesState 0 ∅ []) Hfinish).
Qed.
End create_instances_properties.

(** ** The backend thread *)

Section backend_thread_properties.
Context {Options : BuildOptions}.

Lemma Payload_Execute_should_exit (p : Payload) (now : Z) :
  should_exit (Payload_Execute p now) = bool_decide (op_type_ p = EXIT).
Proof.
  unfold Payload_Execute. by destruct (op_type_ p).
Qed.

(** X18.  The backend thread executes the payloads of its queue in the
    order in which they were enqueued, each one once, up to and including
    the first EXIT; the payloads behind an EXIT are never taken.  Without
    an EXIT it executes all of them and goes on waiting. *)
Theorem BackendThread_runs_in_order_until_EXIT (clock : nat → Z) (n : nat)
    (queue_ : list Payload) :
  let '(results, remaining, stopped) := BackendThread clock n queue_ in
  match list_find (fun p => op_type_ p = EXIT) queue_ with
  | Some (i, _) =>
      stopped = true
      ∧ results
        = imap (fun j p => Payload_Execute p (clock (n + j)%nat))
               (take (S i) queue_)
      ∧ remaining = drop (S i) queue_
  | None =>
      stopped = false
      ∧ results
        = imap (fun j p => Payload_Execute p (clock (n + j)%nat)) queue_
      ∧ remaining = []
  end.
Proof.
  revert n. induction queue_ as [|p rest IH]; intros n;
    cbn [BackendThread list_find]; [done|].
  rewrite Payload_Execute_should_exit.
  case_decide as Hexit.
  - rewrite bool_decide_eq_true_2 by done. cbn.
    rewrite Nat.add_0_r, take_0. done.
  - rewrite bool_decide_eq_false_2 by done.
    specialize (IH (S n)).
    destruct (BackendThread clock (S n) rest) as [[results remaining] stopped].
    destruct (list_find _ rest) as [[i q]|]; cbn.
    + destruct IH as (-> & -> & ->). split; [done|]. split; [|done].
      rewrite Nat.add_0_r. f_equal. apply imap_ext.
      intros j x _. cbn. do 2 f_equal. lia.
    + destruct IH as (-> & -> & ->). split; [done|]. split; [|done].
      rewrite Nat.add_0_r. f_equal. apply imap_ext.
      intros j x _. cbn. do 2 f_equal. lia.
Qed.



(** ** The promise of a warmup sample *)




End backend_thread_properties.

(** ** GenerateWarmupData: errors and the bytes of the synthetic data *)

Section warmup_data_properties.
Context {Helpers : WarmupHelpers}.

(** X21.  The sizing pass of a warmup setting fails exactly when an input
    has a variable-size dimension (an element count of -1): the status is
    INVALID_ARG and its message names the first such input.  Otherwise it
    succeeds, whatever the data types and the kinds of data are, and the
    maxima that it returns are not below the ones it started from. *)
Theorem GenerateWarmupData_rejects_variable_size_dimensions
    (inputs : list (string * ModelWarmup_Input)) (z r : Z) :
  match list_find (fun pr : string * ModelWarmup_Input =>
                     GetElementCount (wi_dims pr.2) = -1) inputs with
  | Some (i, (name, input_meta)) =>
      warmup_max_byte_sizes inputs z r
      = inl (mkStatus INVALID_ARG
               ("warmup setting expects all variable-size dimensions are specified for input '"
                  +:+ name +:+ "'"))
  | None =>
      ∃ z' r', warmup_max_byte_sizes inputs z r = inr (z', r')
               ∧ z ≤ z' ∧ r ≤ r'
  end.
Proof.
  revert z r. induction inputs as [|[name input_meta] inputs IH]; intros z r;
    cbn [list_find warmup_max_byte_sizes].
  - exists z, r. split; [done|lia].
  - case_decide as Hcount; cbn in Hcount.
    + cbn. by rewrite bool_decide_eq_true_2.
    + rewrite bool_decide_eq_false_2 by done.
      set (b := warmup_batch_byte_size input_meta).
      pose proof (IH z r) as IH0.
      pose proof (IH (Z.max b z) r) as IH1.
      pose proof (IH z (Z.max b r)) as IH2.
      destruct (list_find _ inputs) as [[i [name' meta']]|]; cbn.
      * destruct (wi_input_data_type_case input_meta);
          repeat case_bool_decide; done.
      * destruct IH0 as (z0 & r0 & Hr0 & ? & ?).
        destruct IH1 as (z1 & r1 & Hr1 & ? & ?).
        destruct IH2 as (z2 & r2 & Hr2 & ? & ?).
        destruct (wi_input_data_type_case input_meta);
          repeat case_bool_decide; eexists _, _; (split; [eassumption|lia]).
Qed.

End warmup_data_properties.

(** ** CopyAsNull: the store and the sizes *)

Lemma copy_shape_tensor_store (lrequest : InferenceRequest) (h : Heap)
    (pr : string * Input) :
  h ⊆ (copy_shape_tensor (lrequest, h) pr).2.
Proof.
  destruct pr as [k input]. unfold copy_shape_tensor.
  destruct (is_shape_tensor_ input); cbn [negb]; [|done].
  destruct (new_AllocatedMemory_fresh h (TotalByteSize (data_ input))
              TRITONSERVER_MEMORY_CPU 0) as (block & -> & Hfresh).
  cbn [snd]. unfold memcpy.
  destruct (buf_base <$> BufferAt (data_ input) 0) as [p|];
    [|by apply insert_subseteq].
  rewrite lookup_insert_eq, insert_insert_eq. by apply insert_subseteq.
Qed.

Lemma copy_shape_tensors_store (l : list (string * Input))
    (lrequest : InferenceRequest) (h : Heap) :
  h ⊆ (fold_left copy_shape_tensor l (lrequest, h)).2.
Proof.
  revert lrequest h. induction l as [|pr l IH]; intros lrequest h; [done|].
  cbn [fold_left].
  pose proof (copy_shape_tensor_store lrequest h pr) as Hstep.
  destruct (copy_shape_tensor (lrequest, h) pr) as [lrequest1 h1].
  etrans; [exact Hstep|]. apply IH.
Qed.

(** X22.  [CopyAsNull] leaves the store of the caller as it is: every
    block that was there has the same content afterwards, so the data of
    the source request is not written, whatever the request is.  The
    null request comes with its inputs in place: it has no override
    input, and [ImmutableInput] returns the input of the null request for
    each of its names and INVALID_ARG for any other name. *)
Theorem CopyAsNull_keeps_the_store (from : InferenceRequest) (h : Heap)
    (k : string) :
  let clone := (CopyAsNull from h).1 in
  h ⊆ (CopyAsNull from h).2
  ∧ OverrideInputs clone = ∅
  ∧ (k ∈ (OriginalInputs clone).*1 →
     ImmutableInput clone k = inr (PtrOriginal k))
  ∧ (k ∉ (OriginalInputs clone).*1 →
     ∃ st, ImmutableInput clone k = inl st ∧ StatusCode st = INVALID_ARG).
Proof.
  intros clone. subst clone. unfold CopyAsNull, OriginalInputs.
  set (lrequest := set_collect_stats _ false).
  pose proof (copy_shape_tensors_store (original_inputs_ from) lrequest h)
    as Hstore.
  assert (Hinv : inputs_ (fold_left copy_shape_tensor (original_inputs_ from)
                            (lrequest, h)).1 = ∅
                 ∧ override_inputs_
                     (fold_left copy_shape_tensor (original_inputs_ from)
                        (lrequest, h)).1 = ∅).
  { assert (Hgen : ∀ l r h0,
              inputs_ r = ∅ → override_inputs_ r = ∅ →
              inputs_ (fold_left copy_shape_tensor l (r, h0)).1 = ∅
              ∧ override_inputs_
                  (fold_left copy_shape_tensor l (r, h0)).1 = ∅).
    { induction l as [|[k0 x0] l IH]; intros r h0 H1 H2; [done|].
      cbn [fold_left].
      destruct (copy_shape_tensor (r, h0) (k0, x0)) as [r1 h1] eqn:Hstep.
      apply IH.
      - unfold copy_shape_tensor in Hstep.
        destruct (is_shape_tensor_ x0); cbn [negb] in Hstep;
          [|by simplify_eq].
        destruct (new_AllocatedMemory _ _ _ _) as [data h2].
        injection Hstep as <- _.
        unfold add_null_input, AddOriginalInput.
        by destruct (has_input _ _).
      - unfold copy_shape_tensor in Hstep.
        destruct (is_shape_tensor_ x0); cbn [negb] in Hstep;
          [|by simplify_eq].
        destruct (new_AllocatedMemory _ _ _ _) as [data h2].
        injection Hstep as <- _.
        unfold add_null_input, AddOriginalInput.
        by destruct (has_input _ _). }
    by apply Hgen. }
  destruct (fold_left copy_shape_tensor _ _) as [lrequest1 h1].
  cbn [fst snd] in *. destruct Hinv as [Hin1 Hov1].
  destruct (fold_left max_input _ _) as [M nm].
  destruct (new_AllocatedMemory_fresh h1 M TRITONSERVER_MEMORY_CPU 0)
    as (data_block & -> & Hfresh).
  cbn [BufferAt from_option buf_base buf_memory_type buf_memory_type_id].
  set (pad := add_padding_input _ _ _ _ _).
  assert (Hpad : ∀ l r,
            inputs_ r = ∅ → override_inputs_ r = ∅ →
            inputs_ (fold_left pad l r) = ∅
            ∧ override_inputs_ (fold_left pad l r) = ∅).
  { induction l as [|[k0 x0] l IH]; intros r H1 H2; [done|].
    cbn [fold_left]. apply IH.
    - unfold pad, add_padding_input.
      destruct (is_shape_tensor_ x0); [done|].
      unfold add_null_input, AddOriginalInput.
      destruct (has_input _ _); by case_bool_decide.
    - unfold pad, add_padding_input.
      destruct (is_shape_tensor_ x0); [done|].
      unfold add_null_input, AddOriginalInput.
      destruct (has_input _ _); by case_bool_decide. }
  destruct (Hpad (original_inputs_ from) lrequest1 Hin1 Hov1) as [Hin2 Hov2].
  set (lrequest2 := fold_left pad _ _) in *. clearbody lrequest2.
  cbn [fst snd]. split.
  { etrans; [exact Hstore|]. by apply insert_subseteq. }
  split; [done|].
  unfold ImmutableInput. cbn.
  rewrite Hin2, emplace_original_inputs_lookup, lookup_empty.
  split; intros Hk.
  - by rewrite bool_decide_eq_true_2.
  - rewrite bool_decide_eq_false_2 by done. by eexists.
Qed.

Lemma unique_names_same_input (l : list (string * Input)) (k : string)
    (x y : Input) :
  NoDup l.*1 → (k, x) ∈ l → (k, y) ∈ l → x = y.
Proof.
  induction l as [|[k' z] l IH]; [by intros _ ?%elem_of_nil|].
  rewrite fmap_cons. intros [Hk' Hnodup]%NoDup_cons.
  intros [Hx|Hx]%elem_of_cons [Hy|Hy]%elem_of_cons.
  - congruence.
  - injection Hx as -> ->. destruct Hk'. apply list_elem_of_fmap.
    by exists (k', y).
  - injection Hy as -> ->. destruct Hk'. apply list_elem_of_fmap.
    by exists (k', x).
  - by apply IH.
Qed.

(** The inputs of the null request, for a source request with distinct
    input names and at least one input that is not a shape tensor. *)
Lemma CopyAsNull_original_inputs (from : InferenceRequest) (h : Heap) :
  NoDup (OriginalInputs from).*1 →
  (∃ k input,
     (k, input) ∈ OriginalInputs from ∧ is_shape_tensor_ input = false) →
  (∀ k input slice,
     (k, input) ∈ OriginalInputs from → is_shape_tensor_ input = true →
     BufferAt (data_ input) 0 = Some slice →
     ptr_block (buf_base slice) ∈ dom h) →
  ∃ shape_inputs data_block max_input_name max_input,
    OriginalInputs (CopyAsNull from h).1
    = shape_inputs
      ++ ((fun pr : string * Input =>
             (pr.1, null_input pr.1 pr.2
                      (padding_data data_block
                         (max_input_byte_size (OriginalInputs from))
                         (Some max_input_name) pr)))
            <$> filter (fun pr : string * Input =>
                          is_shape_tensor_ pr.2 = false)
                       (OriginalInputs from))
    ∧ Forall2
        (fun (pr e : string * Input) =>
           ∃ block,
             e = (pr.1,
                  null_input pr.1 pr.2
                    (AllocatedMemory block (TotalByteSize (data_ pr.2))
                                     TRITONSERVER_MEMORY_CPU 0)))
        (filter (fun pr : string * Input => is_shape_tensor_ pr.2 = true)
                (OriginalInputs from))
        shape_inputs
    ∧ (max_input_name, max_input) ∈ OriginalInputs from
    ∧ is_shape_tensor_ max_input = false
    ∧ TotalByteSize (data_ max_input)
      = max_input_byte_size (OriginalInputs from).
Proof.
  intros Hnodup (k0 & input0 & Hin0 & Hns0) Hwf.
  unfold CopyAsNull, OriginalInputs in *.
  set (l := original_inputs_ from) in *.
  set (lrequest := set_collect_stats _ false).
  destruct (copy_shape_tensors l lrequest h h)
    as (es & h1 & -> & Hall & Hsub & Hsize); [done|done|done|].
  pose proof (max_input_fold l 0 None) as [Hmax Hname].
  destruct (fold_left max_input l (0%nat, None)) as [M nm].
  cbn [fst snd] in Hmax, Hname. rewrite Nat.max_0_l in Hmax. subst M.
  cbv beta iota.
  destruct Hname as [(kmax & imax & -> & Hinmax & Hnsmax & Hsizemax)|[_ Hlt]];
    [|specialize (Hlt k0 input0 Hin0 Hns0); lia].
  set (M := max_input_byte_size l) in *.
  destruct (new_AllocatedMemory_fresh h1 M TRITONSERVER_MEMORY_CPU 0)
    as (data_block & -> & Hfresh).
  cbn [BufferAt from_option buf_base buf_memory_type buf_memory_type_id].
  assert (Hkeys : es.*1
                  = (filter (λ pr : string * Input,
                               is_shape_tensor_ pr.2 = true) l).*1).
  { clear -Hall. induction Hall as [|pr e ? ? (block & -> & _) _ IH];
      [done|]. cbn. by rewrite IH. }
  rewrite add_padding_inputs.
  2:{ rewrite with_null_inputs_original_inputs.
      change (original_inputs_ lrequest) with (@nil (string * Input)).
      cbn [app]. rewrite Hkeys, <- fmap_app.
      by rewrite filter_shape_tensors_split. }
  rewrite with_null_inputs_app.
  exists es, data_block, kmax, imax.
  split.
  { cbn [fst]. unfold SetReleaseCallback, SetResponseCallback, set_inputs.
    cbn. by rewrite with_null_inputs_original_inputs. }
  split; [|done].
  eapply Forall2_impl; [exact Hall|].
  intros pr e (block & -> & _). by exists block.
Qed.

(** X23.  The null request stands in for the source request input by
    input: for a source request with distinct input names, at least one
    input that is not a shape tensor, and shape tensors whose first slice
    lies in the store, every input of the source has an input of the same
    name in the null request, with the same data type, with the working
    shape of the source as its shape, and with data of the same total
    byte size; and the null request has no other input. *)
Theorem CopyAsNull_same_names_types_and_sizes (from : InferenceRequest)
    (h : Heap) :
  NoDup (OriginalInputs from).*1 →
  (∃ k input,
     (k, input) ∈ OriginalInputs from ∧ is_shape_tensor_ input = false) →
  (∀ k input slice,
     (k, input) ∈ OriginalInputs from → is_shape_tensor_ input = true →
     BufferAt (data_ input) 0 = Some slice →
     ptr_block (buf_base slice) ∈ dom h) →
  let clone := (CopyAsNull from h).1 in
  (OriginalInputs clone).*1 ≡ₚ (OriginalInputs from).*1
  ∧ ∀ k input,
      (k, input) ∈ OriginalInputs from →
      ∃ input',
        (k, input') ∈ OriginalInputs clone
        ∧ name_ input' = k
        ∧ datatype_ input' = datatype_ input
        ∧ original_shape_ input' = shape_ input
        ∧ shape_ input' = shape_ input
        ∧ shape_with_batch_dim_ input' = shape_ input
        ∧ TotalByteSize (data_ input') = TotalByteSize (data_ input).
Proof.
  intros Hnodup Hsome Hwf clone. subst clone.
  destruct (CopyAsNull_original_inputs from h Hnodup Hsome Hwf)
    as (es & data_block & kmax & imax & -> & Hall & Hinmax & Hnsmax
        & Hsizemax).
  set (l := OriginalInputs from) in *.
  assert (Hkeys : es.*1
                  = (filter (λ pr : string * Input,
                               is_shape_tensor_ pr.2 = true) l).*1).
  { clear -Hall. induction Hall as [|pr e ? ? (block & ->) _ IH];
      [done|]. cbn. by rewrite IH. }
  split.
  { rewrite fmap_app, Hkeys, <- list_fmap_compose.
    change (fst ∘ _) with (@fst string Input).
    by rewrite <- fmap_app, filter_shape_tensors_split. }
  intros k input Hin.
  destruct (is_shape_tensor_ input) eqn:Hshape.
  - assert (Hf : (k, input)
                 ∈ filter (λ pr : string * Input,
                             is_shape_tensor_ pr.2 = true) l).
    { by apply list_elem_of_filter. }
    apply list_elem_of_lookup in Hf as [i Hi].
    destruct (Forall2_lookup_l _ _ _ _ _ Hall Hi) as (e & He & block & ->).
    eexists. split.
    { apply elem_of_app. left. by eapply list_elem_of_lookup_2. }
    done.
  - eexists. split.
    { apply elem_of_app. right. apply list_elem_of_fmap.
      exists (k, input). split; [reflexivity|].
      by apply list_elem_of_filter. }
    cbn. repeat split; try done.
    unfold padding_data. cbn. case_bool_decide as Hmaxname.
    + injection Hmaxname as ->. cbn.
      assert (input = imax) as ->; [|done].
      by eapply unique_names_same_input.
    + unfold prefix_reference. case_bool_decide; cbn; lia.
Qed.

(** ** The TensorRT helpers *)

(** X24.  The two conversions between data types agree: a data type that
    [ConvertDataTypeToTrtType] accepts is given back by
    [ConvertTrtTypeToDataType], a TensorRT type that has a data type is
    given back by [ConvertDataTypeToTrtType], and the data types that are
    accepted are exactly FP32, FP16, INT8 and INT32. *)
Theorem ConvertTrtType_round_trip (dtype : DataType)
    (trt_type : nvinfer1_DataType) :
  (ConvertDataTypeToTrtType dtype = (true, trt_type) →
   ConvertTrtTypeToDataType trt_type = dtype)
  ∧ (ConvertTrtTypeToDataType trt_type ≠ TYPE_INVALID →
     ConvertDataTypeToTrtType (ConvertTrtTypeToDataType trt_type)
     = (true, trt_type))
  ∧ ((ConvertDataTypeToTrtType dtype).1 = true
     ↔ dtype ∈ [TYPE_FP32; TYPE_FP16; TYPE_INT8; TYPE_INT32]).
Proof.
  split; [|split].
  - destruct dtype; cbn; intros [= <-]; done.
  - by destruct trt_type.
  - destruct dtype; cbn; split; try done; set_solver.
Qed.

Lemma DimsToVec_loop (model_dims : Dims) (n start : nat) (acc : list Z) :
  fold_left (fun dims (i : nat) => dims ++ [d model_dims !!! i])
            (seq start n) acc
  = acc ++ ((fun i : nat => d model_dims !!! i) <$> seq start n).
Proof.
  revert start acc. induction n as [|n IH]; intros start acc; cbn.
  - by rewrite app_nil_r.
  - by rewrite IH, <- app_assoc.
Qed.

Lemma DimsToVec_spec (model_dims : Dims) :
  DimsToVec model_dims
  = (fun i : nat => d model_dims !!! i) <$> seq 0 (nbDims model_dims).
Proof. unfold DimsToVec. by rewrite DimsToVec_loop. Qed.

Lemma DimsToVec_length (model_dims : Dims) :
  length (DimsToVec model_dims) = nbDims model_dims.
Proof. by rewrite DimsToVec_spec, length_fmap, length_seq. Qed.

Lemma DimsToVec_lookup (model_dims : Dims) (i : nat) :
  (i < nbDims model_dims)%nat →
  DimsToVec model_dims !!! i = d model_dims !!! i.
Proof.
  intros Hi. rewrite DimsToVec_spec.
  apply list_lookup_total_correct.
  by rewrite list_lookup_fmap, lookup_seq_lt.
Qed.

Lemma forallb_seq_ext (f g : nat → bool) (n : nat) :
  (∀ i, (i < n)%nat → f i = g i) →
  forallb f (seq 0 n) = forallb g (seq 0 n).
Proof.
  intros Hext. apply eq_true_iff_eq. rewrite !forallb_forall.
  split; intros H i Hi; pose proof Hi as Hi'%in_seq.
  - rewrite <- Hext by lia. by apply H.
  - rewrite Hext by lia. by apply H.
Qed.



Lemma DimVecToDims_loop (dim_vec : list Z) (n0 : nat) (d0 : list Z)
    (k : nat) :
  (k ≤ length dim_vec)%nat →
  (length dim_vec ≤ length d0)%nat →
  fold_left
    (fun dims (i : nat) =>
       mkDims (nbDims dims) (<[i := to_int (dim_vec !!! i)]> (d dims)))
    (seq 0 k) (mkDims n0 d0)
  = mkDims n0 ((to_int <$> take k dim_vec) ++ drop k d0).
Proof.
  intros Hk Hlen. induction k as [|k IH].
  - cbn. by rewrite take_0, drop_0.
  - rewrite seq_S, fold_left_app, IH by lia. cbn. f_equal.
    destruct (lookup_lt_is_Some_2 dim_vec k ltac:(lia)) as [z Hz].
    rewrite (list_lookup_total_correct _ _ _ Hz).
    rewrite (take_S_r _ _ _ Hz), fmap_app. cbn.
    destruct (lookup_lt_is_Some_2 d0 k ltac:(lia)) as [y Hy].
    rewrite (drop_S _ _ _ Hy).
    rewrite insert_app_r_alt by (rewrite length_fmap, length_take; lia).
    rewrite length_fmap, length_take.
    replace (k - k `min` length dim_vec)%nat with 0%nat by lia.
    cbn. by rewrite <- app_assoc.
Qed.

(** X26.  [DimVecToDims] followed by [DimsToVec]: a vector of at most
    [MAX_DIMS] dimensions is stored, the number of dimensions is its
    length, and reading it back gives every dimension cast to [int], so
    the vector itself when its values fit in 32 bits; a longer vector is
    refused and the [nvinfer1::Dims] is left as it was. *)
Theorem DimVecToDims_then_DimsToVec (MAX_DIMS : nat) (dim_vec : list Z)
    (dims : Dims) :
  length (d dims) = MAX_DIMS →
  if bool_decide (length dim_vec ≤ MAX_DIMS)%nat
  then
    ∃ dims',
      DimVecToDims MAX_DIMS dim_vec dims = (true, dims')
      ∧ nbDims dims' = length dim_vec
      ∧ length (d dims') = MAX_DIMS
      ∧ DimsToVec dims' = to_int <$> dim_vec
      ∧ (Forall (fun z => - 2 ^ 31 ≤ z < 2 ^ 31) dim_vec →
         DimsToVec dims' = dim_vec)
  else DimVecToDims MAX_DIMS dim_vec dims = (false, dims).
Proof.
  intros Hd. unfold DimVecToDims. case_bool_decide as Hlen.
  - rewrite bool_decide_eq_false_2 by lia.
    rewrite DimVecToDims_loop by lia. rewrite firstn_all.
    eexists. split; [reflexivity|]. split; [done|].
    split.
    { cbn. rewrite length_app, length_fmap, length_drop. lia. }
    assert (Hvec : DimsToVec
                     (mkDims (length dim_vec)
                        ((to_int <$> dim_vec) ++ drop (length dim_vec)
                                                      (d dims)))
                   = to_int <$> dim_vec).
    { rewrite DimsToVec_spec. cbn.
      apply list_eq_same_length with (length dim_vec);
        [by rewrite length_fmap|by rewrite length_fmap, length_seq|].
      intros i x y Hi Hx Hy.
      rewrite list_lookup_fmap, lookup_seq_lt in Hx by done. cbn in Hx.
      injection Hx as <-.
      apply list_lookup_total_correct.
      rewrite lookup_app_l by (by rewrite length_fmap). done. }
    split; [done|]. intros Hall. rewrite Hvec.
    rewrite <- (list_fmap_id dim_vec) at 2. apply list_fmap_ext.
    intros i z Hz. rewrite Forall_forall in Hall.
    assert (- 2 ^ 31 ≤ z < 2 ^ 31) as Hrange.
    { apply Hall. by eapply list_elem_of_lookup_2. }
    unfold to_int. cbn. rewrite Z.mod_small by lia. lia.
  - rewrite bool_decide_eq_true_2 by lia. done.
Qed.

Lemma CountElements_loop (dims : list Z) (k : nat) :
  (k ≤ length dims)%nat →
  fold_left (fun count (i : nat) => to_size_t (count * dims !!! i))
            (seq 0 k) 1
  = to_size_t (dims_product (take k dims)).
Proof.
  intros Hk. induction k as [|k IH].
  - done.
  - rewrite seq_S, fold_left_app, IH by lia. cbn.
    destruct (lookup_lt_is_Some_2 dims k ltac:(lia)) as [z Hz].
    rewrite (list_lookup_total_correct _ _ _ Hz).
    rewrite (take_S_r _ _ _ Hz).
    assert (Hprod : ∀ l, dims_product (l ++ [z]) = dims_product l * z).
    { unfold dims_product. induction l as [|x l IHl]; cbn; [lia|].
      rewrite IHl. lia. }
    rewrite Hprod. unfold to_size_t.
    by rewrite Z.mul_mod_idemp_l by lia.
Qed.

Lemma to_int_to_size_t (z : Z) : to_int (to_size_t z) = to_int z.
Proof.
  unfold to_int, to_size_t. f_equal.
  rewrite (Z.mod_eq z (2 ^ 64)) by lia.
  replace (z - 2 ^ 64 * (z / 2 ^ 64) + 2 ^ 31)
    with (z + 2 ^ 31 + (- (2 ^ 32 * (z / 2 ^ 64))) * 2 ^ 32) by lia.
  by rewrite Z.mod_add by lia.
Qed.

(** X27.  [CountElements] of an empty shape is 0, not the empty product;
    of any other shape it is the product of the dimensions cast to
    [int], whatever happens in the [size_t] arithmetic on the way, so it
    is the product itself when the product fits in 32 bits. *)
Theorem CountElements_is_the_product (dims : list Z) :
  CountElements [] = 0
  ∧ (dims ≠ [] → CountElements dims = to_int (dims_product dims))
  ∧ (dims ≠ [] → - 2 ^ 31 ≤ dims_product dims < 2 ^ 31 →
     CountElements dims = dims_product dims).
Proof.
  split; [done|].
  assert (Hne : dims ≠ [] → CountElements dims = to_int (dims_product dims)).
  { intros Hdims. unfold CountElements.
    rewrite bool_decide_eq_false_2 by (by destruct dims).
    rewrite CountElements_loop by done.
    by rewrite firstn_all, to_int_to_size_t. }
  split; [done|]. intros Hdims Hrange. rewrite Hne by done.
  unfold to_int. rewrite Z.mod_small by lia. lia.
Qed.

(** X28.  [ContainsWildcard] holds exactly when one of the dimensions
    that [DimsToVec] returns is the wildcard; between a model shape
    without wildcard and a shape without wildcard, the comparison with
    wildcards is the plain comparison. *)
Theorem ContainsWildcard_and_the_comparisons (model_dims : Dims)
    (dims : list Z) :
  (ContainsWildcard model_dims = true
   ↔ WILDCARD_DIM ∈ DimsToVec model_dims)
  ∧ (ContainsWildcard model_dims = false → WILDCARD_DIM ∉ dims →
     CompareDimsWithWildcard_Dims model_dims dims
     = CompareDims model_dims dims).
Proof.
  assert (Hcontains : ContainsWildcard model_dims = true
                      ↔ WILDCARD_DIM ∈ DimsToVec model_dims).
  { unfold ContainsWildcard. rewrite existsb_exists, DimsToVec_spec.
    rewrite list_elem_of_fmap. split.
    - intros (i & Hi%list_elem_of_In & Hw%bool_decide_eq_true_1).
      by exists i.
    - intros (i & Hw & Hi%list_elem_of_In). exists i.
      split; [done|]. by apply bool_decide_eq_true_2. }
  split; [done|]. intros Hmodel Hdims.
  unfold CompareDimsWithWildcard_Dims, CompareDims.
  case_bool_decide as Hlen; [done|].
  apply forallb_seq_ext. intros i Hi.
  assert (d model_dims !!! i ≠ WILDCARD_DIM) as Hm.
  { intros Hw. assert (ContainsWildcard model_dims = true); [|congruence].
    apply Hcontains. rewrite <- Hw, <- DimsToVec_lookup by done.
    apply list_elem_of_lookup_total_2. by rewrite DimsToVec_length. }
  assert (dims !!! i ≠ WILDCARD_DIM) as Hdi.
  { intros Hw. apply Hdims. rewrite <- Hw.
    apply list_elem_of_lookup_total_2. lia. }
  by rewrite !(bool_decide_eq_true_2 (_ ≠ WILDCARD_DIM)) by done.
Qed.

(** ** Statistics *)




(** * The scenarios *)

Import Examples.

(** ** Normalize and PrepareForInference *)

Lemma Normalize_requested_outputs_witness :
  ImmutableRequestedOutputs (Normalize Examples.good_request).2
  = {["OUT0"; "OUT1"]}
  ∧ ImmutableRequestedOutputs (Normalize Examples.request_for_OUT1).2
    = {["OUT1"]}
  ∧ StatusCode (Normalize Examples.request_for_unknown_output).1
    = INVALID_ARG.
Proof.
  pose proof (Normalize_requested_outputs Examples.good_request)
    as [Hall _].
  pose proof (Normalize_requested_outputs Examples.request_for_OUT1)
    as [Hsome _].
  pose proof (Normalize_requested_outputs Examples.request_for_unknown_output)
    as [_ Hbad].
  split; [|split].
  - destruct Hall as (_ & Hall & _); [reflexivity|].
    rewrite Hall by reflexivity. vm_compute. reflexivity.
  - destruct Hsome as (_ & _ & Hsome); [reflexivity|].
    destruct Hsome as [Hsome _]; [by vm_compute|].
    rewrite Hsome. vm_compute. reflexivity.
  - apply Hbad. exists "OUT7". split; [|reflexivity].
    vm_compute. set_solver.
Defined.

Lemma PrepareForInference_idempotent_witness :
  PrepareForInference (PrepareForInference good_request).2
  = PrepareForInference good_request
  ∧ needs_normalization_ (PrepareForInference good_request).2 = false
  ∧ OverrideInputs (PrepareForInference request_with_override).2 = ∅.
Proof.
  pose proof (PrepareForInference_idempotent good_request) as [Hsame Hgood].
  pose proof (PrepareForInference_idempotent request_with_override)
    as [_ Hover].
  split; [exact Hsame|]. split.
  - apply Hgood. reflexivity.
  - apply Hover. reflexivity.
Defined.

(** Scenario S1. *)
Example PrepareForInference_S1 :
  let r' := (PrepareForInference good_request).2 in
  (PrepareForInference good_request).1 = Success
  ∧ batch_size_ r' = 2
  ∧ (λ pr : string * Input,
       (pr.1, shape_ pr.2, shape_with_batch_dim_ pr.2)) <$> OriginalInputs r'
    = [("IN0", [3], [2; 3]); ("IN1", [5], [2; 5])].
Proof. vm_compute. done. Qed.

Lemma PrepareForInference_error_witness :
  StatusCode (PrepareForInference mismatch_request).1 = INVALID_ARG
  ∧ ImmutableInputs (PrepareForInference mismatch_request).2 = ∅
  ∧ needs_normalization_ (PrepareForInference mismatch_request).2 = true.
Proof.
  pose proof (PrepareForInference_error_leaves_inputs_empty mismatch_request)
    as Herr.
  destruct Herr as (Hcode & Hin & _ & Hnn & _); [reflexivity|].
  by split; [|split].
Defined.

(** Scenario S2. *)
Example PrepareForInference_S2 :
  (PrepareForInference mismatch_request).1
  = mkStatus INVALID_ARG
      "input 'IN1' batch size does not match other inputs for 'simple'".
Proof. reflexivity. Qed.

Lemma Normalize_applies_reshape_witness :
  ∃ input',
    OriginalInputs (Normalize reshape_request).2 !! 0%nat
    = Some ("IN0", input')
    ∧ spec_reshape [-1; 4] [4; -1] [7; 4] = Some (shape_ input').
Proof.
  apply (Normalize_applies_reshape reshape_request 0 "IN0"
           (new_Input "IN0" TYPE_FP32 [7; 4]) reshape_input [4; -1]);
    first [reflexivity | vm_compute; lia].
Defined.

(** Scenario S3, and the same reshape under a batch dimension. *)
Example Normalize_S3 :
  (λ pr : string * Input, shape_ pr.2)
    <$> OriginalInputs (Normalize reshape_request).2 = [[4; 7]]
  ∧ (λ pr : string * Input, (shape_ pr.2, shape_with_batch_dim_ pr.2))
      <$> OriginalInputs (Normalize batched_reshape_request).2
    = [([4; 7], [2; 4; 7])].
Proof. by vm_compute. Qed.

(** C3.  The loop that determines the batch size takes a [batch_size_] of
    0 for "not seen yet": after an input whose first dimension is 0, an
    input with another first dimension is accepted.  With the first
    dimensions 0 and 3, in this order, [Normalize] succeeds with batch size
    3 and gives both inputs the batch dimension 3; in the other order it
    fails with the batch-size mismatch. *)
Theorem Normalize_accepts_zero_first_dimension :
  (λ pr : string * Input, (pr.1, original_shape_ pr.2))
    <$> OriginalInputs zero_batch_request
  = [("IN0", [0; 3]); ("IN1", [3; 5])]
  ∧ (Normalize zero_batch_request).1 = Success
  ∧ batch_size_ (Normalize zero_batch_request).2 = 3
  ∧ (λ pr : string * Input, (pr.1, shape_ pr.2, shape_with_batch_dim_ pr.2))
      <$> OriginalInputs (Normalize zero_batch_request).2
    = [("IN0", [3], [3; 3]); ("IN1", [5], [3; 5])]
  ∧ (Normalize zero_batch_request_swapped).1
    = mkStatus INVALID_ARG
        "input 'IN0' batch size does not match other inputs for 'simple'".
Proof. by vm_compute. Qed.

(** ** GenerateWarmupData *)

Lemma GenerateWarmupData_sizing_witness :
  ∃ samples h',
    GenerateWarmupData (Helpers := example_warmup_helpers) warmup_backend
                       warmup_settings (fun _ => Byte.x2a) ∅
    = inr (samples, h')
    ∧ length samples = 1%nat.
Proof.
  assert (∃ samples h',
            GenerateWarmupData (Helpers := example_warmup_helpers)
                               warmup_backend warmup_settings
                               (fun _ => Byte.x2a) ∅
            = inr (samples, h')) as (samples & h' & Heq).
  { eexists _, _. vm_compute. reflexivity. }
  exists samples, h'. split; [exact Heq|].
  pose proof (GenerateWarmupData_sizing_and_zero_buffer
                (Helpers := example_warmup_helpers) warmup_backend
                warmup_settings (fun _ => Byte.x2a) ∅ h' samples) as Hspec.
  apply Forall2_length in Hspec; [by rewrite <- Hspec| |exact Heq].
  repeat constructor; apply (bool_decide_unpack _); by vm_compute.
Defined.

(** The warmup sample of the example: 128 zero bytes serve ZEROS and
    TEXT, and every request has TEXT as an override input. *)
Example GenerateWarmupData_sample :
  match GenerateWarmupData (Helpers := example_warmup_helpers)
          warmup_backend warmup_settings (fun _ => Byte.x2a) ∅ with
  | inr ([sample], h') =>
      sample_name_ sample = "sample"
      ∧ TotalByteSize <$> zero_data_ sample = Some 128%nat
      ∧ TotalByteSize <$> random_data_ sample = Some 80%nat
      ∧ (fun request =>
           (fun pr : string * Input => (pr.1, TotalByteSize (data_ pr.2)))
             <$> OriginalInputs request) <$> requests_ sample
        = [[("ZEROS", 64%nat); ("NOISE", 80%nat)];
           [("ZEROS", 64%nat); ("NOISE", 80%nat)]]
      ∧ (fun request =>
           TotalByteSize <$> (data_ <$> OverrideInputs request !! "TEXT"))
          <$> requests_ sample
        = [Some 128%nat; Some 128%nat]
  | _ => False
  end.
Proof. vm_compute. done. Qed.

(** ** CopyAsNull *)

Lemma CopyAsNull_null_request_witness :
  collect_stats_ (CopyAsNull null_source example_heap).1 = false
  ∧ size (dom (CopyAsNull null_source example_heap).2) = 5%nat.
Proof.
  destruct (CopyAsNull_null_request null_source example_heap)
    as (shape_inputs & data_block & max_input_name & max_input & _ & Hshape
        & _ & _ & _ & _ & _ & Hsize & _ & _ & _ & _ & Hstats & _).
  - apply (bool_decide_unpack _). by vm_compute.
  - exists "A", (source_input "A" false [8] [slice 11 0 32]).2.
    split; [|done]. apply list_elem_of_In. cbn. tauto.
  - intros k input sl Hin%list_elem_of_In Hst Hsl. cbn in Hin.
    destruct Hin as [Hin|[Hin|[Hin|[]]]]; unfold source_input in Hin;
      simplify_eq; cbn in *; try done.
    simplify_eq. cbn. apply elem_of_dom. vm_compute. by eexists.
  - split; [done|]. rewrite Hsize.
    apply Forall2_length in Hshape. rewrite <- Hshape. by vm_compute.
Defined.

(** Scenario S5. *)
Example CopyAsNull_S5 :
  let clone := (CopyAsNull null_source example_heap).1 in
  let h' := (CopyAsNull null_source example_heap).2 in
  (λ pr : string * Input, (pr.1, data_ pr.2)) <$> OriginalInputs clone
  = [("S", AllocatedMemory 13 12 TRITONSERVER_MEMORY_CPU 0);
     ("A", AllocatedMemory 14 32 TRITONSERVER_MEMORY_CPU 0);
     ("B", MemoryReference [slice 14 0 16])]
  ∧ h' !! 13%N = example_heap !! 10%N
  ∧ ImmutableRequestedOutputs clone = ∅.
Proof. by vm_compute. Qed.

(** With the data of the shape tensor in two slices, of 8 and of 4 bytes,
    the buffer of the copy holds the 8 bytes of the first slice and 4 bytes
    that were never written: it does not hold all the bytes of the
    source. *)
Lemma CopyAsNull_two_slices_counterexample :
  ¬ CopyAsNull_copies_shape_tensors two_slice_source example_heap.
Proof.
  intros Hclaim.
  destruct (Hclaim "S" (source_input "S" true [3]
                          [slice 10 0 8; slice 10 8 4]).2)
    as (block & input' & Hin & Hdata & _ & Hcontent).
  - apply list_elem_of_In. cbn. tauto.
  - done.
  - apply list_elem_of_In in Hin. vm_compute in Hin.
    destruct Hin as [Hin|[Hin|[Hin|[]]]]; simplify_eq.
    cbn in Hdata. injection Hdata as <-.
    vm_compute in Hcontent. discriminate Hcontent.
Qed.

(** [CopyAsNull] clears [needs_normalization_] first, and every
    [AddOriginalInput] that follows sets it again. *)
Example CopyAsNull_S5_needs_normalization :
  needs_normalization_ (CopyAsNull null_source example_heap).1 = true.
Proof. reflexivity. Qed.

(** * Further scenarios *)

(** ** Building a request *)

Lemma AddOriginalInput_unique_names_witness :
  NoDup (OriginalInputs
           (AddOriginalInput good_request "IN2" TYPE_FP32 [2; 7]).2).*1
  ∧ StatusCode (AddOriginalInput good_request "IN0" TYPE_FP32 [2; 3]).1
    = INVALID_ARG.
Proof.
  assert (Hnodup : NoDup (OriginalInputs good_request).*1).
  { apply (bool_decide_unpack _). by vm_compute. }
  pose proof (AddOriginalInput_unique_names good_request "IN2" TYPE_FP32
                [2; 7] Hnodup) as (Hnew & _).
  pose proof (AddOriginalInput_unique_names good_request "IN0" TYPE_FP32
                [2; 3] Hnodup) as (_ & Hdup & _).
  split; [exact Hnew|]. apply Hdup.
  apply (bool_decide_unpack _). by vm_compute.
Defined.

Lemma RemoveOriginalInput_undoes_AddOriginalInput_witness :
  RemoveOriginalInput
    (AddOriginalInput good_request "IN2" TYPE_FP32 [2; 7]).2 "IN2"
  = (Success, set_needs_normalization good_request true).
Proof.
  apply (RemoveOriginalInput_undoes_AddOriginalInput good_request "IN2"
           TYPE_FP32 [2; 7]).
  apply (bool_decide_unpack _). by vm_compute.
Defined.

Lemma AddOverrideInput_until_next_prepare_witness :
  PrepareForInference
    (AddOverrideInput (PrepareForInference good_request).2
                      (new_Input "START" TYPE_INT32 [1])).2
  = (Success, (PrepareForInference good_request).2).
Proof.
  assert (Hok : IsOk (PrepareForInference good_request).1 = true)
    by (vm_compute; reflexivity).
  pose proof (AddOverrideInput_until_next_prepare good_request
                (new_Input "START" TYPE_INT32 [1]) Hok) as H.
  cbv zeta in H. destruct H as (_ & _ & _ & _ & H). exact H.
Defined.

Lemma PrepareForInference_inputs_witness :
  ImmutableInput (PrepareForInference good_request).2 "IN1"
  = inr (PtrOriginal "IN1").
Proof.
  apply (PrepareForInference_inputs_are_the_original_inputs good_request
           "IN1"); [reflexivity|].
  apply (bool_decide_unpack _). by vm_compute.
Defined.

Lemma PrepareForInference_validates_after_change_witness :
  (PrepareForInference
     (RemoveOriginalInput (PrepareForInference good_request).2 "IN1").2).1
  = (Normalize
       (clear_inputs
          (RemoveOriginalInput (PrepareForInference good_request).2
                               "IN1").2)).1.
Proof.
  apply (PrepareForInference_validates_after_change
           (PrepareForInference good_request).2).
  apply change_RemoveOriginalInput. reflexivity.
Defined.

(** ** Normalize *)


Lemma Normalize_inputs_are_the_model_inputs_witness :
  (OriginalInputs good_request).*1 ≡ₚ ["IN0"; "IN1"].
Proof.
  apply (Normalize_inputs_are_the_model_inputs good_request 1
           (mkModelConfig "simple" 4
              [mkModelInput "IN0" TYPE_FP32 [3] None false;
               mkModelInput "IN1" TYPE_FP32 [5] None false]
              [mkModelOutput "OUT0" TYPE_FP32 [3];
               mkModelOutput "OUT1" TYPE_FP32 [5]])).
  - reflexivity.
  - apply (bool_decide_unpack _). by vm_compute.
  - reflexivity.
Defined.

Lemma Normalize_batch_size_witness :
  batch_size_ (Normalize zero_batch_request).2 = 3
  ∧ uint32_to_int (batch_size_ (Normalize good_request).2) ≤ 4.
Proof.
  pose proof (Normalize_batch_size good_request) as Hgood.
  destruct Hgood as (_ & Hmax & _); [reflexivity|].
  split; [reflexivity|exact Hmax].
Defined.

(** ** The data of an input, and the errors of a batch *)

Lemma SetData_refused_after_AppendData_witness :
  StatusCode
    (SetData (AppendData (new_Input "IN0" TYPE_FP32 [2; 3])
                         (mkPtr 11 0) 24 TRITONSERVER_MEMORY_CPU 0)
             (MemoryReference [])).1
  = INVALID_ARG.
Proof.
  destruct (SetData_refused_after_AppendData
              (new_Input "IN0" TYPE_FP32 [2; 3]) [] (mkPtr 11 0) 24
              TRITONSERVER_MEMORY_CPU 0 (MemoryReference []))
    as (_ & _ & Hcode & _); [reflexivity|lia|exact Hcode].
Defined.


(** ** Instances, threads and warmup *)

Lemma CreateInstances_uses_threads_witness :
  use_backend_threads_loop 0 example_groups = true.
Proof.
  rewrite (CreateInstances_uses_threads_for_several_instances example_groups).
  - reflexivity.
  - repeat constructor; cbn; lia.
Defined.

Lemma CreateInstances_creates_the_described_instances_witness :
  (fun pr : CreatedInstance * N =>
     (ci_name pr.1, ci_device_id pr.1, triton_backend_thread_ pr.1))
    <$> added_instances
          (CreateInstances (fun _ => Success) example_groups true).2
  = [("cpu_0", 0, Some 0%nat); ("cpu_1", 0, Some 0%nat);
     ("gpu", 0, Some 0%nat); ("gpu", 1, Some 1%nat);
     ("spare", 0, Some 0%nat)]
  ∧ (CreateInstances (fun _ => Success) example_groups true).1 = Success.
Proof.
  pose proof (CreateInstances_creates_the_described_instances
                (fun _ => Success) example_groups true) as Hdescribed.
  split; [by vm_compute|].
  apply Hdescribed. reflexivity.
Defined.


(** ** CopyAsNull *)

Lemma CopyAsNull_same_names_types_and_sizes_witness :
  (OriginalInputs (CopyAsNull null_source example_heap).1).*1
  ≡ₚ ["S"; "A"; "B"].
Proof.
  apply (CopyAsNull_same_names_types_and_sizes null_source example_heap).
  - apply (bool_decide_unpack _). by vm_compute.
  - exists "A", (source_input "A" false [8] [slice 11 0 32]).2.
    split; [|done]. apply list_elem_of_In. cbn. tauto.
  - intros k input sl Hin%list_elem_of_In Hst Hsl. cbn in Hin.
    destruct Hin as [Hin|[Hin|[Hin|[]]]]; unfold source_input in Hin;
      simplify_eq; cbn in *; try done.
    simplify_eq. cbn. apply elem_of_dom. vm_compute. by eexists.
Defined.

(** ** The TensorRT helpers *)

Lemma DimVecToDims_then_DimsToVec_witness :
  ∃ dims',
    DimVecToDims 8 [2; -1; 224] empty_Dims = (true, dims')
    ∧ DimsToVec dims' = [2; -1; 224].
Proof.
  destruct (DimVecToDims_then_DimsToVec 8 [2; -1; 224] empty_Dims)
    as (dims' & Hdims & _ & _ & _ & Hvec); [reflexivity|].
  exists dims'. split; [exact Hdims|]. apply Hvec.
  repeat constructor; lia.
Defined.
